(** * ahoj.py: the worker lifecycle controller

    A shallow embedding of [src/ahoj.py]: the module-level registry
    [processes], the shared [terminate_flag], the three worker bodies, the
    spawn helpers, [terminate_all], [signal_handler], [start_ramp],
    [prompt_int], [main_menu] and the program entry.

    Modelling choices, all visible in the definitions below:
    - a [multiprocessing.Process] object is an entry of the interpreter's
      object [table]; a handle is its index, so [processes] holds references
      and two occurrences of one handle alias one process;
    - Python exceptions are an explicit outcome ([Raise]); the classes that
      [except Exception] does not catch are told apart by [is_Exception];
    - [slept] is a binary64 float, as in the source, and the guard
      [slept < speed] compares it with the int [speed] exactly, as Python
      does; a [while] loop whose termination rests on float arithmetic
      takes fuel, and running out of fuel is the outcome [Diverge];
    - time passes in the controller only inside [time.sleep]; the
      environment [env] says how many processes the OS grants, which
      workers ignore a termination request past the join timeout, which
      handle operations raise, and what reaches the controller from
      outside, at most once in a run: the shared flag is set during some
      slice, or a SIGINT or SIGTERM arrives;
    - the module installs [signal_handler] for SIGINT and SIGTERM.  The
      interpreter runs it at a step of the main thread: here after a wave
      is announced, after [p.start()], after [processes.append(p)], after
      a [time.sleep(0.1)] and at a prompt ([check_signals]).  The
      [SystemExit] of [sys.exit(0)] is raised at that step and passes
      every handler of the program, which catch [KeyboardInterrupt] only.
      No step is modelled inside [terminate_all], nor in a call of
      [start_ramp] that announces no wave;
    - with the handler replaced, SIGINT raises no [KeyboardInterrupt];
      the two [except KeyboardInterrupt] are kept as written, and only the
      script of [input()] can raise one;
    - on the controller's side a child leaves in two ways only: its
      start-up code fails, or a termination request reaches it and it
      exits within the join timeout; a child that leaves by itself on
      seeing the inherited flag is not modelled;
    - a worker reads its clock through [time.time()], whose successive
      results are given by the worker's environment;
    - [main_menu] and the program entry read their input from a script
      ([answers k] is what the k-th call of [input()] gives: a line, or
      the exception it raises, whichever class that is); screen clearing
      and prints are dropped;
    - the decorative console is reduced to one bit ([console]); prints are
      dropped, except that the "RAMP STEP" line is logged with the wave's
      count, which the source deliberately does not print. *)

From Stdlib Require Import ZArith List Bool Floats Uint63 Lia.
From Stdlib Require String.
Import String.StringSyntax.
Delimit Scope string_scope with string.
From stdpp Require Import base tactics option list relations.
Import ListNotations.

Local Open Scope Z_scope.

(** ** Configuration / defaults *)

Definition DEFAULT_PC_AMOUNT : Z := 16384.
Definition DEFAULT_SPEED : Z := 2.
Definition DEFAULT_MEM_MB : Z := 128.
Definition DEFAULT_USE_BUSY_LOOP : bool := true.

(** The literal [0.1]. *)
Definition tenth : float := 0x1.999999999999ap-4%float.

(** [x < z] for a float [x] and an int [z]: Python compares the two
    exactly, without converting the int. *)
Definition float_lt_int (x : float) (z : Z) : bool :=
  match Prim2SF x with
  | S754_nan => false
  | S754_infinity neg => neg
  | S754_zero _ => 0 <? z
  | S754_finite neg m e =>
      let v := if neg then Z.neg m else Z.pos m in
      if 0 <=? e then v * 2 ^ e <? z else v <? z * 2 ^ (- e)
  end.

(** ** Data model *)

Abbreviation handle := nat (only parsing).

(** The [target=] of a [multiprocessing.Process], with its [args=]. *)
Inductive target : Type :=
| TargetBusy
| TargetThrottle (load_percent : Z)
| TargetMemory (size_in_mb : Z).

Record process : Type := MkProcess {
  p_target : target;
  p_running : bool;     (* the child has been started and has not exited *)
  p_signalled : bool;   (* a termination request was delivered to it *)
}.

Inductive exn : Type :=
| OSError | ValueError | AssertionError | MemoryError | OverflowError
| KeyboardInterrupt | SystemExit (code : Z).

(** [KeyboardInterrupt] and [SystemExit] derive from [BaseException] only. *)
Definition is_Exception (e : exn) : bool :=
  match e with
  | KeyboardInterrupt | SystemExit _ => false
  | _ => true
  end.

(** The conversion of an int operand in float arithmetic: the nearest
    float, ties to even; [OverflowError] beyond the float range. *)
Definition float_of_int (z : Z) : exn + float :=
  let f := SF2Prim (binary_normalize prec emax z 0 false) in
  if is_infinity f then inl OverflowError else inr f.

Inductive event : Type :=
| EvWave (count : Z)
| EvStart (h : handle) (t : target)
| EvTerminate (h : handle)
| EvJoin (h : handle)
| EvSleep.

Record state : Type := MkState {
  terminate_flag : bool;
  processes : list handle;
  table : list process;
  clock : nat;                 (* slices of 0.1 s slept so far *)
  console : bool;              (* the console thread is running *)
  log : list event;            (* requests made so far, oldest first *)
}.

Inductive op : Type := OpIsAlive | OpTerminate | OpJoin.

(** What reaches the controller from outside, at most once in a run:
    another holder of the shared event sets it during slice [t]; or a
    SIGINT or SIGTERM arrives, and the interpreter runs the installed
    handler at the controller's next step, which finds [logged] entries in
    the log and [held] handles in the registry. *)
Inductive intervention : Type :=
| SetsFlag (t : nat)
| Signal (logged held : nat).

Record env : Type := MkEnv {
  proc_limit : nat;            (* [start()] raises OSError beyond this many *)
  mem_limit : Z;               (* bytes a child may allocate *)
  outside : option intervention;
  stubborn : handle -> bool;   (* does not exit within the join timeout *)
  raises : op -> handle -> bool;
}.

(** The slice during which the flag is set from outside. *)
Definition stop_tick (E : env) : option nat :=
  match outside E with
  | Some (SetsFlag t) => Some t
  | _ => None
  end.

(** The step at which the signal handler runs. *)
Definition signal_at (E : env) : option (nat * nat) :=
  match outside E with
  | Some (Signal logged held) => Some (logged, held)
  | _ => None
  end.

Definition initial_state : state :=
  MkState false [] [] 0 false [].

(** Field updates. *)
Definition with_flag (b : bool) (s : state) : state :=
  MkState b (processes s) (table s) (clock s) (console s) (log s).
Definition with_processes (l : list handle) (s : state) : state :=
  MkState (terminate_flag s) l (table s) (clock s) (console s) (log s).
Definition with_table (t : list process) (s : state) : state :=
  MkState (terminate_flag s) (processes s) t (clock s) (console s) (log s).
Definition with_clock (c : nat) (s : state) : state :=
  MkState (terminate_flag s) (processes s) (table s) c (console s) (log s).
Definition with_console (b : bool) (s : state) : state :=
  MkState (terminate_flag s) (processes s) (table s) (clock s) b (log s).
Definition emit (e : event) (s : state) : state :=
  MkState (terminate_flag s) (processes s) (table s) (clock s) (console s)
          (log s ++ [e]).

(** ** The effect monad: state, exceptions, divergence *)

Inductive result (A : Type) : Type :=
| Ok (a : A) (s : state)
| Raise (e : exn) (s : state)
| Diverge.
Arguments Ok {A} a s.
Arguments Raise {A} e s.
Arguments Diverge {A}.

Definition M (A : Type) : Type := state -> result A.

Definition ret {A} (a : A) : M A := fun s => Ok a s.
Definition bind {A B} (c : M A) (k : A -> M B) : M B := fun s =>
  match c s with
  | Ok a s' => k a s'
  | Raise e s' => Raise e s'
  | Diverge => Diverge
  end.
Definition raise {A} (e : exn) : M A := fun s => Raise e s.
Definition diverge {A} : M A := fun _ => Diverge.
Definition gets {A} (f : state -> A) : M A := fun s => Ok (f s) s.
Definition modify (f : state -> state) : M unit := fun s => Ok tt (f s).

Declare Scope py_scope.
Delimit Scope py_scope with py.
Notation "'let!' x ':=' c 'in' k" := (bind c (fun x => k))
  (at level 10, x name, c at level 100, k at level 200) : py_scope.
Notation "c ;; k" := (bind c (fun _ => k))
  (at level 100, k at level 200, right associativity) : py_scope.
Local Open Scope py_scope.

(** [try: body / except Exception: pass] *)
Definition try_except_Exception (body : M unit) : M unit := fun s =>
  match body s with
  | Raise e s' => if is_Exception e then Ok tt s' else Raise e s'
  | r => r
  end.

(** [try: body / except KeyboardInterrupt: pass] *)
Definition try_except_KeyboardInterrupt (body : M unit) : M unit := fun s =>
  match body s with
  | Raise KeyboardInterrupt s' => Ok tt s'
  | r => r
  end.

(** [try: body / finally: fin] *)
Definition try_finally {A} (body : M A) (fin : M unit) : M A := fun s =>
  match body s with
  | Ok a s' => bind fin (fun _ => ret a) s'
  | Raise e s' => bind fin (fun _ => raise e) s'
  | Diverge => Diverge
  end.

(** [for x in l: body x] *)
Fixpoint for_each {A} (l : list A) (body : A -> M unit) : M unit :=
  match l with
  | [] => ret tt
  | x :: l' => body x ;; for_each l' body
  end.

(** [for _ in range(n): body] *)
Fixpoint repeat_n (n : nat) (body : M unit) : M unit :=
  match n with
  | O => ret tt
  | S n' => body ;; repeat_n n' body
  end.

(** ** Worker definitions (the child's side)

    A worker body runs in its own process.  Its view of the world is the
    sequence of answers [terminate_flag.is_set()] gives it ([flag_seen k]
    for its k-th call), the sequence of readings [time.time()] gives it
    ([time_time c] for its c-th call, whatever passes or sleeps lie
    between two calls), and a heap with a byte budget.  A run is cut by
    fuel: it reports the trace produced so far and whether the body has
    returned. *)

Module Worker.

Local Open Scope float_scope.

Inductive wevent : Type :=
| WCheck (seen : bool)        (* terminate_flag.is_set() *)
| WSpin (passes : nat) (elapsed : float)
                              (* the spin loop, left after [passes] passes
                                 at this value of time.time() - t0 *)
| WSleep (d : float).         (* time.sleep(d) *)

Inductive wstatus : Type :=
| Returned                    (* the body returned: exit code 0 *)
| Uncaught (e : exn)          (* an exception left the body: traceback, exit code 1 *)
| Running.                    (* still in its loop when the fuel ran out *)

Record wenv : Type := MkWEnv {
  flag_seen : nat -> bool;
  time_time : nat -> float;
}.

Definition slice_time : float := tenth.
Definition half_second : float := 0.5.

Section Bodies.

Context (W : wenv).

(** [while (time.time() - t0) < busy_time: pass], [c] being the number of
    calls of [time.time()] made so far; the result is that number when
    the loop is left. *)
Fixpoint spin (fuel : nat) (t0 busy_time : float) (c : nat) : option nat :=
  match fuel with
  | O => None
  | S fuel' =>
      if time_time W c - t0 <? busy_time
      then spin fuel' t0 busy_time (S c)
      else Some (S c)
  end.

(** [slice_time * load_percent / 100.0] on the converted [load_percent]. *)
Definition busy_time_of (load_percent : float) : float :=
  slice_time * load_percent / 100.

(** What [if rem > 0: time.sleep(rem)] does. *)
Definition sleep_rest (rem : float) : list wevent :=
  if 0 <? rem then [WSleep rem] else [].

(** The [while not terminate_flag.is_set()] loop of [cpu_worker_throttle];
    [k] counts the flag checks and [c] the calls of [time.time()] made so
    far. *)
Fixpoint throttle_loop (fuel : nat) (busy_time : float) (k c : nat)
  : list wevent * wstatus :=
  match fuel with
  | O => ([], Running)
  | S fuel' =>
      if flag_seen W k then ([WCheck true], Returned)
      else
        let t0 := time_time W c in
        match spin fuel' t0 busy_time (S c) with
        | None => ([WCheck false], Running)
        | Some c1 =>
            let rem := slice_time - (time_time W c1 - t0) in
            let '(tr, st) := throttle_loop fuel' busy_time (S k) (S c1) in
            (WCheck false
               :: WSpin (c1 - S (S c)) (time_time W (pred c1) - t0)
               :: sleep_rest rem ++ tr,
             st)
        end
  end.

(** [cpu_worker_throttle(load_percent)]: the product with the float
    [slice_time] converts [load_percent], which can fail. *)
Definition cpu_worker_throttle (fuel : nat) (load_percent : Z)
  : list wevent * wstatus :=
  match float_of_int load_percent with
  | inl e => ([], Uncaught e)
  | inr lp => throttle_loop fuel (busy_time_of lp) 0 0
  end.

(** [while not terminate_flag.is_set(): pass] *)
Fixpoint cpu_worker_busy_loop (fuel : nat) (k : nat) : list wevent * wstatus :=
  match fuel with
  | O => ([], Running)
  | S fuel' =>
      if flag_seen W k then ([WCheck true], Returned)
      else
        let '(tr, st) := cpu_worker_busy_loop fuel' (S k) in
        (WCheck false :: tr, st)
  end.

Definition cpu_worker_busy (fuel : nat) : list wevent * wstatus :=
  cpu_worker_busy_loop fuel 0.

(** [while not terminate_flag.is_set(): time.sleep(0.5)] *)
Fixpoint idle_loop (fuel : nat) (k : nat) : list wevent * wstatus :=
  match fuel with
  | O => ([], Running)
  | S fuel' =>
      if flag_seen W k then ([WCheck true], Returned)
      else
        let '(tr, st) := idle_loop fuel' (S k) in
        (WCheck false :: WSleep half_second :: tr, st)
  end.

End Bodies.

(** *** The child's heap

    Objects live at addresses; a list object holds addresses, so that
    [[s] * n] is a list of [n] references to the one object [s].  Sizes
    count the payload only: one byte per character of an ASCII string,
    eight bytes per list slot; object headers are left out. *)

Local Open Scope Z_scope.

Abbreviation addr := nat (only parsing).

Inductive pyobj : Type :=
| PyStr (len : Z)
| PyList (items : list addr).

Definition heap := list pyobj.

Definition sizeof (o : pyobj) : Z :=
  match o with
  | PyStr len => len
  | PyList items => 8 * Z.of_nat (length items)
  end.

Definition used (hp : heap) : Z := fold_right Z.add 0 (map sizeof hp).

(** Allocation under a byte budget; [MemoryError] when it does not fit. *)
Definition alloc (limit : Z) (o : pyobj) (hp : heap) : exn + (addr * heap) :=
  if used hp + sizeof o <=? limit
  then inr (length hp, hp ++ [o])
  else inl MemoryError.

Definition sys_maxsize : Z := 2 ^ 63 - 1.

(** [s * k] for a string [s] of [len] characters. *)
Definition str_mul (limit : Z) (len k : Z) (hp : heap) : exn + (addr * heap) :=
  alloc limit (PyStr (len * Z.max 0 k)) hp.

(** [[x] * n]: a new list whose [n] slots all hold the reference [x]. *)
Definition list_mul (limit : Z) (x : addr) (n : Z) (hp : heap)
  : exn + (addr * heap) :=
  if sys_maxsize <? n then inl OverflowError
  else alloc limit (PyList (replicate (Z.to_nat n) x)) hp.

(** [data = ['x' * 1024 * 1024] * int(size_in_mb)] *)
Definition build_data (limit : Z) (size_in_mb : Z) : exn + (addr * heap) :=
  match str_mul limit (1 * 1024) 1024 [] with
  | inl e => inl e
  | inr (s, hp) => list_mul limit s size_in_mb hp
  end.

Definition size_at (hp : heap) (a : addr) : Z :=
  match hp !! a with
  | Some o => sizeof o
  | None => 0
  end.

(** The bytes kept alive by the name [data]: the list object and every
    distinct object its slots refer to. *)
Definition held_bytes (hp : heap) (data : addr) : Z :=
  match hp !! data with
  | Some (PyList items) =>
      sizeof (PyList items)
      + fold_right Z.add 0 (map (size_at hp) (remove_dups items))
  | Some o => sizeof o
  | None => 0
  end.

(** [memory_worker(size_in_mb)]: the trace, the exit status, and the
    allocation it holds while it idles (heap and the address of [data]). *)
Definition memory_worker (W : wenv) (limit : Z) (fuel : nat) (size_in_mb : Z)
  : list wevent * wstatus * option (heap * addr) :=
  match build_data limit size_in_mb with
  | inl MemoryError => ([], Returned, None)          (* except MemoryError: return *)
  | inl e => ([], Uncaught e, None)
  | inr (data, hp) =>
      let '(tr, st) := idle_loop W fuel 0 in (tr, st, Some (hp, data))
  end.

(** Whether the child is still there once it has run its start-up code
    (everything before its first flag check). *)
Definition survives_startup (limit : Z) (t : target) : bool :=
  match t with
  | TargetMemory size_in_mb =>
      match build_data limit size_in_mb with
      | inl _ => false
      | inr _ => true
      end
  | TargetThrottle load_percent =>
      match float_of_int load_percent with
      | inl _ => false
      | inr _ => true
      end
  | TargetBusy => true
  end.

(** The body a child runs for its [target]. *)
Definition run_target (W : wenv) (limit : Z) (fuel : nat) (t : target)
  : list wevent * wstatus :=
  match t with
  | TargetBusy => cpu_worker_busy W fuel
  | TargetThrottle load_percent => cpu_worker_throttle W fuel load_percent
  | TargetMemory size_in_mb => fst (memory_worker W limit fuel size_in_mb)
  end.

(** The duty cycle as the specification words it, for a spin time [busy]
    and from the flag check number [k] and the clock reading number [c]
    on.  Every slice opens with a flag check; a set flag ends the run.
    After an unset flag the slice starts at the reading [c]; the worker
    spins through the [j] next readings, at which less than [busy] has
    elapsed, and leaves the spin at the first reading at which it has
    not; it then sleeps what the following reading leaves of the slice,
    if anything.  A run cut by fuel stops before a check or in a spin. *)
Inductive duty_cycle (W : wenv) (busy : float)
  : nat -> nat -> list wevent -> wstatus -> Prop :=
| duty_stop k c :
    flag_seen W k = true ->
    duty_cycle W busy k c [WCheck true] Returned
| duty_slice k c j tr st :
    flag_seen W k = false ->
    (forall i, (i < j)%nat ->
       (time_time W (S c + i) - time_time W c <? busy)%float = true) ->
    (time_time W (S c + j) - time_time W c <? busy)%float = false ->
    duty_cycle W busy (S k) (c + j + 3) tr st ->
    duty_cycle W busy k c
      (WCheck false
         :: WSpin j (time_time W (S c + j) - time_time W c)%float
         :: sleep_rest (slice_time - (time_time W (c + j + 2) - time_time W c))%float
         ++ tr)
      st
| duty_cut k c :
    duty_cycle W busy k c [] Running
| duty_spinning k c :
    flag_seen W k = false ->
    duty_cycle W busy k c [WCheck false] Running.

(** The plain busy loop only ever checks the flag. *)
Definition is_check (e : wevent) : bool :=
  match e with
  | WCheck _ => true
  | _ => false
  end.

End Worker.

(** ** Process handles *)

Section Controller.

Context (E : env).

(** [terminate_flag.is_set()] and [terminate_flag.set()] *)
Definition is_set : M bool := gets terminate_flag.
Definition set_flag : M unit := modify (with_flag true).

(** [p.is_alive()] *)
Definition is_alive (h : handle) : M bool := fun s =>
  if raises E OpIsAlive h then Raise ValueError s
  else match table s !! h with
       | Some p => Ok (p_running p) s
       | None => Raise AssertionError s
       end.

Definition deliver (p : process) : process :=
  if p_running p then MkProcess (p_target p) true true else p.

(** [p.terminate()]: the request reaches a child that has not exited. *)
Definition terminate (h : handle) : M unit := fun s =>
  let s1 := emit (EvTerminate h) s in
  if raises E OpTerminate h then Raise OSError s1
  else Ok tt (with_table (alter deliver h (table s1)) s1).

Definition reap (h : handle) (p : process) : process :=
  if p_running p && p_signalled p && negb (stubborn E h)
  then MkProcess (p_target p) false (p_signalled p)
  else p.

(** [p.join(timeout=1)]: returns once the child has exited or the timeout
    has passed; a child that was told to terminate and is not stubborn
    exits within the timeout. *)
Definition join (h : handle) : M unit := fun s =>
  let s1 := emit (EvJoin h) s in
  if raises E OpJoin h then Raise ValueError s1
  else Ok tt (with_table (alter (reap h) h (table s1)) s1).

(** ** terminate_all *)

Definition terminate_all : M unit :=
  set_flag ;;
  let! ps := gets processes in
  for_each ps (fun p =>
    try_except_Exception
      (let! alive := is_alive p in
       if alive then terminate p else ret tt)) ;;
  let! ps := gets processes in
  for_each ps (fun p => try_except_Exception (join p)).

(** [signal_handler(sig, frame)] *)
Definition signal_handler : M unit :=
  terminate_all ;; raise (SystemExit 0).

(** [signal.signal(signal.SIGINT, signal_handler)], and the same for
    SIGTERM: a step of the controller at which the interpreter runs the
    handler if the signal has arrived.  The handler's [SystemExit] is
    raised at that step. *)
Definition check_signals : M unit := fun s =>
  match signal_at E with
  | Some (logged, held) =>
      if (logged =? length (log s))%nat && (held =? length (processes s))%nat
      then signal_handler s
      else Ok tt s
  | None => Ok tt s
  end.

(** [any(p.is_alive() for p in processes)] *)
Fixpoint any_alive_in (l : list handle) : M bool :=
  match l with
  | [] => ret false
  | h :: l' => let! alive := is_alive h in
               if alive then ret true else any_alive_in l'
  end.
Definition any_alive : M bool := let! ps := gets processes in any_alive_in ps.

(** ** Process control helpers *)

(** [p = multiprocessing.Process(target=t, ...)] followed by [p.start()].
    The OS grants [proc_limit E] processes; beyond that [start()] raises
    and no process exists.  The child's start-up code is taken to have run
    when [start()] returns. *)
Definition start_process (t : target) : M handle := fun s =>
  if (proc_limit E <=? length (table s))%nat then Raise OSError s
  else
    let h := length (table s) in
    let p := MkProcess t (Worker.survives_startup (mem_limit E) t) false in
    Ok h (emit (EvStart h t) (with_table (table s ++ [p]) s)).

Definition spawn_cpu_worker (use_busy : bool) (load_percent : Z) : M handle :=
  if use_busy || (load_percent =? 100)
  then start_process TargetBusy
  else start_process (TargetThrottle load_percent).

Definition spawn_mem_worker (size_mb : Z) : M handle :=
  start_process (TargetMemory size_mb).

(** [processes.append(p)] *)
Definition append_process (p : handle) : M unit :=
  modify (fun s => with_processes (processes s ++ [p]) s).

(** ** Main ramp logic *)

(** [time.sleep(0.1)] in the controller: one slice passes, and the flag is
    set by then if the outside stop has arrived. *)
Definition tick (s : state) : state :=
  let c := S (clock s) in
  let s1 := with_clock c (emit EvSleep s) in
  match stop_tick E with
  | Some t => if (t <=? c)%nat then with_flag true s1 else s1
  | None => s1
  end.

Definition sleep_slice : M unit := modify tick.

(** [while slept < speed and not terminate_flag.is_set(): ...] *)
Fixpoint wait_loop (fuel : nat) (slept : float) (speed : Z) : M unit :=
  match fuel with
  | O => diverge
  | S fuel' =>
      let! stop := is_set in
      if float_lt_int slept speed && negb stop then
        sleep_slice ;;
        check_signals ;;
        wait_loop fuel' (slept + tenth)%float speed
      else ret tt
  end.

(** The body of [for i in range(count)]; a signal can find a process
    started and its handle not yet appended. *)
Definition spawn_pair (mem_mb : Z) (use_busy : bool) (load_percent : Z) : M unit :=
  let! p_cpu := spawn_cpu_worker use_busy load_percent in
  check_signals ;;
  append_process p_cpu ;;
  check_signals ;;
  let! p_mem := spawn_mem_worker mem_mb in
  check_signals ;;
  append_process p_mem ;;
  check_signals.

(** [while count <= pc_amount and not terminate_flag.is_set(): ...] *)
Fixpoint ramp_loop (fuel : nat) (pc_amount speed mem_mb : Z)
    (use_busy dry_run : bool) (load_percent : Z) (count : Z) : M unit :=
  match fuel with
  | O => diverge
  | S fuel' =>
      let! stop := is_set in
      if (count <=? pc_amount) && negb stop then
        modify (emit (EvWave count)) ;;
        check_signals ;;
        (if dry_run then ret tt
         else repeat_n (Z.to_nat count) (spawn_pair mem_mb use_busy load_percent)) ;;
        wait_loop fuel 0%float speed ;;
        ramp_loop fuel' pc_amount speed mem_mb use_busy dry_run load_percent
                  (count * 2)
      else ret tt
  end.

(** [start_ramp]; the cosmetic [area] is dropped. *)
Definition start_ramp (fuel : nat) (pc_amount speed mem_mb : Z)
    (use_busy dry_run : bool) (load_percent : Z) : M unit :=
  modify (with_console true) ;;
  try_finally
    (try_except_KeyboardInterrupt
       (ramp_loop fuel pc_amount speed mem_mb use_busy dry_run load_percent 1))
    (modify (with_console false)).

(** The 'q' branch of [main_menu]; [yn] is the answer to the prompt. *)
Definition menu_quit (yn : bool) : M unit :=
  let! alive := any_alive in
  if alive then (if yn then terminate_all else ret tt) else ret tt.

End Controller.

(** ** Vocabulary of the statements *)

(** [slept] after [n] more passes of the wait loop. *)
Fixpoint slept_from (slept : float) (n : nat) : float :=
  match n with
  | O => slept
  | S n' => (slept_from slept n' + tenth)%float
  end.

(** The guard [slept < speed] holds at each of the first [n] checks. *)
Definition keeps_waiting (speed : Z) (slept : float) (n : nat) : bool :=
  forallb (fun i => float_lt_int (slept_from slept i) speed) (seq 0 n).

(** Left alone, the wait that starts at [slept] lasts exactly [n] slices. *)
Definition wait_lasts (speed : Z) (slept : float) (n : nat) : bool :=
  keeps_waiting speed slept n
  && negb (float_lt_int (slept_from slept n) speed).

(** Whether the outside stop has arrived by the end of slice [c]. *)
Definition stop_by (E : env) (c : nat) : bool :=
  match stop_tick E with
  | Some t => (t <=? c)%nat
  | None => false
  end.

(** The state [d] slices of sleep later. *)
Definition after_sleeps (E : env) (s : state) (d : nat) : state :=
  MkState (terminate_flag s
           || match d with O => false | S _ => stop_by E (clock s + d) end)
          (processes s) (table s) (clock s + d) (console s)
          (log s ++ repeat EvSleep d).

(** The registry holds every process that was ever started, once each,
    in the order of creation. *)
Definition tracked (s : state) : Prop :=
  processes s = seq 0 (length (table s)).

(** The target [spawn_cpu_worker] picks. *)
Definition cpu_target (use_busy : bool) (load_percent : Z) : target :=
  if use_busy || (load_percent =? 100) then TargetBusy
  else TargetThrottle load_percent.

(** A process as [start()] leaves it. *)
Definition born (E : env) (t : target) : process :=
  MkProcess t (Worker.survives_startup (mem_limit E) t) false.

(** The targets of [n] passes of the spawn loop. *)
Fixpoint pair_targets (n : nat) (cpu mem : target) : list target :=
  match n with
  | O => []
  | S n' => cpu :: mem :: pair_targets n' cpu mem
  end.

(** The starts logged for [ts], the first handle being [h]. *)
Fixpoint start_events (h : handle) (ts : list target) : list event :=
  match ts with
  | [] => []
  | t :: ts' => EvStart h t :: start_events (S h) ts'
  end.

(** The state once the processes [ts] have been started and appended. *)
Definition after_starts (E : env) (s : state) (ts : list target) : state :=
  MkState (terminate_flag s)
          (processes s ++ seq (length (table s)) (length ts))
          (table s ++ map (born E) ts)
          (clock s) (console s)
          (log s ++ start_events (length (table s)) ts).

Definition is_memory_target (t : target) : bool :=
  match t with
  | TargetMemory _ => true
  | _ => false
  end.

Definition is_cpu_target (t : target) : bool := negb (is_memory_target t).

(** Reading the waves off a log: each "RAMP STEP" with its count, and the
    numbers of CPU and of memory workers started before the next one. *)
Fixpoint starts_before_next_wave (f : target -> bool) (l : list event) : nat :=
  match l with
  | [] => 0
  | EvWave _ :: _ => 0
  | EvStart _ t :: l' =>
      ((if f t then 1 else 0) + starts_before_next_wave f l')%nat
  | _ :: l' => starts_before_next_wave f l'
  end.

Fixpoint wave_sizes (l : list event) : list (Z * nat * nat) :=
  match l with
  | [] => []
  | EvWave c :: l' =>
      (c, starts_before_next_wave is_cpu_target l',
          starts_before_next_wave is_memory_target l') :: wave_sizes l'
  | _ :: l' => wave_sizes l'
  end.

(** [c, 2c, 4c, ...], [m] of them. *)
Fixpoint doubling (c : Z) (m : nat) : list Z :=
  match m with
  | O => []
  | S m' => c :: doubling (c * 2) m'
  end.

(** The calls the rest of the program makes into the controller. *)
Inductive action : Type :=
| CallStartRamp (fuel : nat) (pc_amount speed mem_mb : Z)
                (use_busy dry_run : bool) (load_percent : Z)
| CallTerminateAll
| CallSignalHandler
| CallMenuQuit (yn : bool).

Definition run_action (E : env) (a : action) : M unit :=
  match a with
  | CallStartRamp fuel pc_amount speed mem_mb use_busy dry_run load_percent =>
      start_ramp E fuel pc_amount speed mem_mb use_busy dry_run load_percent
  | CallTerminateAll => terminate_all E
  | CallSignalHandler => signal_handler E
  | CallMenuQuit yn => menu_quit E yn
  end.

(** One call that comes back, normally or with an exception. *)
Definition step (E : env) (s s' : state) : Prop :=
  exists a, match run_action E a s with
            | Ok _ x | Raise _ x => x = s'
            | Diverge => False
            end.

(** The targets one wave starts. *)
Definition wave_targets (mem_mb : Z) (use_busy dry_run : bool)
    (load_percent : Z) (count : Z) : list target :=
  if dry_run then []
  else pair_targets (Z.to_nat count) (cpu_target use_busy load_percent)
                    (TargetMemory mem_mb).

(** The state at the end of a wave that nothing interrupts: the wave is
    announced, its processes are started, [n] slices are slept. *)
Definition wave_end (E : env) (s : state) (ts : list target) (count : Z)
    (n : nat) : state :=
  after_sleeps E (after_starts E (emit (EvWave count) s) ts) n.

(** The state a call leaves, and the events it added to the log. *)
Definition state_of {A} (r : result A) (s0 : state) : state :=
  match r with
  | Ok _ s | Raise _ s => s
  | Diverge => s0
  end.

Definition new_events (s s' : state) : list event :=
  drop (length (log s)) (log s').

Section Vocabulary.

Context (E : env).

(** The handles on which [p.is_alive()] answers [True]. *)
Definition alive_now (s : state) (h : handle) : bool :=
  negb (raises E OpIsAlive h) &&
  match table s !! h with
  | Some p => p_running p
  | None => false
  end.

(** One pass of the first loop of [terminate_all], as a state change. *)
Definition request_step (s : state) (h : handle) : state :=
  if alive_now s h then
    let s1 := emit (EvTerminate h) s in
    if raises E OpTerminate h then s1
    else with_table (alter deliver h (table s1)) s1
  else s.

(** One pass of the second loop. *)
Definition join_step (s : state) (h : handle) : state :=
  let s1 := emit (EvJoin h) s in
  if raises E OpJoin h then s1
  else with_table (alter (reap E h) h (table s1)) s1.

(** The state [terminate_all] leaves. *)
Definition after_terminate_all (s : state) : state :=
  foldl join_step
        (foldl request_step (with_flag true s) (processes s))
        (processes s).

(** Whether the first loop delivers a request to [k], and whether the
    second loop waits on it. *)
Definition requested (l : list handle) (k : handle) : bool :=
  bool_decide (k ∈ l) && negb (raises E OpIsAlive k) && negb (raises E OpTerminate k).

Definition waited (l : list handle) (k : handle) : bool :=
  bool_decide (k ∈ l) && negb (raises E OpJoin k).

(** A process after [terminate_all], from the process before it. *)
Definition settle (l : list handle) (k : handle) (p : process) : process :=
  (if waited l k then reap E k else id)
    ((if requested l k then deliver else id) p).

(** A handle whose operations do not raise and whose worker honours a
    termination request within the join timeout. *)
Definition cooperative (k : handle) : bool :=
  negb (raises E OpIsAlive k) && negb (raises E OpTerminate k)
  && negb (raises E OpJoin k) && negb (stubborn E k).

End Vocabulary.

(** ** The menu and the program entry

    [input()] is scripted: [answers k] is the outcome of its k-th call, a
    line or an exception ([EOFError], which [exn] does not list, behaves
    as any exception that [except Exception] catches).  [strip_lower]
    stands for Python's [str.strip().lower()], [strip] for [str.strip()]
    and [parse_int] for [int()] on a string. *)

Section Menu.

Context (E : env).
Context (strip_lower : String.string -> String.string).
Context (answers : nat -> exn + String.string).

(** [input(...)], the k-th call; a signal that arrives at the prompt
    runs the handler there. *)
Definition input (k : nat) : M String.string :=
  check_signals E ;;
  fun s => match answers k with
           | inl e => Raise e s
           | inr line => Ok line s
           end.

(** [time.sleep(0.4)]: four slices pass at once, without a check between
    them; the flag is set by then if the outside stop has arrived. *)
Definition pause (slices : nat) : M unit :=
  modify (fun s =>
    with_flag (terminate_flag s || stop_by E (clock s + slices))
              (with_clock (clock s + slices) s)).

(** [main_menu]: the [while True] loop, [k] being the number of calls of
    [input()] made so far; [ramp_fuel] is the fuel of each [start_ramp]. *)
Fixpoint main_menu (fuel : nat) (ramp_fuel : nat) (k : nat) : M unit :=
  match fuel with
  | O => diverge
  | S fuel' =>
      let! raw := input k in
      let choice := strip_lower raw in
      if String.eqb choice "s"%string then
        start_ramp E ramp_fuel DEFAULT_PC_AMOUNT DEFAULT_SPEED DEFAULT_MEM_MB
                   DEFAULT_USE_BUSY_LOOP false 98 ;;
        input (S k) ;;
        main_menu fuel' ramp_fuel (S (S k))
      else if String.eqb choice "q"%string then
        let! alive := any_alive E in
        if alive then
          let! raw := input (S k) in
          if String.eqb (strip_lower raw) "y"%string then terminate_all E else ret tt
        else ret tt
      else
        pause 4 ;;
        main_menu fuel' ramp_fuel (S k)
  end.

(** [if __name__ == "__main__": try: main_menu() / except
    KeyboardInterrupt: signal_handler(None, None)] *)
Definition program (fuel : nat) (ramp_fuel : nat) : M unit := fun s =>
  match main_menu fuel ramp_fuel 0 s with
  | Raise KeyboardInterrupt s' => signal_handler E s'
  | r => r
  end.

End Menu.

(** [prompt_int(prompt, default)] on the outcome [answer] of its call of
    [input()]; [default] is an int, so [int(default)] is [default]. *)
Definition prompt_int (strip : String.string -> String.string)
    (parse_int : String.string -> exn + Z)
    (answer : exn + String.string) (default : Z) : M Z := fun s =>
  let body :=
    match answer with
    | inl e => inl e
    | inr raw =>
        let val := strip raw in
        if String.eqb val ""%string then inr default else parse_int val
    end in
  match body with
  | inr z => Ok z s
  | inl e => if is_Exception e then Ok default s else Raise e s
  end.

(** ** More vocabulary *)

(** The events [start_ramp] logs: waves, starts and sleeps. *)
Definition is_ramp_event (e : event) : bool :=
  match e with
  | EvTerminate _ | EvJoin _ => false
  | _ => true
  end.

(** [s'] comes from [s] by starting the processes [ts], in that order,
    and by logging and sleeping: nothing else has changed but the flag. *)
Definition grows_by (E : env) (s s' : state) (ts : list target) : Prop :=
  processes s' = processes s ++ seq (length (table s)) (length ts) /\
  table s' = table s ++ map (born E) ts /\
  console s' = console s /\
  (clock s <= clock s')%nat /\
  exists evs, log s' = log s ++ evs /\ forallb is_ramp_event evs = true.

(** The signal handler runs in state [s]. *)
Definition caught (E : env) (s : state) : Prop :=
  signal_at E = Some (length (log s), length (processes s)).

(** [p.start()] has returned for a process of target [t]; its handle is
    not in the registry yet. *)
Definition started (E : env) (s : state) (t : target) : state :=
  emit (EvStart (length (table s)) t) (with_table (table s ++ [born E t]) s).

(** As [grows_by], the last of the processes [ts] being started and its
    handle missing from the registry. *)
Definition grows_short (E : env) (s s' : state) (ts : list target) : Prop :=
  exists ts0 t s0,
    ts = ts0 ++ [t] /\ grows_by E s s0 ts0 /\ s' = started E s0 t.

(** The signal handler ended the run [r], after the processes [ts] were
    started from [s] and their handles appended, the last one possibly
    not. *)
Definition interrupted (E : env) (s : state) (ts : list target)
    (r : result unit) : Prop :=
  exists s1,
    caught E s1 /\ r = Raise (SystemExit 0) (after_terminate_all E s1) /\
    (s1 = after_starts E s ts
     \/ exists ts0 t, ts = ts0 ++ [t] /\ s1 = started E (after_starts E s ts0) t).

(** The registry holds the processes in the order of creation, and
    misses at most the one started last. *)
Definition nearly_tracked (s : state) : Prop :=
  processes s = seq 0 (length (processes s)) /\
  (length (processes s) <= length (table s) <= S (length (processes s)))%nat.

(** The outcomes of the wave loop and of [start_ramp], [cpu] and [mem]
    being the two targets of a spawn pass.  A normal return has started
    whole pairs (none in a dry run).  An exception has started whole pairs
    and at most the CPU worker of the next one; it is the [OSError] of a
    start the OS refused, the flag being unset; or it is the [SystemExit]
    of the signal handler, which ran [terminate_all] in the state [s1] the
    signal found, where the handle of the last process started may be
    missing from the registry. *)
Definition ramp_shape (E : env) (dry_run : bool) (cpu mem : target)
    (s : state) (r : result unit) : Prop :=
  match r with
  | Ok _ s' =>
      exists k, grows_by E s s' (pair_targets k cpu mem)
                /\ (dry_run = true -> k = 0%nat)
  | Raise e s' =>
      exists k extra,
        (extra = [] \/ extra = [cpu]) /\
        (dry_run = true -> k = 0%nat /\ extra = []) /\
        ((e = OSError /\ dry_run = false /\ terminate_flag s' = false /\
          (proc_limit E <= length (table s'))%nat /\
          grows_by E s s' (pair_targets k cpu mem ++ extra))
         \/
         (e = SystemExit 0 /\
          exists s1,
            caught E s1 /\ s' = after_terminate_all E s1 /\
            (grows_by E s s1 (pair_targets k cpu mem ++ extra)
             \/ grows_short E s s1 (pair_targets k cpu mem ++ extra))))
  | Diverge => True
  end.

(** The flag is first seen set at the worker's check number [k]. *)
Definition first_seen (W : Worker.wenv) (k : nat) : Prop :=
  Worker.flag_seen W k = true /\
  forall j, (j < k)%nat -> Worker.flag_seen W j = false.

(** Every process is one the menu's fixed settings can start. *)
Definition default_workers (s : state) : Prop :=
  Forall (fun p => p_target p = TargetBusy
                   \/ p_target p = TargetMemory DEFAULT_MEM_MB)
         (table s).

(** What the menu keeps true of the controller's state. *)
Definition menu_invariant (s : state) : Prop := tracked s /\ default_workers s.

(** ** Worked inputs *)

(** An OS that grants everything, with nobody interrupting. *)
Definition quiet_env : env :=
  MkEnv 100 (2 ^ 30) None (fun _ => false) (fun _ _ => false).


(** Children that cannot allocate anything. *)
Definition starved_env : env :=
  MkEnv 100 0 None (fun _ => false) (fun _ _ => false).

(** The flag is set from outside during the fifth slice. *)
Definition interrupted_env : env :=
  MkEnv 100 (2 ^ 30) (Some (SetsFlag 5)) (fun _ => false) (fun _ _ => false).

(** A signal arrives in the first wave, right after the first process
    has been started: its handle is not yet in the registry. *)
Definition signalled_env : env :=
  MkEnv 100 (2 ^ 30) (Some (Signal 2 0)) (fun _ => false) (fun _ _ => false).

(** A signal arrives during the third slice of a dry run's first wait. *)
Definition signalled_in_wait_env : env :=
  MkEnv 100 (2 ^ 30) (Some (Signal 4 0)) (fun _ => false) (fun _ _ => false).

(** A clock read every 30 milliseconds. *)
Definition coarse_clock (c : nat) : float :=
  (PrimFloat.of_uint63 (Uint63.of_Z (Z.of_nat c)) * 0x1.eb851eb851eb8p-6)%float.

(** A child that sees the flag set at its third check. *)
Definition short_run : Worker.wenv :=
  Worker.MkWEnv (fun k => (2 <=? k)%nat) coarse_clock.

(** A child that never sees the flag set. *)
Definition endless_run : Worker.wenv :=
  Worker.MkWEnv (fun _ => false) coarse_clock.

(** A session at the menu: start, Enter, quit, yes; then end of input. *)
Definition session (k : nat) : exn + String.string :=
  nth k [inr "s"%string; inr ""%string; inr "q"%string; inr "y"%string]
      (inl ValueError).

(** A session that starts and then quits without consenting. *)
Definition session_no (k : nat) : exn + String.string :=
  nth k [inr "s"%string; inr ""%string; inr "q"%string; inr "n"%string]
      (inl ValueError).

(** Lines that are typed already stripped and in lower case. *)
Definition typed_clean (line : String.string) : String.string := line.

(** One wave of the default workers, without a wait, from the start. *)
Definition one_wave (E : env) : state :=
  state_of (start_ramp E 3 1 0 DEFAULT_MEM_MB DEFAULT_USE_BUSY_LOOP false 98
                       initial_state)
           initial_state.

(** * Properties *)

(** ** The state after a call *)

Lemma new_events_app s s' l : log s' = log s ++ l -> new_events s s' = l.
Proof.
  intros H. unfold new_events. rewrite H. apply drop_app_length.
Qed.

Lemma bind_ok {A B} (c : M A) (k : A -> M B) s a s' :
  c s = Ok a s' -> bind c k s = k a s'.
Proof. intros H. unfold bind. rewrite H. reflexivity. Qed.

Lemma for_each_pure {A} (f : state -> A -> state) (body : A -> M unit) l :
  (forall x s, body x s = Ok tt (f s x)) ->
  forall s, for_each l body s = Ok tt (foldl f s l).
Proof.
  intros Hbody. induction l as [|x l IH]; intros s; simpl.
  - reflexivity.
  - unfold bind. rewrite Hbody. apply IH.
Qed.

Section TerminateAll.

Context (E : env).

(** The environment is fixed throughout this section. *)
Local Abbreviation alive_now := (alive_now E).
Local Abbreviation request_step := (request_step E).
Local Abbreviation join_step := (join_step E).
Local Abbreviation after_terminate_all := (after_terminate_all E).
Local Abbreviation requested := (requested E).
Local Abbreviation waited := (waited E).
Local Abbreviation settle := (settle E).
Local Abbreviation cooperative := (cooperative E).

Lemma is_alive_true s h :
  is_alive E h s = Ok true s <-> alive_now s h = true.
Proof.
  unfold is_alive, alive_now.
  destruct (raises E OpIsAlive h); simpl; [split; discriminate|].
  destruct (table s !! h) as [p|]; [|split; discriminate].
  destruct (p_running p); split; congruence.
Qed.

Lemma request_body_eq h s :
  try_except_Exception
    (let! alive := is_alive E h in if alive then terminate E h else ret tt)%py s
  = Ok tt (request_step s h).
Proof.
  unfold try_except_Exception, bind, request_step, alive_now, is_alive.
  destruct (raises E OpIsAlive h); simpl; [reflexivity|].
  destruct (table s !! h) as [p|]; simpl; [|reflexivity].
  destruct (p_running p); simpl; [|reflexivity].
  unfold terminate. destruct (raises E OpTerminate h); reflexivity.
Qed.

Lemma join_body_eq h s :
  try_except_Exception (join E h) s = Ok tt (join_step s h).
Proof.
  unfold try_except_Exception, join, join_step.
  destruct (raises E OpJoin h); reflexivity.
Qed.

Lemma request_steps_processes l : forall s,
  processes (foldl request_step s l) = processes s.
Proof.
  induction l as [|h l IH]; intros s; simpl; [reflexivity|].
  rewrite IH. unfold request_step.
  destruct (alive_now s h); [|reflexivity].
  destruct (raises E OpTerminate h); reflexivity.
Qed.

Lemma terminate_all_eq s :
  terminate_all E s = Ok tt (after_terminate_all s).
Proof.
  unfold terminate_all, after_terminate_all.
  rewrite (bind_ok _ _ s tt (with_flag true s)) by reflexivity.
  rewrite (bind_ok _ _ _ (processes s) (with_flag true s)) by reflexivity.
  erewrite bind_ok by (apply (for_each_pure request_step), request_body_eq).
  erewrite bind_ok by reflexivity.
  rewrite request_steps_processes. simpl.
  apply (for_each_pure join_step), join_body_eq.
Qed.

(** *** What the two loops leave unchanged *)

Lemma request_step_frame s h :
  terminate_flag (request_step s h) = terminate_flag s /\
  processes (request_step s h) = processes s /\
  clock (request_step s h) = clock s /\
  console (request_step s h) = console s.
Proof.
  unfold request_step. destruct (alive_now s h); [|tauto].
  destruct (raises E OpTerminate h); simpl; tauto.
Qed.

Lemma join_step_frame s h :
  terminate_flag (join_step s h) = terminate_flag s /\
  processes (join_step s h) = processes s /\
  clock (join_step s h) = clock s /\
  console (join_step s h) = console s.
Proof.
  unfold join_step. destruct (raises E OpJoin h); simpl; tauto.
Qed.

Lemma foldl_frame (f : state -> handle -> state) :
  (forall s h, terminate_flag (f s h) = terminate_flag s /\
               processes (f s h) = processes s /\
               clock (f s h) = clock s /\
               console (f s h) = console s) ->
  forall l s, terminate_flag (foldl f s l) = terminate_flag s /\
              processes (foldl f s l) = processes s /\
              clock (foldl f s l) = clock s /\
              console (foldl f s l) = console s.
Proof.
  intros Hf. induction l as [|h l IH]; intros s; simpl; [tauto|].
  destruct (IH (f s h)) as (-> & -> & -> & ->). apply Hf.
Qed.

(** *** The process table after the loops *)

Lemma deliver_running p : p_running (deliver p) = p_running p.
Proof. unfold deliver. destruct (p_running p) eqn:H; simpl; congruence. Qed.

Lemma deliver_idem p : deliver (deliver p) = deliver p.
Proof. unfold deliver. destruct (p_running p) eqn:H; simpl; rewrite ?H; reflexivity. Qed.

Lemma reap_idem h p : reap E h (reap E h p) = reap E h p.
Proof.
  unfold reap.
  destruct (p_running p && p_signalled p && negb (stubborn E h)) eqn:H;
    simpl; rewrite ?H; reflexivity.
Qed.

Lemma request_step_table s h k :
  table (request_step s h) !! k
  = (if requested [h] k then deliver else id) <$> table s !! k.
Proof.
  unfold request_step, requested, alive_now.
  destruct (decide (k = h)) as [->|Hne].
  - rewrite bool_decide_eq_true_2 by (apply list_elem_of_singleton; reflexivity).
    destruct (raises E OpIsAlive h); simpl; [destruct (table s !! h); reflexivity|].
    destruct (table s !! h) as [p|] eqn:Hp; simpl.
    + destruct (p_running p) eqn:Hr.
      * destruct (raises E OpTerminate h); simpl; [rewrite Hp; reflexivity|].
        rewrite list_lookup_alter_eq, Hp. reflexivity.
      * rewrite Hp. simpl.
        destruct (raises E OpTerminate h); simpl; [reflexivity|].
        unfold deliver. rewrite Hr. reflexivity.
    + rewrite Hp. destruct (raises E OpTerminate h); reflexivity.
  - rewrite bool_decide_eq_false_2
      by (rewrite list_elem_of_singleton; exact Hne).
    simpl.
    assert (Hid : id <$> table s !! k = table s !! k)
      by (destruct (table s !! k); reflexivity).
    rewrite Hid.
    destruct (negb (raises E OpIsAlive h) &&
              match table s !! h with Some p => p_running p | None => false end);
      [|reflexivity].
    destruct (raises E OpTerminate h); simpl; [reflexivity|].
    apply list_lookup_alter_ne. congruence.
Qed.

Lemma join_step_table s h k :
  table (join_step s h) !! k
  = (if waited [h] k then reap E k else id) <$> table s !! k.
Proof.
  unfold join_step, waited.
  assert (Hid : id <$> table s !! k = table s !! k)
    by (destruct (table s !! k); reflexivity).
  destruct (decide (k = h)) as [->|Hne].
  - rewrite bool_decide_eq_true_2 by (apply list_elem_of_singleton; reflexivity).
    destruct (raises E OpJoin h); simpl; [exact (eq_sym Hid)|].
    apply list_lookup_alter_eq.
  - rewrite bool_decide_eq_false_2
      by (rewrite list_elem_of_singleton; exact Hne).
    simpl. rewrite Hid.
    destruct (raises E OpJoin h); simpl; [reflexivity|].
    apply list_lookup_alter_ne. congruence.
Qed.

Lemma requested_cons h l k :
  requested (h :: l) k = requested [h] k || requested l k.
Proof.
  unfold requested.
  destruct (raises E OpIsAlive k), (raises E OpTerminate k);
    rewrite ?andb_false_r; simpl; try reflexivity.
  rewrite !andb_true_r.
  apply eq_true_iff_eq. rewrite orb_true_iff, !bool_decide_eq_true.
  rewrite elem_of_cons, list_elem_of_singleton. reflexivity.
Qed.

Lemma waited_cons h l k : waited (h :: l) k = waited [h] k || waited l k.
Proof.
  unfold waited.
  destruct (raises E OpJoin k); rewrite ?andb_false_r; simpl; try reflexivity.
  rewrite !andb_true_r.
  apply eq_true_iff_eq. rewrite orb_true_iff, !bool_decide_eq_true.
  rewrite elem_of_cons, list_elem_of_singleton. reflexivity.
Qed.

Lemma request_steps_table l : forall s k,
  table (foldl request_step s l) !! k
  = (if requested l k then deliver else id) <$> table s !! k.
Proof.
  induction l as [|h l IH]; intros s k; simpl.
  - destruct (table s !! k); reflexivity.
  - rewrite IH, request_step_table, (requested_cons h l k).
    destruct (table s !! k) as [p|]; simpl; [|reflexivity].
    destruct (requested [h] k), (requested l k); simpl;
      rewrite ?deliver_idem; reflexivity.
Qed.

Lemma join_steps_table l : forall s k,
  table (foldl join_step s l) !! k
  = (if waited l k then reap E k else id) <$> table s !! k.
Proof.
  induction l as [|h l IH]; intros s k; simpl.
  - destruct (table s !! k); reflexivity.
  - rewrite IH, join_step_table, (waited_cons h l k).
    destruct (table s !! k) as [p|]; simpl; [|reflexivity].
    destruct (waited [h] k), (waited l k); simpl;
      rewrite ?reap_idem; reflexivity.
Qed.

Lemma terminate_all_table s k :
  table (after_terminate_all s) !! k
  = settle (processes s) k <$> table s !! k.
Proof.
  unfold after_terminate_all.
  rewrite join_steps_table, request_steps_table. simpl.
  destruct (table s !! k); reflexivity.
Qed.

Lemma terminate_all_frame s :
  terminate_flag (after_terminate_all s) = true /\
  processes (after_terminate_all s) = processes s /\
  clock (after_terminate_all s) = clock s /\
  console (after_terminate_all s) = console s.
Proof.
  unfold after_terminate_all.
  destruct (foldl_frame join_step join_step_frame (processes s)
              (foldl request_step (with_flag true s) (processes s)))
    as (-> & -> & -> & ->).
  destruct (foldl_frame request_step request_step_frame (processes s)
              (with_flag true s)) as (-> & -> & -> & ->).
  simpl. tauto.
Qed.

(** *** The requests the loops make *)

Lemma request_step_alive s h k :
  alive_now (request_step s h) k = alive_now s k.
Proof.
  unfold alive_now. rewrite request_step_table.
  destruct (table s !! k) as [p|]; simpl; [|reflexivity].
  destruct (requested [h] k); simpl; rewrite ?deliver_running; reflexivity.
Qed.

Lemma request_steps_log l : forall s,
  log (foldl request_step s l)
  = log s ++ map EvTerminate (List.filter (alive_now s) l).
Proof.
  induction l as [|h l IH]; intros s; simpl.
  - rewrite app_nil_r. reflexivity.
  - rewrite IH.
    rewrite (List.filter_ext _ _ (request_step_alive s h)).
    unfold request_step at 1.
    destruct (alive_now s h); simpl; [|reflexivity].
    destruct (raises E OpTerminate h); simpl; rewrite <- app_assoc; reflexivity.
Qed.

Lemma join_steps_log l : forall s,
  log (foldl join_step s l) = log s ++ map EvJoin l.
Proof.
  induction l as [|h l IH]; intros s; simpl.
  - rewrite app_nil_r. reflexivity.
  - rewrite IH. unfold join_step.
    destruct (raises E OpJoin h); simpl; rewrite <- app_assoc; reflexivity.
Qed.

Lemma terminate_all_log s :
  log (after_terminate_all s)
  = log s ++ map EvTerminate (List.filter (alive_now s) (processes s))
          ++ map EvJoin (processes s).
Proof.
  unfold after_terminate_all.
  rewrite join_steps_log, request_steps_log, <- app_assoc. reflexivity.
Qed.

(** *** Liveness after the call *)

Lemma settle_dead l k p : p_running p = false -> settle l k p = p.
Proof.
  intros H. unfold settle, deliver, reap.
  destruct (requested l k), (waited l k); simpl; rewrite ?H; simpl;
    rewrite ?H; reflexivity.
Qed.

Lemma settle_idem l k p : settle l k (settle l k p) = settle l k p.
Proof.
  unfold settle, deliver, reap.
  destruct (requested l k), (waited l k), p as [t [|] [|]], (stubborn E k);
    reflexivity.
Qed.

Lemma settle_gone l k p :
  k ∈ l -> cooperative k = true -> p_running (settle l k p) = false.
Proof.
  unfold cooperative. intros Hin Hc.
  apply andb_prop in Hc as [Hc Hs]. apply andb_prop in Hc as [Hc Hj].
  apply andb_prop in Hc as [Ha Ht].
  unfold settle, requested, waited.
  rewrite bool_decide_eq_true_2 by exact Hin.
  rewrite Ha, Ht, Hj. simpl. unfold deliver, reap. rewrite Hs.
  destruct p as [t [|] [|]]; reflexivity.
Qed.

Lemma is_alive_after s k p :
  table s !! k = Some p -> raises E OpIsAlive k = false ->
  is_alive E k (after_terminate_all s)
  = Ok (p_running (settle (processes s) k p)) (after_terminate_all s).
Proof.
  intros Hp Hr. unfold is_alive. rewrite Hr, terminate_all_table, Hp.
  reflexivity.
Qed.

Lemma any_alive_in_false l s :
  (forall h, h ∈ l -> is_alive E h s = Ok false s) ->
  any_alive_in E l s = Ok false s.
Proof.
  induction l as [|h l IH]; intros H; simpl; [reflexivity|].
  unfold bind. rewrite (H h) by (left; reflexivity).
  apply IH. intros k Hk. apply H. right. exact Hk.
Qed.

End TerminateAll.

(** ** terminate_all: what it requests and what it leaves behind *)

Lemma terminate_all_table_fixed E s :
  (forall k p, k ∈ processes s -> table s !! k = Some p -> p_running p = false) ->
  table (after_terminate_all E s) = table s.
Proof.
  intros Hdead. apply list_eq. intros k. rewrite terminate_all_table.
  destruct (table s !! k) as [p|] eqn:Hp; simpl; [|reflexivity].
  f_equal. destruct (decide (k ∈ processes s)) as [Hin|Hout].
  - apply settle_dead. eapply Hdead; eassumption.
  - unfold settle, requested, waited.
    rewrite bool_decide_eq_false_2 by exact Hout. reflexivity.
Qed.

Lemma terminate_all_twice_table E s :
  table (after_terminate_all E (after_terminate_all E s))
  = table (after_terminate_all E s).
Proof.
  apply list_eq. intros k.
  rewrite (terminate_all_table E (after_terminate_all E s)).
  destruct (terminate_all_frame E s) as (_ & -> & _).
  rewrite terminate_all_table.
  destruct (table s !! k) as [p|]; simpl; [|reflexivity].
  rewrite settle_idem. reflexivity.
Qed.

Lemma elem_of_map_terminate h l : EvTerminate h ∈ map EvTerminate l <-> h ∈ l.
Proof.
  rewrite !list_elem_of_In, in_map_iff. split.
  - intros (x & Hx & Hin). congruence.
  - intros Hin. exists h. auto.
Qed.

Lemma not_terminate_in_joins h l : EvTerminate h ∉ map EvJoin l.
Proof.
  rewrite list_elem_of_In, in_map_iff. intros (x & Hx & _). discriminate.
Qed.

Lemma terminate_requested_iff E s h :
  EvTerminate h ∈ new_events s (after_terminate_all E s)
  <-> h ∈ processes s /\ is_alive E h s = Ok true s.
Proof.
  rewrite (new_events_app _ _ _ (terminate_all_log E s)).
  rewrite elem_of_app, elem_of_map_terminate, is_alive_true.
  rewrite list_elem_of_In, filter_In, <- list_elem_of_In.
  split; [intros [H|H]; [exact H|]|tauto].
  exfalso. exact (not_terminate_in_joins _ _ H).
Qed.

Lemma join_requested E s h :
  h ∈ processes s -> EvJoin h ∈ new_events s (after_terminate_all E s).
Proof.
  intros Hin. rewrite (new_events_app _ _ _ (terminate_all_log E s)).
  apply elem_of_app. right.
  apply list_elem_of_In, in_map, list_elem_of_In, Hin.
Qed.

Lemma cooperative_gone E s h p :
  h ∈ processes s -> table s !! h = Some p -> cooperative E h = true ->
  is_alive E h (after_terminate_all E s) = Ok false (after_terminate_all E s).
Proof.
  intros Hin Hp Hc.
  rewrite (is_alive_after E s h p Hp).
  - rewrite settle_gone by assumption. reflexivity.
  - unfold cooperative in Hc.
    destruct (raises E OpIsAlive h); [discriminate|reflexivity].
Qed.

(** C1 (amended): [terminate_all] always returns; it has then waited on
    every tracked handle, has sent a termination request to exactly the
    tracked handles whose liveness check answered true, and [is_alive]
    answers false for every tracked handle that has exited and whose
    [is_alive] does not raise: each one that had exited before the call
    (whatever its other operations do), and each one whose operations do
    not raise and whose worker honours the request within the join
    timeout.  [any_alive] answers false as soon as [is_alive] answers
    false for every tracked handle, so whenever each of them is of one of
    these two kinds. *)
Theorem terminate_all_reaps (E : env) (s : state) :
  let s' := after_terminate_all E s in
  terminate_all E s = Ok tt s' /\
  terminate_flag s' = true /\
  (forall h, h ∈ processes s -> EvJoin h ∈ new_events s s') /\
  (forall h, EvTerminate h ∈ new_events s s'
             <-> h ∈ processes s /\ is_alive E h s = Ok true s) /\
  (forall h p, h ∈ processes s -> table s !! h = Some p ->
               cooperative E h = true -> is_alive E h s' = Ok false s') /\
  (forall h p, table s !! h = Some p -> p_running p = false ->
               raises E OpIsAlive h = false -> is_alive E h s' = Ok false s') /\
  ((forall h, h ∈ processes s -> is_alive E h s' = Ok false s') ->
   any_alive E s' = Ok false s') /\
  ((forall h, h ∈ processes s ->
      exists p, table s !! h = Some p /\
                raises E OpIsAlive h = false /\
                (p_running p = false \/ cooperative E h = true)) ->
   any_alive E s' = Ok false s').
Proof.
  intros s'. subst s'.
  split; [apply terminate_all_eq|].
  split; [apply terminate_all_frame|].
  split; [intros h; apply join_requested|].
  split; [intros h; apply terminate_requested_iff|].
  split; [apply cooperative_gone|].
  assert (Hdead : forall h p, table s !! h = Some p -> p_running p = false ->
            raises E OpIsAlive h = false ->
            is_alive E h (after_terminate_all E s)
            = Ok false (after_terminate_all E s)).
  { intros h p Hp Hdead Hr.
    rewrite (is_alive_after E s h p Hp Hr), settle_dead by exact Hdead.
    rewrite Hdead. reflexivity. }
  assert (Hany : (forall h, h ∈ processes s ->
                    is_alive E h (after_terminate_all E s)
                    = Ok false (after_terminate_all E s)) ->
                 any_alive E (after_terminate_all E s)
                 = Ok false (after_terminate_all E s)).
  { intros Hall. unfold any_alive.
    erewrite bind_ok by reflexivity.
    apply any_alive_in_false. intros h Hin.
    destruct (terminate_all_frame E s) as (_ & Hps & _).
    rewrite Hps in Hin. apply Hall, Hin. }
  split; [exact Hdead|]. split; [exact Hany|].
  intros Hall. apply Hany. intros h Hin.
  destruct (Hall h Hin) as (p & Hp & Hr & [Hgone|Hcoop]).
  - eapply Hdead; eassumption.
  - eapply cooperative_gone; eassumption.
Qed.

(** C3: a second [terminate_all] in succession returns without error,
    sends a termination request only to handles whose liveness check
    answers true at that moment (so to none that the first call reaped),
    and leaves the flag, the registry and every process as the first call
    left them; on an empty registry the call only sets the flag, and on a
    registry whose workers have all exited it requests no termination and
    changes no process. *)
Theorem terminate_all_idempotent (E : env) (s : state) :
  let s1 := after_terminate_all E s in
  let s2 := after_terminate_all E s1 in
  terminate_all E s = Ok tt s1 /\
  terminate_all E s1 = Ok tt s2 /\
  (terminate_flag s2 = terminate_flag s1 /\ processes s2 = processes s1 /\
   table s2 = table s1 /\ clock s2 = clock s1 /\ console s2 = console s1) /\
  (forall h, EvTerminate h ∈ new_events s1 s2 ->
             h ∈ processes s /\ is_alive E h s1 = Ok true s1) /\
  (forall h p, table s1 !! h = Some p -> p_running p = false ->
               EvTerminate h ∉ new_events s1 s2) /\
  (processes s = [] -> s1 = with_flag true s) /\
  ((forall k p, k ∈ processes s -> table s !! k = Some p -> p_running p = false) ->
   table s1 = table s /\ new_events s s1 = map EvJoin (processes s)).
Proof.
  intros s1 s2. subst s1 s2.
  destruct (terminate_all_frame E s) as (Hf1 & Hp1 & Hc1 & Hk1).
  destruct (terminate_all_frame E (after_terminate_all E s))
    as (Hf2 & Hp2 & Hc2 & Hk2).
  split; [apply terminate_all_eq|].
  split; [apply terminate_all_eq|].
  split.
  { rewrite Hf1, Hf2, Hp2, Hc2, Hk2.
    repeat split; try reflexivity. apply terminate_all_twice_table. }
  split.
  { intros h Hh. apply terminate_requested_iff in Hh. rewrite Hp1 in Hh. exact Hh. }
  split.
  { intros h p Hp Hdead Hh. apply terminate_requested_iff in Hh as [_ Hh].
    apply is_alive_true in Hh. unfold alive_now in Hh. rewrite Hp, Hdead in Hh.
    rewrite andb_false_r in Hh. discriminate. }
  split.
  { intros Hnil. unfold after_terminate_all. rewrite Hnil. reflexivity. }
  intros Hdead. split; [apply terminate_all_table_fixed, Hdead|].
  rewrite (new_events_app _ _ _ (terminate_all_log E s)).
  assert (Hnone : List.filter (alive_now E s) (processes s) = []).
  { rewrite (List.filter_ext_in (alive_now E s) (fun _ => false));
      [apply List.filter_false|].
    intros h Hin. apply list_elem_of_In in Hin. unfold alive_now.
    destruct (table s !! h) as [p|] eqn:Hp; [|apply andb_false_r].
    rewrite (Hdead h p Hin Hp). apply andb_false_r. }
  rewrite Hnone. reflexivity.
Qed.

(** ** Signals *)

Section Signals.

Context (E : env).

Lemma stop_tick_no_signal t : stop_tick E = Some t -> signal_at E = None.
Proof.
  unfold stop_tick, signal_at.
  destruct (outside E) as [[t'|n m]|]; [reflexivity|discriminate|reflexivity].
Qed.


Lemma check_signals_quiet s : signal_at E = None -> check_signals E s = Ok tt s.
Proof. unfold check_signals. intros ->. reflexivity. Qed.

(** A step either passes, or the handler runs there: the teardown, then
    [SystemExit]. *)
Lemma check_signals_cases s :
  check_signals E s = Ok tt s
  \/ (caught E s
      /\ check_signals E s = Raise (SystemExit 0) (after_terminate_all E s)).
Proof.
  unfold check_signals, caught.
  destruct (signal_at E) as [[n m]|]; [|left; reflexivity].
  destruct (n =? length (log s))%nat eqn:Hn;
    [destruct (m =? length (processes s))%nat eqn:Hm|];
    simpl; try (left; reflexivity).
  right. apply Nat.eqb_eq in Hn, Hm. subst n m. split; [reflexivity|].
  unfold signal_handler, bind. rewrite terminate_all_eq. reflexivity.
Qed.

Lemma caught_signal s : caught E s -> signal_at E <> None.
Proof. unfold caught. intros ->. discriminate. Qed.

Lemma after_terminate_all_console b s :
  with_console b (after_terminate_all E s)
  = after_terminate_all E (with_console b s).
Proof.
  unfold after_terminate_all.
  change (processes (with_console b s)) with (processes s).
  assert (Hreq : forall l x,
            with_console b (foldl (request_step E) x l)
            = foldl (request_step E) (with_console b x) l).
  { induction l as [|h l IH]; intros x; simpl; [reflexivity|].
    rewrite IH. f_equal. unfold request_step, alive_now. simpl.
    destruct (negb (raises E OpIsAlive h) &&
              match table x !! h with Some p => p_running p | None => false end);
      [|reflexivity].
    destruct (raises E OpTerminate h); reflexivity. }
  assert (Hjoin : forall l x,
            with_console b (foldl (join_step E) x l)
            = foldl (join_step E) (with_console b x) l).
  { induction l as [|h l IH]; intros x; simpl; [reflexivity|].
    rewrite IH. f_equal. unfold join_step. simpl.
    destruct (raises E OpJoin h); reflexivity. }
  rewrite Hjoin, Hreq. reflexivity.
Qed.

End Signals.

(** ** The between-wave wait *)

Section Wait.

Context (E : env).

(** No signal arrives. *)
Hypothesis Hnosig : signal_at E = None.

Lemma tick_eq s :
  tick E s = MkState (terminate_flag s || stop_by E (S (clock s)))
                     (processes s) (table s) (S (clock s)) (console s)
                     (log s ++ [EvSleep]).
Proof.
  unfold tick, stop_by. destruct (stop_tick E) as [t|].
  - destruct (t <=? S (clock s))%nat; simpl.
    + rewrite orb_true_r. reflexivity.
    + rewrite orb_false_r. reflexivity.
  - simpl. rewrite orb_false_r. reflexivity.
Qed.

Lemma stop_by_mono c c' : (c <= c')%nat -> stop_by E c = true -> stop_by E c' = true.
Proof.
  unfold stop_by. destruct (stop_tick E) as [t|]; [|discriminate].
  intros Hle H. apply Nat.leb_le in H. apply Nat.leb_le. lia.
Qed.

Lemma after_sleeps_0 s : after_sleeps E s 0 = s.
Proof.
  destruct s. unfold after_sleeps. simpl.
  rewrite orb_false_r, Nat.add_0_r, app_nil_r. reflexivity.
Qed.

Lemma after_sleeps_S s d : tick E (after_sleeps E s d) = after_sleeps E s (S d).
Proof.
  rewrite tick_eq. unfold after_sleeps. simpl.
  f_equal.
  - rewrite <- orb_assoc. f_equal.
    replace (S (clock s + d)) with (clock s + S d)%nat by lia.
    destruct d as [|d]; [reflexivity|].
    destruct (stop_by E (clock s + S d)) eqn:H; [|reflexivity].
    simpl. symmetry. eapply stop_by_mono; [|exact H]. lia.
  - lia.
  - rewrite <- app_assoc. f_equal. symmetry. apply repeat_cons.
Qed.

(** With the flag set, the loop makes its check and returns: no sleep. *)
Lemma wait_loop_flag_set fuel slept speed s :
  terminate_flag s = true -> wait_loop E (S fuel) slept speed s = Ok tt s.
Proof.
  intros H. simpl. unfold bind, is_set, gets. rewrite H, andb_false_r.
  reflexivity.
Qed.

(** With the interval used up, likewise. *)
Lemma wait_loop_elapsed fuel slept speed s :
  float_lt_int slept speed = false ->
  wait_loop E (S fuel) slept speed s = Ok tt s.
Proof.
  intros H. simpl. unfold bind, is_set, gets. rewrite H. reflexivity.
Qed.

Lemma wait_loop_step fuel slept speed s :
  float_lt_int slept speed = true -> terminate_flag s = false ->
  wait_loop E (S fuel) slept speed s
  = wait_loop E fuel (slept + tenth)%float speed (tick E s).
Proof.
  intros Hg Hf. simpl. unfold bind, is_set, gets, sleep_slice, modify.
  rewrite Hg, Hf. simpl. rewrite check_signals_quiet by exact Hnosig.
  reflexivity.
Qed.

Lemma keeps_waiting_at speed slept n i :
  keeps_waiting speed slept n = true -> (i < n)%nat ->
  float_lt_int (slept_from slept i) speed = true.
Proof.
  unfold keeps_waiting. rewrite forallb_forall. intros H Hi.
  apply (H i). apply in_seq. lia.
Qed.

Lemma keeps_waiting_le speed slept n m :
  keeps_waiting speed slept n = true -> (m <= n)%nat ->
  keeps_waiting speed slept m = true.
Proof.
  unfold keeps_waiting. rewrite !forallb_forall. intros H Hm i Hi.
  apply H. apply in_seq. apply in_seq in Hi. lia.
Qed.

(** [d] passes of the loop, as long as the guard holds and the flag is
    not seen set. *)
Lemma wait_loop_passes speed slept s d : forall fuel,
  keeps_waiting speed slept d = true ->
  (forall i, (i < d)%nat -> terminate_flag (after_sleeps E s i) = false) ->
  wait_loop E (d + fuel) slept speed s
  = wait_loop E fuel (slept_from slept d) speed (after_sleeps E s d).
Proof.
  induction d as [|d IH]; intros fuel Hk Hf.
  - simpl. rewrite after_sleeps_0. reflexivity.
  - replace (S d + fuel)%nat with (d + S fuel)%nat by lia.
    rewrite IH.
    + rewrite wait_loop_step.
      * rewrite after_sleeps_S. reflexivity.
      * eapply keeps_waiting_at; [exact Hk|lia].
      * apply Hf. lia.
    + eapply keeps_waiting_le; [exact Hk|lia].
    + intros i Hi. apply Hf. lia.
Qed.

Lemma after_sleeps_flag s d :
  terminate_flag s = false ->
  terminate_flag (after_sleeps E s d)
  = match d with O => false | S _ => stop_by E (clock s + d) end.
Proof. intros H. unfold after_sleeps. simpl. rewrite H. reflexivity. Qed.

(** The wait nobody interrupts. *)
Lemma wait_loop_uninterrupted speed slept s n fuel :
  wait_lasts speed slept n = true ->
  terminate_flag s = false ->
  stop_by E (clock s + n) = false ->
  (n < fuel)%nat ->
  wait_loop E fuel slept speed s = Ok tt (after_sleeps E s n)
  /\ terminate_flag (after_sleeps E s n) = false.
Proof.
  intros Hw Hf Hstop Hfuel.
  apply andb_prop in Hw as [Hk Hend]. apply negb_true_iff in Hend.
  assert (Hquiet : forall i, (i <= n)%nat ->
            terminate_flag (after_sleeps E s i) = false).
  { intros i Hi. rewrite after_sleeps_flag by exact Hf.
    destruct i as [|i]; [reflexivity|].
    destruct (stop_by E (clock s + S i)) eqn:H; [|reflexivity].
    rewrite (stop_by_mono (clock s + S i) (clock s + n)) in Hstop;
      [discriminate|lia|exact H]. }
  split; [|apply Hquiet; lia].
  replace fuel with (n + S (fuel - S n))%nat by lia.
  rewrite wait_loop_passes by (try exact Hk; intros; apply Hquiet; lia).
  apply wait_loop_elapsed, Hend.
Qed.

End Wait.

(** C8: when the outside stop arrives during slice [t] of the wait -- the
    loop started at clock [c < t] with the flag unset, and the interval
    alone would have kept it waiting through those [t - c] slices -- the
    loop returns right after that slice: it has slept exactly [t - c]
    times, the last sleep being the one during which the flag was set, and
    the flag is set on return; no later wait sleeps at all. *)
Theorem wait_loop_stops_within_one_slice
    (E : env) (fuel : nat) (slept : float) (speed : Z) (s : state) (t : nat) :
  terminate_flag s = false ->
  stop_tick E = Some t ->
  (clock s < t)%nat ->
  keeps_waiting speed slept (t - clock s) = true ->
  (t - clock s < fuel)%nat ->
  let s' := after_sleeps E s (t - clock s) in
  wait_loop E fuel slept speed s = Ok tt s' /\
  terminate_flag s' = true /\
  clock s' = t /\
  new_events s s' = repeat EvSleep (t - clock s) /\
  (forall fuel' slept' speed',
      wait_loop E (S fuel') slept' speed' s' = Ok tt s').
Proof.
  intros Hf Ht Hc Hk Hfuel s'. subst s'.
  set (d := (t - clock s)%nat) in *.
  assert (Hset : terminate_flag (after_sleeps E s d) = true).
  { rewrite after_sleeps_flag by exact Hf.
    destruct d as [|d'] eqn:Hd; [lia|].
    unfold stop_by. rewrite Ht. apply Nat.leb_le. lia. }
  split.
  - replace fuel with (d + S (fuel - S d))%nat by lia.
    rewrite wait_loop_passes.
    + apply wait_loop_flag_set, Hset.
    + eapply stop_tick_no_signal, Ht.
    + exact Hk.
    + intros i Hi. rewrite after_sleeps_flag by exact Hf.
      destruct i as [|i]; [reflexivity|].
      unfold stop_by. rewrite Ht. apply Nat.leb_gt. lia.
  - split; [exact Hset|].
    split; [simpl; lia|].
    split; [apply new_events_app; reflexivity|].
    intros fuel' slept' speed'. apply wait_loop_flag_set, Hset.
Qed.

(** ** Spawning *)

Section Spawn.

Context (E : env).

Lemma after_starts_nil s : after_starts E s [] = s.
Proof.
  destruct s. unfold after_starts. simpl. rewrite !app_nil_r. reflexivity.
Qed.

Lemma start_events_app h ts1 ts2 :
  start_events h (ts1 ++ ts2)
  = start_events h ts1 ++ start_events (h + length ts1) ts2.
Proof.
  revert h. induction ts1 as [|t ts1 IH]; intros h; simpl.
  - rewrite Nat.add_0_r. reflexivity.
  - rewrite IH.
    replace (S h + length ts1)%nat with (h + S (length ts1))%nat by lia.
    reflexivity.
Qed.

Lemma after_starts_app s ts1 ts2 :
  after_starts E (after_starts E s ts1) ts2 = after_starts E s (ts1 ++ ts2).
Proof.
  unfold after_starts. simpl.
  rewrite !length_app, !length_map, map_app, start_events_app, seq_app.
  rewrite <- !app_assoc. reflexivity.
Qed.

Lemma spawn_cpu_worker_eq use_busy load_percent :
  spawn_cpu_worker E use_busy load_percent
  = start_process E (cpu_target use_busy load_percent).
Proof.
  unfold spawn_cpu_worker, cpu_target.
  destruct (use_busy || (load_percent =? 100)); reflexivity.
Qed.

Lemma start_process_eq t s :
  (length (table s) < proc_limit E)%nat ->
  start_process E t s = Ok (length (table s)) (started E s t).
Proof.
  intros Hroom. unfold start_process.
  replace (proc_limit E <=? length (table s))%nat with false
    by (symmetry; apply Nat.leb_gt; exact Hroom).
  reflexivity.
Qed.

Lemma start_refused t s :
  (proc_limit E <= length (table s))%nat ->
  start_process E t s = Raise OSError s.
Proof.
  intros Hfull. unfold start_process.
  apply Nat.leb_le in Hfull. rewrite Hfull. reflexivity.
Qed.

(** One start and its append, with the two steps that follow them. *)
Local Abbreviation spawn_one t :=
  (let! p := start_process E t in
   check_signals E ;; append_process p ;; check_signals E)%py.

(** What one start and its append come to: a refusal; or both done; or
    the signal caught between the two; or the signal caught after the
    append. *)
Lemma spawn_one_cases t s :
  ((proc_limit E <= length (table s))%nat /\ spawn_one t s = Raise OSError s)
  \/ ((length (table s) < proc_limit E)%nat /\
      (spawn_one t s = Ok tt (after_starts E s [t])
       \/ (caught E (started E s t)
           /\ spawn_one t s
              = Raise (SystemExit 0) (after_terminate_all E (started E s t)))
       \/ (caught E (after_starts E s [t])
           /\ spawn_one t s
              = Raise (SystemExit 0)
                      (after_terminate_all E (after_starts E s [t]))))).
Proof.
  destruct (Nat.le_gt_cases (proc_limit E) (length (table s))) as [Hfull|Hroom].
  - left. split; [exact Hfull|].
    unfold bind. rewrite start_refused by exact Hfull. reflexivity.
  - right. split; [exact Hroom|].
    assert (Hbody : spawn_one t s
                    = match check_signals E (started E s t) with
                      | Ok _ _ => check_signals E (after_starts E s [t])
                      | Raise e x => Raise e x
                      | Diverge => Diverge
                      end).
    { unfold bind. rewrite start_process_eq by exact Hroom. cbv beta iota.
      destruct (check_signals_cases E (started E s t)) as [H1|[_ H1]];
        rewrite H1; [|reflexivity].
      unfold append_process, modify. cbv beta iota.
      destruct (check_signals E _) as [[] x|e x|]; reflexivity. }
    rewrite Hbody.
    destruct (check_signals_cases E (started E s t)) as [H1|[Hc1 H1]];
      rewrite H1; [|right; left; split; [exact Hc1|reflexivity]].
    destruct (check_signals_cases E (after_starts E s [t])) as [H2|[Hc2 H2]];
      rewrite H2; [left; reflexivity|].
    right. right. split; [exact Hc2|reflexivity].
Qed.

Lemma spawn_pair_split mem_mb use_busy load_percent s :
  spawn_pair E mem_mb use_busy load_percent s
  = (spawn_one (cpu_target use_busy load_percent) ;;
     spawn_one (TargetMemory mem_mb))%py s.
Proof.
  unfold spawn_pair, spawn_mem_worker. rewrite spawn_cpu_worker_eq.
  unfold bind.
  destruct (start_process E (cpu_target use_busy load_percent) s)
    as [h s1|e s1|]; [|reflexivity|reflexivity].
  destruct (check_signals E s1) as [[] s2|e s2|]; [|reflexivity|reflexivity].
  destruct (append_process h s2) as [[] s3|e s3|]; [|reflexivity|reflexivity].
  destruct (check_signals E s3) as [[] s4|e s4|]; reflexivity.
Qed.

Lemma interrupted_shift s ts1 ts r :
  interrupted E (after_starts E s ts1) ts r -> interrupted E s (ts1 ++ ts) r.
Proof.
  intros (s1 & Hc & Hr & [Hs|(ts0 & t & Hts & Hs)]); exists s1;
    (split; [exact Hc|]); (split; [exact Hr|]).
  - left. rewrite Hs. apply after_starts_app.
  - right. exists (ts1 ++ ts0), t. rewrite Hts, Hs, after_starts_app, app_assoc.
    split; reflexivity.
Qed.

(** One pass of the spawn loop: both started; or a refusal, or the
    signal, with what was started before it. *)
Lemma spawn_pair_cases mem_mb use_busy load_percent s :
  let cpu := cpu_target use_busy load_percent in
  let mem := TargetMemory mem_mb in
  let r := spawn_pair E mem_mb use_busy load_percent s in
  r = Ok tt (after_starts E s [cpu; mem])
  \/ exists k extra,
       (extra = [] \/ extra = [cpu]) /\
       ((r = Raise OSError (after_starts E s (pair_targets k cpu mem ++ extra))
         /\ (proc_limit E
             <= length (table (after_starts E s
                                 (pair_targets k cpu mem ++ extra))))%nat)
        \/ interrupted E s (pair_targets k cpu mem ++ extra) r).
Proof.
  intros cpu mem r.
  assert (Hsplit : r = (spawn_one cpu ;; spawn_one mem)%py s)
    by apply spawn_pair_split.
  assert (Hfirst : forall x, spawn_one cpu s = x ->
            r = match x with
                | Ok _ s' => spawn_one mem s'
                | Raise e s' => Raise e s'
                | Diverge => Diverge
                end).
  { intros x <-. rewrite Hsplit. reflexivity. }
  clearbody r.
  destruct (spawn_one_cases cpu s) as [[Hfull H]|[Hroom [H|[[Hc H]|[Hc H]]]]];
    rewrite (Hfirst _ H).
  - right. exists 0%nat, []. split; [left; reflexivity|]. left.
    cbn [pair_targets app]. rewrite after_starts_nil.
    split; [reflexivity|exact Hfull].
  - destruct (spawn_one_cases mem (after_starts E s [cpu]))
      as [[Hfull2 H2]|[Hroom2 [H2|[[Hc2 H2]|[Hc2 H2]]]]]; rewrite H2.
    + right. exists 0%nat, [cpu]. split; [right; reflexivity|]. left.
      split; [reflexivity|exact Hfull2].
    + left. rewrite after_starts_app. reflexivity.
    + right. exists 1%nat, []. split; [left; reflexivity|]. right.
      exists (started E (after_starts E s [cpu]) mem).
      split; [exact Hc2|]. split; [reflexivity|]. right.
      exists [cpu], mem. split; reflexivity.
    + right. exists 1%nat, []. split; [left; reflexivity|]. right.
      exists (after_starts E (after_starts E s [cpu]) [mem]).
      split; [exact Hc2|]. split; [reflexivity|]. left.
      rewrite after_starts_app. reflexivity.
  - right. exists 0%nat, [cpu]. split; [right; reflexivity|]. right.
    exists (started E s cpu). split; [exact Hc|]. split; [reflexivity|].
    right. exists [], cpu. rewrite after_starts_nil. split; reflexivity.
  - right. exists 0%nat, [cpu]. split; [right; reflexivity|]. right.
    exists (after_starts E s [cpu]). split; [exact Hc|].
    split; [reflexivity|]. left. reflexivity.
Qed.

(** The whole spawn loop of a wave. *)
Lemma spawn_loop_cases mem_mb use_busy load_percent n : forall s,
  let cpu := cpu_target use_busy load_percent in
  let mem := TargetMemory mem_mb in
  let r := repeat_n n (spawn_pair E mem_mb use_busy load_percent) s in
  r = Ok tt (after_starts E s (pair_targets n cpu mem))
  \/ exists k extra,
       (extra = [] \/ extra = [cpu]) /\
       ((r = Raise OSError (after_starts E s (pair_targets k cpu mem ++ extra))
         /\ (proc_limit E
             <= length (table (after_starts E s
                                 (pair_targets k cpu mem ++ extra))))%nat)
        \/ interrupted E s (pair_targets k cpu mem ++ extra) r).
Proof.
  intros s cpu mem. revert s.
  induction n as [|n IH]; intros s; cbv zeta; simpl.
  - left. rewrite after_starts_nil. reflexivity.
  - unfold bind.
    destruct (spawn_pair_cases mem_mb use_busy load_percent s)
      as [H|(k & extra & Hx & [[H Hfull]|(s1 & Hc & H & Hs1)])];
      cbv zeta in H; fold cpu mem in H; rewrite H.
    + destruct (IH (after_starts E s [cpu; mem]))
        as [H2|(k & extra & Hx & [[H2 Hfull]|Hint])]; cbv zeta in *.
      * left. rewrite H2, after_starts_app. reflexivity.
      * right. exists (S k), extra. split; [exact Hx|]. left.
        rewrite H2. rewrite after_starts_app in *.
        split; [reflexivity|exact Hfull].
      * right. exists (S k), extra. split; [exact Hx|]. right.
        apply (interrupted_shift s [cpu; mem]). exact Hint.
    + right. exists k, extra. split; [exact Hx|]. left.
      split; [reflexivity|exact Hfull].
    + right. exists k, extra. split; [exact Hx|]. right.
      exists s1. split; [exact Hc|]. split; [reflexivity|exact Hs1].
Qed.

Lemma pair_targets_length n cpu mem : length (pair_targets n cpu mem) = (2 * n)%nat.
Proof. induction n as [|n IH]; simpl; [reflexivity|]. rewrite IH. lia. Qed.

(** *** When no signal arrives *)

Section Quiet.

Hypothesis Hnosig : signal_at E = None.

Lemma start_and_append t s :
  (length (table s) < proc_limit E)%nat ->
  spawn_one t s = Ok tt (after_starts E s [t]).
Proof.
  intros Hroom.
  destruct (spawn_one_cases t s) as [[Hfull _]|[_ [H|[[Hc _]|[Hc _]]]]];
    [lia|exact H| |]; apply caught_signal in Hc; contradiction.
Qed.

Lemma start_and_append_refused t s :
  (proc_limit E <= length (table s))%nat ->
  spawn_one t s = Raise OSError s.
Proof.
  intros Hfull. unfold bind. rewrite start_refused by exact Hfull. reflexivity.
Qed.

(** One pass of the spawn loop: both started, or the failure leaves what
    was started before it. *)
Lemma spawn_pair_outcome mem_mb use_busy load_percent s :
  let cpu := cpu_target use_busy load_percent in
  let mem := TargetMemory mem_mb in
  spawn_pair E mem_mb use_busy load_percent s =
    if (length (table s) + 2 <=? proc_limit E)%nat
    then Ok tt (after_starts E s [cpu; mem])
    else if (length (table s) + 1 <=? proc_limit E)%nat
         then Raise OSError (after_starts E s [cpu])
         else Raise OSError s.
Proof.
  intros cpu mem. rewrite spawn_pair_split. fold cpu. fold mem.
  destruct (length (table s) + 2 <=? proc_limit E)%nat eqn:H2;
    [|destruct (length (table s) + 1 <=? proc_limit E)%nat eqn:H1].
  - apply Nat.leb_le in H2.
    erewrite bind_ok by (apply start_and_append; lia).
    rewrite start_and_append, after_starts_app; [reflexivity|].
    simpl. rewrite length_app. simpl. lia.
  - apply Nat.leb_gt in H2. apply Nat.leb_le in H1.
    erewrite bind_ok by (apply start_and_append; lia).
    apply start_and_append_refused.
    simpl. rewrite length_app. simpl. lia.
  - apply Nat.leb_gt in H1.
    unfold bind at 1. rewrite start_and_append_refused by lia. reflexivity.
Qed.

(** With room for all of them, the loop starts [n] pairs. *)
Lemma spawn_loop_ok mem_mb use_busy load_percent n : forall s,
  (length (table s) + 2 * n <= proc_limit E)%nat ->
  repeat_n n (spawn_pair E mem_mb use_busy load_percent) s
  = Ok tt (after_starts E s
             (pair_targets n (cpu_target use_busy load_percent)
                           (TargetMemory mem_mb))).
Proof.
  induction n as [|n IH]; intros s Hroom; simpl.
  - rewrite after_starts_nil. reflexivity.
  - unfold bind. rewrite spawn_pair_outcome.
    destruct (length (table s) + 2 <=? proc_limit E)%nat eqn:H2.
    + rewrite IH, after_starts_app; [reflexivity|].
      simpl. rewrite length_app. simpl. lia.
    + apply Nat.leb_gt in H2. lia.
Qed.

End Quiet.

End Spawn.

(** ** The ramp *)

Section Ramp.

Context (E : env).

Lemma after_sleeps_add s a b :
  after_sleeps E (after_sleeps E s a) b = after_sleeps E s (a + b).
Proof.
  induction b as [|b IH].
  - rewrite after_sleeps_0, Nat.add_0_r. reflexivity.
  - rewrite <- after_sleeps_S, IH, after_sleeps_S. f_equal. lia.
Qed.

Lemma after_sleeps_tick s d :
  after_sleeps E (tick E s) d = after_sleeps E s (S d).
Proof.
  rewrite <- (after_sleeps_0 E s) at 1.
  rewrite after_sleeps_S, after_sleeps_add. reflexivity.
Qed.

(** The wait runs out of fuel, returns after some number of slices, or
    is left by the signal handler's [SystemExit] after a sleep. *)
Lemma wait_loop_cases fuel : forall slept speed s,
  wait_loop E fuel slept speed s = Diverge
  \/ (exists d, wait_loop E fuel slept speed s = Ok tt (after_sleeps E s d))
  \/ (exists d,
        caught E (after_sleeps E s d)
        /\ wait_loop E fuel slept speed s
           = Raise (SystemExit 0) (after_terminate_all E (after_sleeps E s d))).
Proof.
  induction fuel as [|fuel IH]; intros slept speed s; [left; reflexivity|].
  assert (Hstep : wait_loop E (S fuel) slept speed s
                  = if float_lt_int slept speed && negb (terminate_flag s)
                    then match check_signals E (tick E s) with
                         | Ok _ s' => wait_loop E fuel (slept + tenth)%float speed s'
                         | Raise e x => Raise e x
                         | Diverge => Diverge
                         end
                    else Ok tt s).
  { simpl. unfold bind, is_set, gets, sleep_slice, modify.
    destruct (float_lt_int slept speed && negb (terminate_flag s)); reflexivity. }
  rewrite Hstep. clear Hstep.
  destruct (float_lt_int slept speed && negb (terminate_flag s)).
  - destruct (check_signals_cases E (tick E s)) as [H|[Hc H]]; rewrite H.
    + destruct (IH (slept + tenth)%float speed (tick E s))
        as [H2|[[d H2]|[d [Hc2 H2]]]]; rewrite H2.
      * left. reflexivity.
      * right. left. exists (S d). rewrite after_sleeps_tick. reflexivity.
      * right. right. exists (S d). rewrite <- after_sleeps_tick.
        split; [exact Hc2|reflexivity].
    + right. right. exists 1%nat.
      rewrite <- after_sleeps_tick, after_sleeps_0.
      split; [exact Hc|reflexivity].
  - right. left. exists 0%nat. rewrite after_sleeps_0. reflexivity.
Qed.

Lemma grows_by_refl s : grows_by E s s [].
Proof.
  unfold grows_by. simpl. rewrite !app_nil_r.
  repeat split; [lia|]. exists []. rewrite app_nil_r. auto.
Qed.

Lemma grows_by_trans s1 s2 s3 ts1 ts2 :
  grows_by E s1 s2 ts1 -> grows_by E s2 s3 ts2 ->
  grows_by E s1 s3 (ts1 ++ ts2).
Proof.
  intros (Hp1 & Ht1 & Hc1 & Hk1 & ev1 & Hl1 & He1)
         (Hp2 & Ht2 & Hc2 & Hk2 & ev2 & Hl2 & He2).
  unfold grows_by.
  rewrite Hp2, Ht2, Hc2, Hp1, Ht1, Hc1.
  rewrite !length_app, length_map, map_app, seq_app, <- !app_assoc.
  repeat split; [lia|].
  exists (ev1 ++ ev2). rewrite Hl2, Hl1, <- app_assoc, forallb_app, He1, He2.
  auto.
Qed.

Lemma grows_short_trans s1 s2 s3 ts1 ts2 :
  grows_by E s1 s2 ts1 -> grows_short E s2 s3 ts2 ->
  grows_short E s1 s3 (ts1 ++ ts2).
Proof.
  intros H12 (ts0 & t & s0 & -> & H20 & ->).
  exists (ts1 ++ ts0), t, s0. rewrite app_assoc.
  split; [reflexivity|]. split; [|reflexivity].
  eapply grows_by_trans; eassumption.
Qed.

Lemma grows_by_emit_wave s count : grows_by E s (emit (EvWave count) s) [].
Proof.
  unfold grows_by. simpl. rewrite !app_nil_r.
  repeat split; [lia|]. exists [EvWave count]. auto.
Qed.

Lemma start_events_are_ramp_events h ts :
  forallb is_ramp_event (start_events h ts) = true.
Proof. revert h. induction ts as [|t ts IH]; intros h; simpl; auto. Qed.

Lemma grows_by_after_starts s ts : grows_by E s (after_starts E s ts) ts.
Proof.
  unfold grows_by. simpl. repeat split; [lia|].
  eexists. split; [reflexivity|apply start_events_are_ramp_events].
Qed.

Lemma grows_by_after_sleeps s d : grows_by E s (after_sleeps E s d) [].
Proof.
  unfold grows_by. simpl. rewrite !app_nil_r. repeat split; [lia|].
  exists (repeat EvSleep d). split; [reflexivity|].
  induction d as [|d IH]; simpl; auto.
Qed.

Lemma pair_targets_app a b cpu mem :
  pair_targets a cpu mem ++ pair_targets b cpu mem = pair_targets (a + b) cpu mem.
Proof. induction a as [|a IH]; simpl; [reflexivity|]. rewrite IH. reflexivity. Qed.

Lemma ramp_shape_grows dry_run cpu mem s1 s2 k r :
  grows_by E s1 s2 (pair_targets k cpu mem) ->
  (dry_run = true -> k = 0%nat) ->
  ramp_shape E dry_run cpu mem s2 r -> ramp_shape E dry_run cpu mem s1 r.
Proof.
  intros H12 Hdry. destruct r as [[] s'|e s'|]; simpl; [| |tauto].
  - intros (k' & H & Hd). exists (k + k')%nat.
    rewrite <- pair_targets_app. split; [eauto using grows_by_trans|].
    intros Hdr. rewrite (Hdry Hdr), (Hd Hdr). reflexivity.
  - intros (k' & extra & Hx & Hd & Hcase).
    exists (k + k')%nat, extra. split; [exact Hx|].
    split.
    { intros Hdr. destruct (Hd Hdr) as [-> ->]. rewrite (Hdry Hdr). auto. }
    rewrite <- pair_targets_app, <- app_assoc.
    destruct Hcase as [(-> & Hdr & Hf & Hfull & Hg)
                      |(-> & s0 & Hc & -> & [Hg|Hg])].
    + left. split; [reflexivity|]. split; [exact Hdr|]. split; [exact Hf|].
      split; [exact Hfull|]. eauto using grows_by_trans.
    + right. split; [reflexivity|]. exists s0. split; [exact Hc|].
      split; [reflexivity|]. left. eauto using grows_by_trans.
    + right. split; [reflexivity|]. exists s0. split; [exact Hc|].
      split; [reflexivity|]. right. eauto using grows_short_trans.
Qed.

(** The signal caught in a spawn loop, as an outcome of the ramp. *)
Lemma interrupted_shape cpu mem s k extra r :
  (extra = [] \/ extra = [cpu]) ->
  interrupted E s (pair_targets k cpu mem ++ extra) r ->
  ramp_shape E false cpu mem s r.
Proof.
  intros Hx (s1 & Hc & -> & Hs1). simpl.
  exists k, extra. split; [exact Hx|]. split; [discriminate|]. right.
  split; [reflexivity|]. exists s1. split; [exact Hc|].
  split; [reflexivity|].
  destruct Hs1 as [->|(ts0 & t & Hts & ->)].
  - left. apply grows_by_after_starts.
  - right. exists ts0, t, (after_starts E s ts0).
    split; [exact Hts|]. split; [apply grows_by_after_starts|reflexivity].
Qed.

(** The signal caught in a state that started nothing more. *)
Lemma caught_shape dry_run cpu mem s s1 :
  caught E s1 -> grows_by E s s1 [] ->
  ramp_shape E dry_run cpu mem s
             (Raise (SystemExit 0) (after_terminate_all E s1)).
Proof.
  intros Hc Hg. simpl. exists 0%nat, []. split; [left; reflexivity|].
  split; [auto|]. right. split; [reflexivity|]. exists s1.
  split; [exact Hc|]. split; [reflexivity|]. left. exact Hg.
Qed.

Lemma ramp_loop_unfold fuel pc_amount speed mem_mb use_busy dry_run load_percent
      count s :
  ramp_loop E (S fuel) pc_amount speed mem_mb use_busy dry_run load_percent count s
  = if (count <=? pc_amount) && negb (terminate_flag s) then
      (check_signals E ;;
       (if dry_run then ret tt
        else repeat_n (Z.to_nat count)
                      (spawn_pair E mem_mb use_busy load_percent)) ;;
       wait_loop E (S fuel) 0%float speed ;;
       ramp_loop E fuel pc_amount speed mem_mb use_busy dry_run load_percent
                 (count * 2))%py (emit (EvWave count) s)
    else Ok tt s.
Proof.
  simpl. unfold bind at 1. unfold is_set, gets.
  destruct ((count <=? pc_amount) && negb (terminate_flag s)); reflexivity.
Qed.

(** Without a signal, the step after the announcement passes. *)
Lemma ramp_loop_unfold_quiet fuel pc_amount speed mem_mb use_busy dry_run
      load_percent count s :
  signal_at E = None ->
  ramp_loop E (S fuel) pc_amount speed mem_mb use_busy dry_run load_percent count s
  = if (count <=? pc_amount) && negb (terminate_flag s) then
      ((if dry_run then ret tt
        else repeat_n (Z.to_nat count)
                      (spawn_pair E mem_mb use_busy load_percent)) ;;
       wait_loop E (S fuel) 0%float speed ;;
       ramp_loop E fuel pc_amount speed mem_mb use_busy dry_run load_percent
                 (count * 2))%py (emit (EvWave count) s)
    else Ok tt s.
Proof.
  intros Hnosig. rewrite ramp_loop_unfold.
  destruct ((count <=? pc_amount) && negb (terminate_flag s)); [|reflexivity].
  unfold bind at 1. rewrite check_signals_quiet by exact Hnosig. reflexivity.
Qed.

(** What any run of the wave loop comes to. *)
Lemma ramp_loop_shape fuel pc_amount speed mem_mb use_busy dry_run load_percent :
  forall count s,
    ramp_shape E dry_run (cpu_target use_busy load_percent) (TargetMemory mem_mb) s
      (ramp_loop E fuel pc_amount speed mem_mb use_busy dry_run load_percent
                 count s).
Proof.
  set (cpu := cpu_target use_busy load_percent).
  set (mem := TargetMemory mem_mb).
  induction fuel as [|fuel IH]; intros count s; [exact I|].
  rewrite ramp_loop_unfold.
  destruct ((count <=? pc_amount) && negb (terminate_flag s)) eqn:Hguard;
    [|exists 0%nat; split; [apply grows_by_refl|reflexivity]].
  apply andb_prop in Hguard as [_ Hf]. apply negb_true_iff in Hf.
  apply (ramp_shape_grows dry_run cpu mem s (emit (EvWave count) s) 0);
    [apply grows_by_emit_wave|reflexivity|].
  set (s1 := emit (EvWave count) s).
  assert (Hf1 : terminate_flag s1 = false) by exact Hf.
  unfold bind at 1.
  destruct (check_signals_cases E s1) as [H|[Hc H]]; rewrite H;
    [|apply caught_shape; [exact Hc|apply grows_by_refl]].
  destruct dry_run.
  - unfold bind at 1. unfold ret at 1. unfold bind.
    destruct (wait_loop_cases (S fuel) 0%float speed s1)
      as [Hw|[[d Hw]|[d [Hcw Hw]]]]; rewrite Hw; [exact I| |].
    + apply (ramp_shape_grows true cpu mem s1 (after_sleeps E s1 d) 0);
        [apply grows_by_after_sleeps|reflexivity|apply IH].
    + apply caught_shape; [exact Hcw|apply grows_by_after_sleeps].
  - destruct (spawn_loop_cases E mem_mb use_busy load_percent (Z.to_nat count) s1)
      as [Hs|(k & extra & Hx & [[Hs Hfull]|Hint])];
      try (cbv zeta in Hs; fold cpu mem in Hs);
      try (cbv zeta in Hint; fold cpu mem in Hint);
      try (fold cpu mem in Hfull).
    + unfold bind at 1. rewrite Hs.
      set (s2 := after_starts E s1 (pair_targets (Z.to_nat count) cpu mem)).
      apply (ramp_shape_grows false cpu mem s1 s2 (Z.to_nat count));
        [apply grows_by_after_starts|discriminate|].
      unfold bind.
      destruct (wait_loop_cases (S fuel) 0%float speed s2)
        as [Hw|[[d Hw]|[d [Hcw Hw]]]]; rewrite Hw; [exact I| |].
      * apply (ramp_shape_grows false cpu mem s2 (after_sleeps E s2 d) 0);
          [apply grows_by_after_sleeps|discriminate|apply IH].
      * apply caught_shape; [exact Hcw|apply grows_by_after_sleeps].
    + unfold bind at 1. rewrite Hs. simpl.
      exists k, extra. split; [exact Hx|]. split; [discriminate|]. left.
      split; [reflexivity|]. split; [reflexivity|].
      split; [exact Hf1|]. split; [exact Hfull|apply grows_by_after_starts].
    + pose proof Hint as (sx & _ & Hs & _). unfold bind at 1.
      rewrite Hs in Hint |- *.
      eapply interrupted_shape; [exact Hx|exact Hint].
Qed.

(** With the flag set, the wave loop does nothing. *)
Lemma ramp_loop_flag_set fuel pc_amount speed mem_mb use_busy dry_run
      load_percent count s :
  terminate_flag s = true ->
  ramp_loop E (S fuel) pc_amount speed mem_mb use_busy dry_run load_percent count s
  = Ok tt s.
Proof.
  intros H. rewrite ramp_loop_unfold, H, andb_false_r. reflexivity.
Qed.

(** [start_ramp] around the wave loop: the console bit, and nothing else. *)
Lemma start_ramp_eq fuel pc_amount speed mem_mb use_busy dry_run load_percent s :
  start_ramp E fuel pc_amount speed mem_mb use_busy dry_run load_percent s
  = match ramp_loop E fuel pc_amount speed mem_mb use_busy dry_run load_percent 1
                    (with_console true s) with
    | Ok _ s' => Ok tt (with_console false s')
    | Raise KeyboardInterrupt s' => Ok tt (with_console false s')
    | Raise e s' => Raise e (with_console false s')
    | Diverge => Diverge
    end.
Proof.
  unfold start_ramp, try_finally, try_except_KeyboardInterrupt.
  unfold bind at 1. unfold modify at 1.
  destruct (ramp_loop E fuel pc_amount speed mem_mb use_busy dry_run
                      load_percent 1 (with_console true s))
    as [[] s'|[] s'|]; reflexivity.
Qed.

Lemma grows_by_console b s s' ts :
  grows_by E (with_console true s) s' ts ->
  grows_by E (with_console b s) (with_console b s') ts.
Proof.
  intros (Hp & Ht & _ & Hk & Hev). repeat split; assumption.
Qed.

Lemma start_ramp_shape fuel pc_amount speed mem_mb use_busy dry_run load_percent s :
  ramp_shape E dry_run (cpu_target use_busy load_percent) (TargetMemory mem_mb)
    (with_console false s)
    (start_ramp E fuel pc_amount speed mem_mb use_busy dry_run load_percent s).
Proof.
  rewrite start_ramp_eq.
  pose proof (ramp_loop_shape fuel pc_amount speed mem_mb use_busy dry_run
                load_percent 1 (with_console true s)) as H.
  destruct (ramp_loop E fuel pc_amount speed mem_mb use_busy dry_run
              load_percent 1 (with_console true s)) as [[] s'|e s'|];
    simpl in H; [| |exact I].
  - destruct H as (k & Hg & Hd). exists k.
    split; [apply grows_by_console, Hg|exact Hd].
  - destruct H as (k & extra & Hx & Hd & Hcase).
    assert (Hshape : ramp_shape E dry_run (cpu_target use_busy load_percent)
                       (TargetMemory mem_mb) (with_console false s)
                       (Raise e (with_console false s'))).
    { simpl. exists k, extra. split; [exact Hx|]. split; [exact Hd|].
      destruct Hcase as [(-> & Hdr & Hf & Hfull & Hg)
                        |(-> & s1 & Hc & -> & Hg)].
      - left. split; [reflexivity|]. split; [exact Hdr|].
        split; [exact Hf|]. split; [exact Hfull|]. apply grows_by_console, Hg.
      - right. split; [reflexivity|]. exists (with_console false s1).
        split; [exact Hc|]. split; [apply after_terminate_all_console|].
        destruct Hg as [Hg|(ts0 & t & s0 & Hts & Hg & ->)].
        + left. apply grows_by_console, Hg.
        + right. exists ts0, t, (with_console false s0).
          split; [exact Hts|]. split; [apply grows_by_console, Hg|reflexivity]. }
    destruct Hcase as [(-> & _)|(-> & _)]; exact Hshape.
Qed.

End Ramp.

(** ** The registry *)

Section Registry.

Context (E : env).

Lemma grows_by_tracked s s' ts : grows_by E s s' ts -> tracked s -> tracked s'.
Proof.
  intros (Hp & Ht & _) Htr. unfold tracked in *.
  rewrite Hp, Ht, Htr, length_app, length_map, seq_app. reflexivity.
Qed.

Lemma grows_by_prefix s s' ts :
  grows_by E s s' ts -> processes s `prefix_of` processes s'.
Proof. intros (Hp & _). eexists. exact Hp. Qed.

Lemma terminate_all_table_length s :
  length (table (after_terminate_all E s)) = length (table s).
Proof.
  destruct (Nat.lt_trichotomy (length (table (after_terminate_all E s)))
                              (length (table s))) as [H|[H|H]]; [|exact H|].
  - destruct (lookup_lt_is_Some_2 (table s) _ H) as [p Hp].
    pose proof (terminate_all_table E s
                  (length (table (after_terminate_all E s)))) as Hk.
    rewrite Hp in Hk. simpl in Hk. apply lookup_lt_Some in Hk. lia.
  - destruct (lookup_lt_is_Some_2 (table (after_terminate_all E s)) _ H)
      as [p Hp].
    rewrite terminate_all_table in Hp.
    rewrite (lookup_ge_None_2 (table s) (length (table s))) in Hp by lia.
    discriminate.
Qed.

Lemma terminate_all_tracked s : tracked s -> tracked (after_terminate_all E s).
Proof.
  unfold tracked. intros H.
  destruct (terminate_all_frame E s) as (_ & -> & _).
  rewrite terminate_all_table_length. exact H.
Qed.

Lemma terminate_all_nearly_tracked s :
  nearly_tracked s -> nearly_tracked (after_terminate_all E s).
Proof.
  unfold nearly_tracked.
  destruct (terminate_all_frame E s) as (_ & -> & _).
  rewrite terminate_all_table_length. tauto.
Qed.

Lemma tracked_nearly s : tracked s -> nearly_tracked s.
Proof.
  unfold tracked, nearly_tracked. intros H.
  rewrite H at 1. rewrite H, length_seq. split; [reflexivity|lia].
Qed.

(** A process started and not yet appended is the one the registry
    misses. *)
Lemma started_nearly_tracked s t :
  tracked s ->
  nearly_tracked (started E s t)
  /\ length (table (started E s t)) = S (length (processes (started E s t))).
Proof.
  unfold tracked, nearly_tracked, started. simpl. intros H.
  rewrite length_app. simpl.
  rewrite H at 1. rewrite H, length_seq. repeat split; lia.
Qed.

(** What [start_ramp] leaves of the registry, whether it returns or
    raises. *)
Lemma start_ramp_registry fuel pc_amount speed mem_mb use_busy dry_run
      load_percent s :
  tracked s ->
  let r := start_ramp E fuel pc_amount speed mem_mb use_busy dry_run
                      load_percent s in
  processes s `prefix_of` processes (state_of r s) /\
  nearly_tracked (state_of r s) /\
  (tracked (state_of r s)
   \/ (exists x, r = Raise (SystemExit 0) x)
      /\ length (table (state_of r s))
         = S (length (processes (state_of r s)))).
Proof.
  intros Htr r. subst r.
  pose proof (start_ramp_shape E fuel pc_amount speed mem_mb use_busy dry_run
                load_percent s) as H.
  assert (Htr0 : tracked (with_console false s)) by exact Htr.
  destruct (start_ramp E fuel pc_amount speed mem_mb use_busy dry_run
              load_percent s) as [[] x|e x|]; simpl in *.
  - destruct H as (k & Hg & _).
    pose proof (grows_by_tracked _ _ _ Hg Htr0) as Hx.
    split; [apply (grows_by_prefix _ _ _ Hg)|].
    split; [apply tracked_nearly, Hx|left; exact Hx].
  - destruct H as (k & extra & _ & _ & [(-> & _ & _ & _ & Hg)
                                       |(-> & s1 & _ & -> & [Hg|Hg])]).
    + pose proof (grows_by_tracked _ _ _ Hg Htr0) as Hx.
      split; [apply (grows_by_prefix _ _ _ Hg)|].
      split; [apply tracked_nearly, Hx|left; exact Hx].
    + pose proof (grows_by_tracked _ _ _ Hg Htr0) as Hx.
      destruct (terminate_all_frame E s1) as (_ & Hps & _).
      split; [rewrite Hps; apply (grows_by_prefix _ _ _ Hg)|].
      split; [apply tracked_nearly, terminate_all_tracked, Hx|].
      left. apply terminate_all_tracked, Hx.
    + destruct Hg as (ts0 & t & s0 & _ & Hg & ->).
      pose proof (grows_by_tracked _ _ _ Hg Htr0) as Hx.
      destruct (started_nearly_tracked s0 t Hx) as [Hn Hlen].
      destruct (terminate_all_frame E (started E s0 t)) as (_ & Hps & _).
      split; [rewrite Hps; apply (grows_by_prefix _ _ _ Hg)|].
      split; [apply terminate_all_nearly_tracked, Hn|].
      right. split; [eexists; reflexivity|].
      rewrite Hps, terminate_all_table_length. exact Hlen.
  - split; [reflexivity|]. split; [apply tracked_nearly, Htr|left; exact Htr].
Qed.

End Registry.

(** The exceptions that leave [start_ramp]. *)
Lemma start_ramp_raises E fuel pc_amount speed mem_mb use_busy dry_run
      load_percent s e s' :
  start_ramp E fuel pc_amount speed mem_mb use_busy dry_run load_percent s
    = Raise e s' ->
  (e = OSError /\ dry_run = false /\ terminate_flag s' = false
   /\ (proc_limit E <= length (table s'))%nat /\ console s' = false
   /\ exists ts, grows_by E (with_console false s) s' ts)
  \/ (e = SystemExit 0 /\ signal_at E <> None /\ terminate_flag s' = true
      /\ console s' = false).
Proof.
  intros Hr.
  pose proof (start_ramp_shape E fuel pc_amount speed mem_mb use_busy dry_run
                load_percent s) as H.
  rewrite Hr in H. simpl in H.
  destruct H as (k & extra & _ & _ & [(-> & Hdr & Hf & Hfull & Hg)
                                     |(-> & s1 & Hc & -> & Hg)]).
  - left. split; [reflexivity|]. split; [exact Hdr|]. split; [exact Hf|].
    split; [exact Hfull|]. split; [|eexists; exact Hg].
    destruct Hg as (_ & _ & -> & _). reflexivity.
  - right. split; [reflexivity|]. split; [eapply caught_signal, Hc|].
    destruct (terminate_all_frame E s1) as (Hflag & _ & _ & Hcon).
    split; [exact Hflag|]. rewrite Hcon.
    destruct Hg as [(_ & _ & -> & _)|(ts0 & t & s0 & _ & (_ & _ & Hc0 & _) & ->)];
      [reflexivity|exact Hc0].
Qed.

(** C9 (amended): nothing ever removes a handle from the registry, and
    every handle a spawn call returns is appended to it -- unless a signal
    arrives between [p.start()] and [processes.append(p)].  Whether
    [start_ramp] returns or raises, the registry afterwards extends the
    old one, holds the processes in the order of their creation and
    misses at most the one started last; it misses none unless the signal
    handler's [SystemExit] ended the call, so none when no signal
    arrives.  [terminate_all] leaves the registry exactly as it found it:
    the handles of the workers it terminated are still tracked, and
    reported not alive. *)
Theorem registry_only_grows (E : env) (fuel : nat) (pc_amount speed mem_mb : Z)
    (use_busy dry_run : bool) (load_percent : Z) (s : state) :
  tracked s ->
  let r := start_ramp E fuel pc_amount speed mem_mb use_busy dry_run
                      load_percent s in
  let s1 := state_of r s in
  let s2 := after_terminate_all E s1 in
  processes s `prefix_of` processes s1 /\
  nearly_tracked s1 /\
  (tracked s1
   \/ (exists x, r = Raise (SystemExit 0) x)
      /\ length (table s1) = S (length (processes s1))) /\
  (signal_at E = None -> tracked s1) /\
  terminate_all E s1 = Ok tt s2 /\
  processes s2 = processes s1 /\
  (forall h, h ∈ processes s1 -> cooperative E h = true ->
             h ∈ processes s2 /\ is_alive E h s2 = Ok false s2).
Proof.
  intros Htr r s1 s2.
  destruct (start_ramp_registry E fuel pc_amount speed mem_mb use_busy dry_run
              load_percent s Htr) as (Hpre & Hnear & Hcase).
  fold r s1 in Hpre, Hnear, Hcase.
  destruct (terminate_all_frame E s1) as (_ & Hps & _). fold s2 in Hps.
  split; [exact Hpre|]. split; [exact Hnear|]. split; [exact Hcase|].
  split.
  { intros Hnosig. destruct Hcase as [Ht|[[x Hx] _]]; [exact Ht|].
    apply start_ramp_raises in Hx as [(Habs & _)|(_ & Hsig & _)];
      [discriminate|contradiction]. }
  split; [apply terminate_all_eq|]. split; [exact Hps|].
  intros h Hin Hcoop. split; [rewrite Hps; exact Hin|].
  destruct Hnear as [Hseq Hlen]. pose proof Hin as Hlt.
  rewrite Hseq in Hlt. apply elem_of_seq in Hlt.
  destruct (lookup_lt_is_Some_2 (table s1) h ltac:(lia)) as [p Hp].
  eapply cooperative_gone; eassumption.
Qed.


(** ** The stop flag *)

Section Flag.

Context (E : env).

Lemma start_ramp_flag_set fuel pc_amount speed mem_mb use_busy dry_run
      load_percent s :
  terminate_flag s = true ->
  start_ramp E (S fuel) pc_amount speed mem_mb use_busy dry_run load_percent s
  = Ok tt (with_console false s).
Proof.
  intros H. rewrite start_ramp_eq, ramp_loop_flag_set by exact H. reflexivity.
Qed.

Lemma any_alive_in_state l s :
  state_of (any_alive_in E l s) s = s.
Proof.
  induction l as [|h l IH]; simpl; [reflexivity|].
  unfold bind, is_alive.
  destruct (raises E OpIsAlive h); [reflexivity|].
  destruct (table s !! h) as [p|]; [|reflexivity].
  destruct (p_running p); [reflexivity|exact IH].
Qed.

(** No call clears a flag that is set. *)
Lemma run_action_keeps_flag a s :
  terminate_flag s = true ->
  match run_action E a s with
  | Ok _ x | Raise _ x => terminate_flag x = true
  | Diverge => True
  end.
Proof.
  intros Hf. destruct a as [fuel pc speed mem ub dry lp| | |yn]; simpl.
  - destruct fuel as [|fuel]; [rewrite start_ramp_eq; exact I|].
    rewrite start_ramp_flag_set by exact Hf. exact Hf.
  - rewrite terminate_all_eq. apply terminate_all_frame.
  - unfold signal_handler, bind. rewrite terminate_all_eq.
    apply terminate_all_frame.
  - unfold menu_quit.
    pose proof (any_alive_in_state (processes s) s) as Hst.
    unfold bind at 1.
    change (any_alive E s) with (any_alive_in E (processes s) s).
    destruct (any_alive_in E (processes s) s) as [b x|e x|];
      simpl in Hst; subst; [|exact Hf|exact I].
    destruct b; [destruct yn|]; [|exact Hf|exact Hf].
    rewrite terminate_all_eq. apply terminate_all_frame.
Qed.

Lemma later_keeps_flag s s' :
  rtc (step E) s s' -> terminate_flag s = true -> terminate_flag s' = true.
Proof.
  induction 1 as [|s1 s2 s3 [a Ha] _ IH]; intros Hf; [exact Hf|].
  apply IH. pose proof (run_action_keeps_flag a s1 Hf) as H.
  destruct (run_action E a s1) as [[] x|e x|]; [subst; exact H..|contradiction].
Qed.

End Flag.

(** C10: once a shutdown path has run -- [terminate_all], or the signal
    handler, which ends in [SystemExit] -- the flag is set and stays set
    through every later call into the controller, whatever those calls
    are; and any [start_ramp] made then returns at its first loop check,
    having started no process and logged no wave, whatever its
    arguments. *)
Theorem stop_flag_is_monotone (E : env) (s0 s s' : state) :
  terminate_all E s0 = Ok tt s \/ signal_handler E s0 = Raise (SystemExit 0) s ->
  rtc (step E) s s' ->
  terminate_flag s = true /\
  terminate_flag s' = true /\
  forall fuel pc_amount speed mem_mb use_busy dry_run load_percent,
    let x := with_console false s' in
    start_ramp E (S fuel) pc_amount speed mem_mb use_busy dry_run load_percent s'
      = Ok tt x /\
    processes x = processes s' /\ table x = table s' /\ new_events s' x = [] /\
    terminate_flag x = true.
Proof.
  intros Hshut Hlater.
  assert (Hs : terminate_flag s = true).
  { destruct Hshut as [H|H].
    - rewrite terminate_all_eq in H. injection H as <-.
      apply terminate_all_frame.
    - unfold signal_handler, bind in H. rewrite terminate_all_eq in H.
      injection H as <-. apply terminate_all_frame. }
  assert (Hs' : terminate_flag s' = true) by eauto using later_keeps_flag.
  split; [exact Hs|]. split; [exact Hs'|].
  intros fuel pc_amount speed mem_mb use_busy dry_run load_percent x. subst x.
  split; [apply start_ramp_flag_set, Hs'|].
  repeat split; [|exact Hs'].
  apply new_events_app. simpl. rewrite app_nil_r. reflexivity.
Qed.

(** ** The wave sizes *)

Lemma starts_before_next_wave_starts f h ts rest :
  starts_before_next_wave f (start_events h ts ++ rest)
  = (length (List.filter f ts) + starts_before_next_wave f rest)%nat.
Proof.
  revert h. induction ts as [|t ts IH]; intros h; simpl; [reflexivity|].
  rewrite IH. destruct (f t); reflexivity.
Qed.

Lemma starts_before_next_wave_sleeps f n rest :
  starts_before_next_wave f (repeat EvSleep n ++ rest)
  = starts_before_next_wave f rest.
Proof. induction n as [|n IH]; simpl; [reflexivity|exact IH]. Qed.

Lemma wave_sizes_starts h ts rest :
  wave_sizes (start_events h ts ++ rest) = wave_sizes rest.
Proof.
  revert h. induction ts as [|t ts IH]; intros h; simpl; [reflexivity|apply IH].
Qed.

Lemma wave_sizes_sleeps n rest :
  wave_sizes (repeat EvSleep n ++ rest) = wave_sizes rest.
Proof. induction n as [|n IH]; simpl; [reflexivity|exact IH]. Qed.

(** The events of one wave, followed by those of the later waves. *)
Lemma wave_sizes_wave count h ts n rest :
  (forall f, starts_before_next_wave f rest = 0%nat) ->
  wave_sizes (([EvWave count] ++ start_events h ts ++ repeat EvSleep n) ++ rest)
  = (count, length (List.filter is_cpu_target ts),
            length (List.filter is_memory_target ts)) :: wave_sizes rest.
Proof.
  intros Hrest. simpl. rewrite <- !app_assoc.
  rewrite !starts_before_next_wave_starts, !starts_before_next_wave_sleeps, !Hrest.
  rewrite wave_sizes_starts, wave_sizes_sleeps, !Nat.add_0_r. reflexivity.
Qed.

(** A wave starts as many CPU workers as memory workers: its count. *)
Lemma wave_targets_split mem_mb use_busy dry_run load_percent count :
  let ts := wave_targets mem_mb use_busy dry_run load_percent count in
  let k := if dry_run then 0%nat else Z.to_nat count in
  length (List.filter is_cpu_target ts) = k /\
  length (List.filter is_memory_target ts) = k /\
  length ts = (2 * k)%nat.
Proof.
  unfold wave_targets. destruct dry_run; [repeat split|].
  assert (Hcpu : is_memory_target (cpu_target use_busy load_percent) = false)
    by (unfold cpu_target; destruct (use_busy || (load_percent =? 100));
        reflexivity).
  induction (Z.to_nat count) as [|n (IH1 & IH2 & IH3)]; [repeat split|].
  cbn [pair_targets List.filter length]. unfold is_cpu_target at 1 2.
  rewrite Hcpu. cbn [negb is_memory_target length].
  fold (is_cpu_target). rewrite IH1, IH2, IH3. repeat split; lia.
Qed.

Lemma doubling_pow c m :
  doubling c m = map (fun i => c * 2 ^ Z.of_nat i) (seq 0 m).
Proof.
  revert c. induction m as [|m IH]; intros c; [reflexivity|].
  simpl. rewrite IH, <- seq_shift, map_map. f_equal; [lia|].
  apply map_ext. intros i. rewrite Nat2Z.inj_succ, Z.pow_succ_r by lia. lia.
Qed.

Section Waves.

Context (E : env).

(** No signal arrives. *)
Hypothesis Hnosig : signal_at E = None.

Lemma wave_end_log s ts count n :
  log (wave_end E s ts count n)
  = log s ++ [EvWave count] ++ start_events (length (table s)) ts
          ++ repeat EvSleep n.
Proof. unfold wave_end. simpl. rewrite <- !app_assoc. reflexivity. Qed.

(** One wave that nothing interrupts and nothing refuses. *)
Lemma ramp_loop_wave fuel pc_amount speed mem_mb use_busy dry_run load_percent
      count s n :
  let ts := wave_targets mem_mb use_busy dry_run load_percent count in
  count <= pc_amount ->
  terminate_flag s = false ->
  (dry_run = true \/ (length (table s) + length ts <= proc_limit E)%nat) ->
  wait_lasts speed 0%float n = true ->
  stop_by E (clock s + n) = false ->
  (n <= fuel)%nat ->
  ramp_loop E (S fuel) pc_amount speed mem_mb use_busy dry_run load_percent count s
  = ramp_loop E fuel pc_amount speed mem_mb use_busy dry_run load_percent
              (count * 2) (wave_end E s ts count n)
  /\ terminate_flag (wave_end E s ts count n) = false.
Proof.
  intros ts Hc Hf Hroom Hw Hstop Hfuel.
  set (s1 := emit (EvWave count) s).
  assert (Hspawn :
    (if dry_run then ret tt
     else repeat_n (Z.to_nat count) (spawn_pair E mem_mb use_busy load_percent)) s1
    = Ok tt (after_starts E s1 ts)).
  { subst ts. unfold wave_targets in *. destruct dry_run.
    - rewrite after_starts_nil. reflexivity.
    - destruct Hroom as [?|Hroom]; [discriminate|].
      apply spawn_loop_ok; [exact Hnosig|].
      rewrite pair_targets_length in Hroom. exact Hroom. }
  destruct (wait_loop_uninterrupted E Hnosig speed 0%float
              (after_starts E s1 ts) n (S fuel) Hw Hf Hstop ltac:(lia))
    as [Hwait Hquiet].
  split; [|exact Hquiet].
  rewrite ramp_loop_unfold_quiet by exact Hnosig.
  apply Z.leb_le in Hc. rewrite Hc, Hf. simpl andb. cbv iota.
  fold s1. unfold bind at 1. rewrite Hspawn.
  unfold bind at 1. rewrite Hwait. reflexivity.
Qed.



End Waves.


(** ** The workers *)

Section WorkerBodies.

Context (W : Worker.wenv).

(** The spin loop is left at the first reading that is not below the busy
    time. *)
Lemma spin_finds t0 busy j : forall c fuel,
  (forall i, (i < j)%nat ->
     (Worker.time_time W (c + i) - t0 <? busy)%float = true) ->
  (Worker.time_time W (c + j) - t0 <? busy)%float = false ->
  (j < fuel)%nat ->
  Worker.spin W fuel t0 busy c = Some (S (c + j)).
Proof.
  induction j as [|j IH]; intros c fuel Hlt Hge Hfuel;
    (destruct fuel as [|fuel]; [lia|]); simpl.
  - rewrite Nat.add_0_r in Hge. rewrite Hge, Nat.add_0_r. reflexivity.
  - pose proof (Hlt 0%nat ltac:(lia)) as H0. rewrite Nat.add_0_r in H0.
    rewrite H0, (IH (S c) fuel); [f_equal; lia| | |lia].
    + intros i Hi. replace (S c + i)%nat with (c + S i)%nat by lia.
      apply Hlt. lia.
    + replace (S c + j)%nat with (c + S j)%nat by lia. exact Hge.
Qed.

Lemma spin_exit t0 busy fuel : forall c c1,
  Worker.spin W fuel t0 busy c = Some c1 ->
  exists j,
    c1 = S (c + j) /\
    (forall i, (i < j)%nat ->
       (Worker.time_time W (c + i) - t0 <? busy)%float = true) /\
    (Worker.time_time W (c + j) - t0 <? busy)%float = false.
Proof.
  induction fuel as [|fuel IH]; intros c c1; simpl; [discriminate|].
  destruct (Worker.time_time W c - t0 <? busy)%float eqn:Hg.
  - intros H. apply IH in H as (j & -> & Hlt & Hge).
    exists (S j). split; [f_equal; lia|]. split.
    + intros [|i] Hi; [rewrite Nat.add_0_r; exact Hg|].
      replace (c + S i)%nat with (S c + i)%nat by lia. apply Hlt. lia.
    + replace (c + S j)%nat with (S c + j)%nat by lia. exact Hge.
  - intros [= <-]. exists 0%nat. rewrite Nat.add_0_r.
    split; [reflexivity|]. split; [intros i Hi; lia|exact Hg].
Qed.

(** Every run of the loop is a duty cycle, cut or complete. *)
Lemma throttle_loop_duty_cycle busy fuel : forall k c,
  Worker.duty_cycle W busy k c (fst (Worker.throttle_loop W fuel busy k c))
                    (snd (Worker.throttle_loop W fuel busy k c)).
Proof.
  induction fuel as [|fuel IH]; intros k c; simpl; [constructor|].
  destruct (Worker.flag_seen W k) eqn:Hk; [constructor; exact Hk|].
  destruct (Worker.spin W fuel (Worker.time_time W c) busy (S c)) as [c1|] eqn:Hs;
    [|constructor; exact Hk].
  apply spin_exit in Hs as (j & -> & Hlt & Hge).
  specialize (IH (S k) (S (S (S c + j)))).
  destruct (Worker.throttle_loop W fuel busy (S k) (S (S (S c + j)))) as [tr st].
  simpl in *.
  replace (c + j - c)%nat with j by lia.
  replace (S (S (S (c + j)))) with (c + j + 3)%nat in IH by lia.
  replace (S (S (c + j))) with (c + j + 2)%nat by lia.
  apply (Worker.duty_slice W busy k c j tr st); assumption.
Qed.

(** Every complete duty cycle is the run of the loop, given fuel. *)
Lemma throttle_loop_complete busy k c tr st :
  Worker.duty_cycle W busy k c tr st ->
  st = Worker.Returned ->
  exists fuel0, forall fuel, (fuel0 <= fuel)%nat ->
    Worker.throttle_loop W fuel busy k c = (tr, Worker.Returned).
Proof.
  induction 1 as [k c Hk|k c j tr st Hk Hlt Hge _ IH|k c|k c Hk]; intros Hst;
    [| |discriminate|discriminate].
  - exists 1%nat. intros [|fuel] Hfuel; [lia|]. simpl. rewrite Hk. reflexivity.
  - destruct (IH Hst) as [fuel1 Hrun].
    exists (S (Nat.max fuel1 (S j))). intros [|fuel] Hfuel; [lia|]. simpl.
    rewrite Hk, (spin_finds (Worker.time_time W c) busy j (S c) fuel Hlt Hge)
      by lia.
    replace (S (S (S c + j))) with (c + j + 3)%nat by lia.
    rewrite Hrun by lia. simpl.
    replace (c + j - c)%nat with j by lia.
    replace (S (S (c + j))) with (c + j + 2)%nat by lia.
    reflexivity.
Qed.

Lemma busy_loop_only_checks fuel : forall k,
  forallb Worker.is_check (fst (Worker.cpu_worker_busy_loop W fuel k)) = true.
Proof.
  induction fuel as [|fuel IH]; intros k; simpl; [reflexivity|].
  destruct (Worker.flag_seen W k); [reflexivity|].
  specialize (IH (S k)).
  destruct (Worker.cpu_worker_busy_loop W fuel (S k)) as [tr st]. exact IH.
Qed.

End WorkerBodies.

(** C5 (amended): with the full-busy selector [use_busy] off, the worker
    [spawn_cpu_worker] starts for a [load_percent] below 100 (one that
    converts to a float) runs [cpu_worker_throttle], and its runs are the
    duty cycles of busy time [0.1 * load_percent / 100]: every run,
    complete or cut by fuel, checks the flag at the start of each slice,
    spins until the first clock reading at which the busy time has
    elapsed, and sleeps what the next reading leaves of the 0.1 s slice;
    and every complete duty cycle is what the worker does, given fuel.
    With [use_busy] on, the worker is the plain busy loop whatever the
    load: it only ever checks the flag. *)
Theorem throttled_worker_duty_cycle (E : env) (W : Worker.wenv)
    (load_percent : Z) (lp : float) (s : state) :
  load_percent < 100 ->
  float_of_int load_percent = inr lp ->
  (length (table s) < proc_limit E)%nat ->
  let h := length (table s) in
  let busy := (tenth * lp / 100)%float in
  (exists s' p,
     spawn_cpu_worker E false load_percent s = Ok h s' /\
     table s' !! h = Some p /\
     p_target p = TargetThrottle load_percent /\
     p_running p = true /\
     (forall fuel,
        Worker.duty_cycle W busy 0 0
          (fst (Worker.run_target W (mem_limit E) fuel (p_target p)))
          (snd (Worker.run_target W (mem_limit E) fuel (p_target p)))) /\
     (forall tr,
        Worker.duty_cycle W busy 0 0 tr Worker.Returned ->
        exists fuel0, forall fuel, (fuel0 <= fuel)%nat ->
          Worker.run_target W (mem_limit E) fuel (p_target p)
          = (tr, Worker.Returned))) /\
  (forall any_load, exists s' p,
     spawn_cpu_worker E true any_load s = Ok h s' /\
     table s' !! h = Some p /\
     p_target p = TargetBusy /\
     forall fuel,
       Worker.run_target W (mem_limit E) fuel (p_target p)
         = Worker.cpu_worker_busy W fuel /\
       forallb Worker.is_check (fst (Worker.cpu_worker_busy W fuel)) = true).
Proof.
  intros Hload Hlp Hroom h busy.
  assert (Hlook : forall t,
    table (emit (EvStart h t) (with_table (table s ++ [born E t]) s)) !! h
    = Some (born E t)).
  { intros t. simpl. rewrite lookup_app_r by reflexivity.
    subst h. rewrite Nat.sub_diag. reflexivity. }
  split.
  - exists (emit (EvStart h (TargetThrottle load_percent))
              (with_table (table s ++ [born E (TargetThrottle load_percent)]) s)),
           (born E (TargetThrottle load_percent)).
    split.
    { rewrite spawn_cpu_worker_eq. unfold cpu_target.
      replace (load_percent =? 100) with false by (symmetry; apply Z.eqb_neq; lia).
      apply (start_process_eq E), Hroom. }
    split; [apply Hlook|]. split; [reflexivity|].
    split; [simpl; rewrite Hlp; reflexivity|].
    simpl. unfold Worker.cpu_worker_throttle. rewrite Hlp. split.
    + intros fuel. apply throttle_loop_duty_cycle.
    + intros tr Htr. eapply throttle_loop_complete; [exact Htr|reflexivity].
  - intros any_load.
    exists (emit (EvStart h TargetBusy) (with_table (table s ++ [born E TargetBusy]) s)),
           (born E TargetBusy).
    split; [rewrite spawn_cpu_worker_eq; apply (start_process_eq E), Hroom|].
    split; [apply Hlook|]. split; [reflexivity|].
    intros fuel. split; [reflexivity|apply busy_loop_only_checks].
Qed.

(** ** The memory worker *)

(** What [['x' * 1024 * 1024] * n] builds when it fits: one string, and a
    list whose [n] slots all refer to it. *)
Lemma build_data_shared limit n :
  0 <= n <= Worker.sys_maxsize ->
  1048576 + 8 * n <= limit ->
  Worker.build_data limit n
  = inr (1%nat, [Worker.PyStr 1048576; Worker.PyList (replicate (Z.to_nat n) 0%nat)]).
Proof.
  intros Hn Hfit. unfold Worker.build_data, Worker.str_mul, Worker.alloc.
  change (Worker.used [] + Worker.sizeof (Worker.PyStr (1 * 1024 * Z.max 0 1024)))
    with 1048576.
  replace (1048576 <=? limit) with true by (symmetry; apply Z.leb_le; lia).
  unfold Worker.list_mul, Worker.alloc.
  replace (Worker.sys_maxsize <? n) with false by (symmetry; apply Z.ltb_ge; lia).
  change (1 * 1024 * Z.max 0 1024) with 1048576.
  cbn [length app].
  replace (Worker.used [Worker.PyStr 1048576]
           + Worker.sizeof (Worker.PyList (replicate (Z.to_nat n) 0%nat)) <=? limit)
    with true; [reflexivity|].
  symmetry. apply Z.leb_le. unfold Worker.used. simpl.
  rewrite length_replicate. lia.
Qed.

Lemma remove_dups_cons_in (a : nat) (l : list nat) :
  a ∈ l -> remove_dups (a :: l) = remove_dups l.
Proof.
  intros H. simpl. destruct (decide_rel elem_of a l); [reflexivity|contradiction].
Qed.

Lemma remove_dups_replicate (n : nat) (a : nat) :
  remove_dups (replicate (S n) a) = [a].
Proof.
  induction n as [|n IH]; [reflexivity|].
  change (replicate (S (S n)) a) with (a :: replicate (S n) a).
  rewrite remove_dups_cons_in; [exact IH|]. left.
Qed.

(** The bytes the worker holds grow by 8 per configured megabyte. *)
Lemma held_bytes_shared (n : Z) :
  1 <= n ->
  Worker.held_bytes
    [Worker.PyStr 1048576; Worker.PyList (replicate (Z.to_nat n) 0%nat)] 1
  = 1048576 + 8 * n.
Proof.
  intros Hn. unfold Worker.held_bytes. simpl lookup. cbv iota.
  destruct (Z.to_nat n) as [|m] eqn:Hm; [lia|].
  rewrite remove_dups_replicate. simpl.
  rewrite length_replicate. unfold Worker.size_at. simpl. lia.
Qed.

(** C6 (the code at the default size): [memory_worker(128)] holds one
    string of 1 MiB and a list of 128 references to it, 1049600 bytes in
    all, where 128 MB are 134217728 bytes; and the held bytes are
    [1048576 + 8 * size_in_mb] for every size that fits. *)
Theorem memory_worker_holds_one_megabyte :
  Worker.build_data (2 ^ 40) DEFAULT_MEM_MB
    = inr (1%nat, [Worker.PyStr 1048576;
                   Worker.PyList (replicate 128 0%nat)]) /\
  Worker.held_bytes [Worker.PyStr 1048576; Worker.PyList (replicate 128 0%nat)] 1
    = 1049600 /\
  Worker.used [Worker.PyStr 1048576; Worker.PyList (replicate 128 0%nat)]
    = 1049600 /\
  DEFAULT_MEM_MB * (1024 * 1024) = 134217728 /\
  (forall n, 1 <= n <= Worker.sys_maxsize ->
     exists hp data,
       Worker.build_data (1048576 + 8 * n) n = inr (data, hp) /\
       Worker.held_bytes hp data = 1048576 + 8 * n).
Proof.
  split; [vm_compute; reflexivity|].
  split; [vm_compute; reflexivity|].
  split; [vm_compute; reflexivity|].
  split; [reflexivity|].
  intros n Hn. eexists _, _.
  split; [apply build_data_shared; lia|].
  apply held_bytes_shared. lia.
Qed.

(** C7: when the allocation in [memory_worker] fails with [MemoryError],
    the body returns at once -- no flag check, no sleep, no exception
    leaving it -- and nothing reaches the controller: [spawn_mem_worker]
    has returned the handle normally, the flag, the registry and the other
    processes are as they were, and [is_alive] on that handle answers
    false. *)
Theorem memory_worker_oom_is_silent (E : env) (W : Worker.wenv) (fuel : nat)
    (size_mb : Z) (s : state) :
  Worker.build_data (mem_limit E) size_mb = inl MemoryError ->
  (length (table s) < proc_limit E)%nat ->
  let h := length (table s) in
  Worker.memory_worker W (mem_limit E) fuel size_mb
    = ([], Worker.Returned, None) /\
  exists s',
    spawn_mem_worker E size_mb s = Ok h s' /\
    terminate_flag s' = terminate_flag s /\
    processes s' = processes s /\
    table s' = table s ++ [MkProcess (TargetMemory size_mb) false false] /\
    (raises E OpIsAlive h = false -> is_alive E h s' = Ok false s') /\
    (forall k, (k < h)%nat -> alive_now E s' k = alive_now E s k).
Proof.
  intros Hoom Hroom h.
  split.
  { unfold Worker.memory_worker. rewrite Hoom. reflexivity. }
  exists (emit (EvStart h (TargetMemory size_mb))
            (with_table
               (table s ++ [MkProcess (TargetMemory size_mb) false false]) s)).
  split.
  { unfold spawn_mem_worker, start_process.
    replace (proc_limit E <=? length (table s))%nat with false
      by (symmetry; apply Nat.leb_gt; exact Hroom).
    unfold Worker.survives_startup. rewrite Hoom. reflexivity. }
  split; [reflexivity|]. split; [reflexivity|].
  split; [reflexivity|].
  split.
  - intros Hr. unfold is_alive. rewrite Hr. simpl.
    rewrite lookup_app_r by reflexivity.
    subst h. rewrite Nat.sub_diag. reflexivity.
  - intros k Hk. unfold alive_now. simpl.
    rewrite lookup_app_l by exact Hk. reflexivity.
Qed.

(** ** The claims on worked inputs *)

(** C1, as stated, fails on a handle that has already exited: with
    children that cannot allocate, the memory worker of the first wave is
    gone before [terminate_all] runs; the call waits on it but sends it no
    termination request. *)
Lemma terminate_all_skips_exited_handle :
  processes (one_wave starved_env) = [0; 1]%nat /\
  is_alive starved_env 1 (one_wave starved_env)
    = Ok false (one_wave starved_env) /\
  terminate_all starved_env (one_wave starved_env)
    = Ok tt (after_terminate_all starved_env (one_wave starved_env)) /\
  new_events (one_wave starved_env)
             (after_terminate_all starved_env (one_wave starved_env))
    = [EvTerminate 0; EvJoin 0; EvJoin 1] /\
  EvTerminate 1 ∉ new_events (one_wave starved_env)
                   (after_terminate_all starved_env (one_wave starved_env)).
Proof.
  split; [vm_compute; reflexivity|]. split; [vm_compute; reflexivity|].
  split; [apply terminate_all_eq|].
  assert (H : new_events (one_wave starved_env)
                (after_terminate_all starved_env (one_wave starved_env))
              = [EvTerminate 0; EvJoin 0; EvJoin 1])
    by (vm_compute; reflexivity).
  split; [exact H|]. rewrite H.
  intros Hin. apply list_elem_of_In in Hin. simpl in Hin.
  destruct Hin as [Hin|[Hin|[Hin|[]]]]; discriminate Hin.
Qed.





(** C5, as stated, fails at the menu's own settings: with the full-busy
    selector on and a load of 98, the worker started is the plain busy
    loop, which neither spins by the clock nor sleeps. *)
Lemma busy_selector_overrides_load :
  98 < 100 /\
  spawn_cpu_worker quiet_env DEFAULT_USE_BUSY_LOOP 98 initial_state
    = Ok 0%nat (MkState false [] [MkProcess TargetBusy true false] 0 false
                        [EvStart 0 TargetBusy]) /\
  Worker.run_target endless_run (2 ^ 30) 2 TargetBusy
    = ([Worker.WCheck false; Worker.WCheck false], Worker.Running) /\
  ~ Worker.duty_cycle endless_run (tenth * 98 / 100)%float 0 0
      [Worker.WCheck false; Worker.WCheck false] Worker.Running.
Proof.
  split; [lia|]. split; [vm_compute; reflexivity|].
  split; [vm_compute; reflexivity|].
  intros H. inversion H.
Qed.

(** C5 (amended) at a load of 50 with the selector off: the child reads
    its clock every 30 ms and sees the flag at its third check; each of
    its two slices spins through one reading, leaves the spin at 60 ms
    and sleeps the 10 ms that the reading at 90 ms leaves. *)
Lemma throttled_worker_duty_cycle_witness :
  float_of_int 50 = inr 50%float /\
  exists s' p,
    spawn_cpu_worker quiet_env false 50 initial_state = Ok 0%nat s' /\
    table s' !! 0%nat = Some p /\
    p_target p = TargetThrottle 50 /\
    Worker.duty_cycle short_run (tenth * 50 / 100)%float 0 0
      (fst (Worker.run_target short_run (2 ^ 30) 20 (p_target p)))
      Worker.Returned /\
    map Worker.is_check
        (fst (Worker.run_target short_run (2 ^ 30) 20 (p_target p)))
      = [true; false; false; true; false; false; true].
Proof.
  split; [vm_compute; reflexivity|].
  destruct (throttled_worker_duty_cycle quiet_env short_run 50 50%float
              initial_state)
    as [(s' & p & Hspawn & Hp & Ht & _ & Hduty & _) _].
  - lia.
  - vm_compute. reflexivity.
  - simpl. lia.
  - exists s', p. split; [exact Hspawn|]. split; [exact Hp|].
    split; [exact Ht|].
    specialize (Hduty 20%nat). rewrite Ht in Hduty |- *.
    split; [exact Hduty|]. vm_compute. reflexivity.
Defined.

(** C7 with children that cannot allocate: the default memory worker. *)
Lemma memory_worker_oom_is_silent_witness :
  Worker.build_data 0 DEFAULT_MEM_MB = inl MemoryError /\
  Worker.memory_worker endless_run 0 10 DEFAULT_MEM_MB
    = ([], Worker.Returned, None) /\
  exists s',
    spawn_mem_worker starved_env DEFAULT_MEM_MB initial_state = Ok 0%nat s' /\
    is_alive starved_env 0 s' = Ok false s'.
Proof.
  split; [vm_compute; reflexivity|].
  destruct (memory_worker_oom_is_silent starved_env endless_run 10
              DEFAULT_MEM_MB initial_state)
    as (Hbody & s' & Hspawn & _ & _ & _ & Halive & _).
  - vm_compute. reflexivity.
  - simpl. lia.
  - split; [exact Hbody|]. exists s'. split; [exact Hspawn|].
    apply Halive. reflexivity.
Defined.

(** C8 on the default interval, whose wait would last 20 slices: the
    stop arrives during the fifth, and the loop returns after five. *)
Lemma wait_loop_stops_within_one_slice_witness :
  keeps_waiting DEFAULT_SPEED 0%float 5 = true /\
  wait_lasts DEFAULT_SPEED 0%float 20 = true /\
  wait_loop interrupted_env 30 0%float DEFAULT_SPEED initial_state
    = Ok tt (after_sleeps interrupted_env initial_state 5) /\
  clock (after_sleeps interrupted_env initial_state 5) = 5%nat /\
  terminate_flag (after_sleeps interrupted_env initial_state 5) = true.
Proof.
  split; [vm_compute; reflexivity|].
  split; [vm_compute; reflexivity|].
  destruct (wait_loop_stops_within_one_slice interrupted_env 30 0%float
              DEFAULT_SPEED initial_state 5)
    as (Hrun & Hflag & Hclock & _).
  - reflexivity.
  - reflexivity.
  - simpl. lia.
  - vm_compute. reflexivity.
  - simpl. lia.
  - split; [exact Hrun|]. split; [exact Hclock|]. exact Hflag.
Defined.

(** C9, as stated, fails after any teardown: the two workers of a first
    wave are terminated and reaped, and both handles are still in the
    registry. *)
Lemma terminate_all_keeps_the_registry :
  processes (one_wave quiet_env) = [0; 1]%nat /\
  terminate_all quiet_env (one_wave quiet_env)
    = Ok tt (after_terminate_all quiet_env (one_wave quiet_env)) /\
  processes (after_terminate_all quiet_env (one_wave quiet_env)) = [0; 1]%nat /\
  is_alive quiet_env 0 (after_terminate_all quiet_env (one_wave quiet_env))
    = Ok false (after_terminate_all quiet_env (one_wave quiet_env)) /\
  is_alive quiet_env 1 (after_terminate_all quiet_env (one_wave quiet_env))
    = Ok false (after_terminate_all quiet_env (one_wave quiet_env)).
Proof.
  split; [vm_compute; reflexivity|]. split; [apply terminate_all_eq|].
  split; [vm_compute; reflexivity|]. split; vm_compute; reflexivity.
Qed.

(** The window C9 (amended) speaks of: the signal arrives right after
    the first [p.start()] of the first wave.  The handler finds an empty
    registry and terminates nothing; [SystemExit] leaves [start_ramp] with
    one process started, running and in no registry. *)
Lemma signal_before_append_leaks :
  start_ramp signalled_env 30 DEFAULT_PC_AMOUNT DEFAULT_SPEED DEFAULT_MEM_MB
             DEFAULT_USE_BUSY_LOOP false 98 initial_state
  = Raise (SystemExit 0)
      (MkState true [] [MkProcess TargetBusy true false] 0 false
               [EvWave 1; EvStart 0 TargetBusy]).
Proof. vm_compute. reflexivity. Qed.

(** C9 (amended) on a first wave and its teardown. *)
Lemma registry_only_grows_witness :
  tracked initial_state /\
  tracked (one_wave quiet_env) /\
  processes (one_wave quiet_env) = [0; 1]%nat /\
  processes (after_terminate_all quiet_env (one_wave quiet_env))
    = processes (one_wave quiet_env) /\
  is_alive quiet_env 1 (after_terminate_all quiet_env (one_wave quiet_env))
    = Ok false (after_terminate_all quiet_env (one_wave quiet_env)).
Proof.
  split; [reflexivity|].
  destruct (registry_only_grows quiet_env 3 1 0 DEFAULT_MEM_MB
              DEFAULT_USE_BUSY_LOOP false 98 initial_state)
    as (_ & _ & _ & Htr & _ & Hsame & Hgone).
  - reflexivity.
  - split; [apply Htr; reflexivity|]. split; [vm_compute; reflexivity|].
    split; [exact Hsame|].
    apply (Hgone 1%nat); [vm_compute; right; left|reflexivity].
Defined.

(** C10 after the teardown of a first wave: a ramp with the default
    arguments starts nothing. *)
Lemma stop_flag_is_monotone_witness :
  let s := after_terminate_all quiet_env (one_wave quiet_env) in
  terminate_all quiet_env (one_wave quiet_env) = Ok tt s /\
  terminate_flag s = true /\
  start_ramp quiet_env 30 DEFAULT_PC_AMOUNT DEFAULT_SPEED DEFAULT_MEM_MB
             DEFAULT_USE_BUSY_LOOP false 98 s
    = Ok tt (with_console false s) /\
  processes (with_console false s) = [0; 1]%nat.
Proof.
  intros s.
  assert (Hshut : terminate_all quiet_env (one_wave quiet_env) = Ok tt s)
    by apply terminate_all_eq.
  split; [exact Hshut|].
  destruct (stop_flag_is_monotone quiet_env (one_wave quiet_env) s s)
    as (Hflag & _ & Hramp).
  - left. exact Hshut.
  - apply rtc_refl.
  - split; [exact Hflag|].
    destruct (Hramp 29%nat DEFAULT_PC_AMOUNT DEFAULT_SPEED DEFAULT_MEM_MB
                    DEFAULT_USE_BUSY_LOOP false 98) as (Hrun & _).
    split; [exact Hrun|]. vm_compute. reflexivity.
Defined.

(** * Further properties of the code *)

(** ** terminate_all: order of the requests, and workers that stay *)

Lemma settle_stubborn E l k p :
  stubborn E k = true -> p_running (settle E l k p) = p_running p.
Proof.
  intros Hs. unfold settle, deliver, reap. rewrite Hs.
  destruct (requested E l k), (waited E l k), p as [t [|] [|]]; reflexivity.
Qed.

Lemma settle_target E l k p : p_target (settle E l k p) = p_target p.
Proof.
  unfold settle, deliver, reap.
  destruct (requested E l k), (waited E l k), p as [t [|] [|]],
    (stubborn E k); reflexivity.
Qed.


(** X2: [terminate_all] neither retries nor escalates: a tracked worker
    that is running and does not exit within the join timeout has been
    sent a request and been waited on, and is still reported alive when
    the call returns. *)
Theorem stubborn_worker_survives (E : env) (s : state) (h : nat) (p : process) :
  h ∈ processes s ->
  table s !! h = Some p ->
  p_running p = true ->
  stubborn E h = true ->
  raises E OpIsAlive h = false ->
  exists s',
    terminate_all E s = Ok tt s' /\
    EvTerminate h ∈ new_events s s' /\
    EvJoin h ∈ new_events s s' /\
    is_alive E h s' = Ok true s'.
Proof.
  intros Hin Hp Hrun Hstub Hr.
  exists (after_terminate_all E s).
  split; [apply terminate_all_eq|].
  split.
  { apply terminate_requested_iff. split; [exact Hin|].
    apply is_alive_true. unfold alive_now. rewrite Hr, Hp, Hrun. reflexivity. }
  split; [apply join_requested, Hin|].
  rewrite (is_alive_after E s h p Hp Hr), settle_stubborn by exact Hstub.
  rewrite Hrun. reflexivity.
Qed.

(** An OS whose workers all ignore termination requests. *)
Lemma stubborn_worker_survives_witness :
  let E := MkEnv 100 (2 ^ 30) None (fun _ => true) (fun _ _ => false) in
  exists s',
    terminate_all E (one_wave E) = Ok tt s' /\
    is_alive E 0 s' = Ok true s'.
Proof.
  intros E.
  destruct (stubborn_worker_survives E (one_wave E) 0
              (MkProcess TargetBusy true false))
    as (s' & Hrun & _ & _ & Halive).
  - vm_compute. left.
  - vm_compute. reflexivity.
  - reflexivity.
  - reflexivity.
  - reflexivity.
  - exists s'. split; [exact Hrun|exact Halive].
Defined.

(** ** start_ramp: what it starts and what it leaves alone *)

(** X3: whatever its arguments and whatever reaches it from outside,
    [start_ramp] relative to the state with the console off only adds
    processes, in whole pairs.  On a normal return it has started whole
    pairs of one CPU worker and one memory worker, appended their handles
    in the same order, logged only waves, starts and sleeps (no
    termination request, no wait on a handle), and left every earlier
    process as it was.  An exception that leaves it is either the
    [OSError] of a start the OS refused, the flag being unset, or the
    [SystemExit(0)] of the signal handler, whose teardown ran in the state
    the signal found; in both cases whole pairs have been started, and at
    most the CPU worker of the next one, and after a signal the handle of
    the process started last may be missing from the registry. *)
Theorem start_ramp_starts_pairs (E : env) (fuel : nat) (pc_amount speed mem_mb : Z)
    (use_busy dry_run : bool) (load_percent : Z) (s : state) :
  ramp_shape E dry_run (cpu_target use_busy load_percent) (TargetMemory mem_mb)
    (with_console false s)
    (start_ramp E fuel pc_amount speed mem_mb use_busy dry_run load_percent s).
Proof. apply start_ramp_shape. Qed.

(** X4: a dry run never starts a process: whatever else happens, the
    registry is as before and the table holds the same processes.  The
    only exception that leaves it is the [SystemExit(0)] of the signal
    handler, when a signal arrives; otherwise it logs only waves and
    sleeps and leaves every process as it was. *)
Theorem dry_run_starts_nothing (E : env) (fuel : nat) (pc_amount speed mem_mb : Z)
    (use_busy : bool) (load_percent : Z) (s : state) :
  let r := start_ramp E fuel pc_amount speed mem_mb use_busy true load_percent s in
  (forall e s', r = Raise e s' -> e = SystemExit 0 /\ signal_at E <> None) /\
  length (table (state_of r s)) = length (table s) /\
  processes (state_of r s) = processes s /\
  ((forall e s', r <> Raise e s') ->
   table (state_of r s) = table s /\
   forallb is_ramp_event (new_events s (state_of r s)) = true).
Proof.
  intros r. subst r.
  pose proof (start_ramp_shape E fuel pc_amount speed mem_mb use_busy true
                load_percent s) as H.
  destruct (start_ramp E fuel pc_amount speed mem_mb use_busy true load_percent s)
    as [[] s'|e s'|]; simpl in *.
  - destruct H as (k & (Hp & Ht & _ & _ & evs & Hl & Hev) & Hd).
    rewrite (Hd eq_refl) in Hp, Ht. simpl in Hp, Ht.
    rewrite app_nil_r in Hp, Ht.
    split; [discriminate|]. split; [rewrite Ht; reflexivity|].
    split; [exact Hp|]. intros _. split; [exact Ht|].
    rewrite (new_events_app s s' evs Hl). exact Hev.
  - destruct H as (k & extra & _ & Hd & [(_ & Habs & _)|(-> & s1 & Hc & -> & Hg)]);
      [discriminate|].
    destruct (Hd eq_refl) as [-> ->]. simpl in Hg.
    destruct (terminate_all_frame E s1) as (_ & Hps & _).
    split.
    { intros e0 x [= <- _]. split; [reflexivity|eapply caught_signal, Hc]. }
    rewrite terminate_all_table_length, Hps.
    destruct Hg as [(Hp & Ht & _)|(ts0 & t & s0 & Habs & _)].
    + simpl in Hp, Ht. rewrite app_nil_r in Hp, Ht.
      split; [rewrite Ht; reflexivity|]. split; [exact Hp|].
      intros Hno. exfalso. eapply Hno. reflexivity.
    + destruct ts0; discriminate Habs.
  - split; [discriminate|]. split; [reflexivity|]. split; [reflexivity|].
    intros _. split; [reflexivity|].
    unfold new_events. rewrite drop_all. reflexivity.
Qed.

(** ** The signal between a start and its append *)

Lemma check_signals_caught E s :
  caught E s ->
  check_signals E s = Raise (SystemExit 0) (after_terminate_all E s).
Proof.
  unfold caught, check_signals. intros ->. rewrite !Nat.eqb_refl. simpl.
  unfold signal_handler, bind. rewrite terminate_all_eq. reflexivity.
Qed.

Lemma join_waited E s h :
  EvJoin h ∈ new_events s (after_terminate_all E s) -> h ∈ processes s.
Proof.
  rewrite (new_events_app _ _ _ (terminate_all_log E s)).
  rewrite elem_of_app. intros [H|H].
  - apply list_elem_of_In, in_map_iff in H as (x & Hx & _). discriminate.
  - apply list_elem_of_In, in_map_iff in H as (x & [= <-] & Hin).
    apply list_elem_of_In, Hin.
Qed.

(** X14: the teardown of the signal handler misses a worker.  When the
    signal arrives after [p.start()] has returned for the CPU worker of a
    spawn pass and before [processes.append(p_cpu)], the handler runs
    [terminate_all] on a registry that does not hold that process:
    [SystemExit(0)] leaves the pass with the flag set, the process is in
    no registry, it was sent no termination request and was not waited
    on, and it is as [start()] left it. *)
Theorem signal_between_start_and_append_leaks (E : env) (mem_mb : Z)
    (use_busy : bool) (load_percent : Z) (s : state) :
  tracked s ->
  (length (table s) < proc_limit E)%nat ->
  caught E (started E s (cpu_target use_busy load_percent)) ->
  let h := length (table s) in
  let cpu := cpu_target use_busy load_percent in
  exists s',
    spawn_pair E mem_mb use_busy load_percent s = Raise (SystemExit 0) s' /\
    terminate_flag s' = true /\
    processes s' = processes s /\
    (h ∉ processes s') /\
    table s' !! h = Some (born E cpu) /\
    (EvTerminate h ∉ new_events s s') /\
    (EvJoin h ∉ new_events s s').
Proof.
  intros Htr Hroom Hc h cpu. fold cpu in Hc.
  set (x := started E s cpu) in *.
  assert (Hnot : h ∉ processes x).
  { change (processes x) with (processes s). rewrite Htr.
    rewrite elem_of_seq. subst h. lia. }
  destruct (terminate_all_frame E x) as (Hflag & Hps & _).
  exists (after_terminate_all E x).
  split.
  { unfold spawn_pair. rewrite spawn_cpu_worker_eq. fold cpu.
    unfold bind at 1. rewrite start_process_eq by exact Hroom.
    unfold bind at 1. fold x. rewrite (check_signals_caught E x Hc).
    reflexivity. }
  split; [exact Hflag|]. split; [exact Hps|].
  split; [rewrite Hps; exact Hnot|].
  split.
  { rewrite terminate_all_table.
    replace (table x !! h) with (Some (born E cpu)).
    - simpl. f_equal. unfold settle, requested, waited.
      rewrite bool_decide_eq_false_2 by exact Hnot. reflexivity.
    - subst x h. unfold started. simpl.
      rewrite lookup_app_r by reflexivity. rewrite Nat.sub_diag. reflexivity. }
  assert (Hnew : new_events s (after_terminate_all E x)
                 = EvStart h cpu :: new_events x (after_terminate_all E x)).
  { rewrite (new_events_app x _ _ (terminate_all_log E x)).
    apply new_events_app. rewrite terminate_all_log.
    subst x. unfold started. simpl. rewrite <- app_assoc. reflexivity. }
  rewrite Hnew. split.
  - intros Hin. apply elem_of_cons in Hin as [Habs|Hin]; [discriminate|].
    apply terminate_requested_iff in Hin as [Hin _]. exact (Hnot Hin).
  - intros Hin. apply elem_of_cons in Hin as [Habs|Hin]; [discriminate|].
    apply join_waited in Hin. exact (Hnot Hin).
Qed.

(** X14 on the first spawn pass of a first wave: the busy worker 0 is
    left running, in no registry. *)
Lemma signal_between_start_and_append_leaks_witness :
  exists s',
    spawn_pair signalled_env DEFAULT_MEM_MB DEFAULT_USE_BUSY_LOOP 98
               (emit (EvWave 1) initial_state)
      = Raise (SystemExit 0) s' /\
    processes s' = [] /\
    table s' = [MkProcess TargetBusy true false].
Proof.
  destruct (signal_between_start_and_append_leaks signalled_env DEFAULT_MEM_MB
              DEFAULT_USE_BUSY_LOOP 98 (emit (EvWave 1) initial_state))
    as (s' & Hrun & _ & Hps & _).
  - reflexivity.
  - simpl. lia.
  - reflexivity.
  - exists s'. split; [exact Hrun|]. split; [exact Hps|].
    vm_compute in Hrun. injection Hrun as <-. reflexivity.
Defined.

(** A dry run that a signal ends during the third slice of its first
    wait: nothing was started, and [SystemExit] leaves [start_ramp]. *)
Lemma dry_run_ended_by_signal :
  start_ramp signalled_in_wait_env 30 DEFAULT_PC_AMOUNT DEFAULT_SPEED
             DEFAULT_MEM_MB DEFAULT_USE_BUSY_LOOP true 98 initial_state
  = Raise (SystemExit 0)
      (MkState true [] [] 3 false [EvWave 1; EvSleep; EvSleep; EvSleep]).
Proof. vm_compute. reflexivity. Qed.



(** ** start_ramp: a stop during a wait *)

Section RampStopped.

Context (E : env).

(** No signal arrives. *)
Hypothesis Hnosig : signal_at E = None.

(** The wait that the outside stop cuts short. *)
Lemma wait_loop_interrupted fuel slept speed s t :
  terminate_flag s = false ->
  stop_tick E = Some t ->
  (clock s < t)%nat ->
  keeps_waiting speed slept (t - clock s) = true ->
  (t - clock s < fuel)%nat ->
  wait_loop E fuel slept speed s = Ok tt (after_sleeps E s (t - clock s))
  /\ terminate_flag (after_sleeps E s (t - clock s)) = true.
Proof.
  intros Hf Ht Hc Hk Hfuel.
  set (d := (t - clock s)%nat) in *.
  assert (Hset : terminate_flag (after_sleeps E s d) = true).
  { rewrite after_sleeps_flag by exact Hf.
    destruct d as [|d'] eqn:Hd; [lia|].
    unfold stop_by. rewrite Ht. apply Nat.leb_le. lia. }
  split; [|exact Hset].
  replace fuel with (d + S (fuel - S d))%nat by lia.
  rewrite (wait_loop_passes E Hnosig).
  - apply wait_loop_flag_set, Hset.
  - exact Hk.
  - intros i Hi. rewrite after_sleeps_flag by exact Hf.
    destruct i as [|i]; [reflexivity|].
    unfold stop_by. rewrite Ht. apply Nat.leb_gt. lia.
Qed.

(** The wave during whose wait the stop arrives is the last one. *)
Lemma ramp_loop_last_wave fuel pc_amount speed mem_mb use_busy dry_run
      load_percent count s t :
  let ts := wave_targets mem_mb use_busy dry_run load_percent count in
  count <= pc_amount ->
  terminate_flag s = false ->
  (dry_run = true \/ (length (table s) + length ts <= proc_limit E)%nat) ->
  stop_tick E = Some t ->
  (clock s < t)%nat ->
  keeps_waiting speed 0%float (t - clock s) = true ->
  (t - clock s <= fuel)%nat ->
  ramp_loop E (S (S fuel)) pc_amount speed mem_mb use_busy dry_run load_percent
            count s
  = Ok tt (wave_end E s ts count (t - clock s))
  /\ terminate_flag (wave_end E s ts count (t - clock s)) = true.
Proof.
  intros ts Hc Hf Hroom Ht Hclock Hk Hfuel.
  set (s1 := emit (EvWave count) s).
  assert (Hspawn :
    (if dry_run then ret tt
     else repeat_n (Z.to_nat count) (spawn_pair E mem_mb use_busy load_percent)) s1
    = Ok tt (after_starts E s1 ts)).
  { subst ts. unfold wave_targets in *. destruct dry_run.
    - rewrite after_starts_nil. reflexivity.
    - destruct Hroom as [?|Hroom]; [discriminate|].
      apply spawn_loop_ok; [exact Hnosig|].
      rewrite pair_targets_length in Hroom. exact Hroom. }
  destruct (wait_loop_interrupted (S (S fuel)) 0%float speed
              (after_starts E s1 ts) t Hf Ht Hclock Hk ltac:(simpl; lia))
    as [Hwait Hset].
  split; [|exact Hset].
  rewrite ramp_loop_unfold_quiet by exact Hnosig.
  apply Z.leb_le in Hc. rewrite Hc, Hf. simpl andb. cbv iota.
  fold s1. unfold bind at 1. rewrite Hspawn.
  unfold bind at 1. rewrite Hwait.
  apply ramp_loop_flag_set, Hset.
Qed.

(** [j] whole waves from [count] on, then the wave that the stop cuts. *)
Lemma ramp_loop_stopped pc_amount speed mem_mb use_busy dry_run load_percent
      n r t j :
  forall count s fuel,
    0 < count ->
    Forall (fun c => c <= pc_amount) (doubling count (S j)) ->
    terminate_flag s = false ->
    stop_tick E = Some t ->
    t = (clock s + j * n + r)%nat ->
    (1 <= r <= n)%nat ->
    wait_lasts speed 0%float n = true ->
    (dry_run = true \/
     Z.of_nat (length (table s)) + 2 * count * (2 ^ Z.of_nat (S j) - 1)
       <= Z.of_nat (proc_limit E)) ->
    (j + n + 2 <= fuel)%nat ->
    exists s' evs,
      ramp_loop E fuel pc_amount speed mem_mb use_busy dry_run load_percent count s
        = Ok tt s' /\
      terminate_flag s' = true /\
      clock s' = t /\
      log s' = log s ++ evs /\
      (forall f, starts_before_next_wave f evs = 0%nat) /\
      wave_sizes evs
        = map (fun c => let k := if dry_run then 0%nat else Z.to_nat c in
                        (c, k, k))
              (doubling count (S j)).
Proof.
  induction j as [|j IH];
    intros count s fuel Hpos Hle Hf Ht Htick Hr Hw Hroom Hfuel.
  - destruct fuel as [|[|fuel]]; [lia|lia|].
    simpl in Hle. inversion Hle as [|c l Hc _]; subst c l.
    set (ts := wave_targets mem_mb use_busy dry_run load_percent count).
    destruct (wave_targets_split mem_mb use_busy dry_run load_percent count)
      as (Hcpus & Hmems & Hlen).
    fold ts in Hcpus, Hmems, Hlen.
    assert (Hd : (t - clock s = r)%nat) by lia.
    apply andb_prop in Hw as [Hk _].
    destruct (ramp_loop_last_wave fuel pc_amount speed mem_mb use_busy dry_run
                load_percent count s t) as [Hrun Hset];
      try assumption; try lia.
    { fold ts. rewrite Hlen. destruct dry_run; [left; reflexivity|right].
      destruct Hroom as [?|Hroom]; [discriminate|].
      change (2 ^ Z.of_nat 1) with 2 in Hroom. lia. }
    { rewrite Hd. eapply keeps_waiting_le; [exact Hk|lia]. }
    fold ts in Hrun, Hset. rewrite Hd in Hrun, Hset.
    exists (wave_end E s ts count r),
           (([EvWave count] ++ start_events (length (table s)) ts
                            ++ repeat EvSleep r) ++ []).
    split; [exact Hrun|]. split; [exact Hset|].
    split; [simpl; lia|].
    split; [rewrite wave_end_log, app_nil_r; reflexivity|].
    split; [reflexivity|].
    rewrite wave_sizes_wave by reflexivity.
    rewrite Hcpus, Hmems. reflexivity.
  - destruct fuel as [|fuel]; [lia|].
    change (doubling count (S (S j)))
      with (count :: doubling (count * 2) (S j)) in Hle.
    inversion Hle as [|c l Hc Hrest]; subst c l.
    rewrite (Nat2Z.inj_succ (S j)), Z.pow_succ_r in Hroom by lia.
    assert (Hp : 0 < 2 ^ Z.of_nat (S j)) by (apply Z.pow_pos_nonneg; lia).
    set (ts := wave_targets mem_mb use_busy dry_run load_percent count).
    destruct (wave_targets_split mem_mb use_busy dry_run load_percent count)
      as (Hcpus & Hmems & Hlen).
    fold ts in Hcpus, Hmems, Hlen.
    destruct (ramp_loop_wave E Hnosig fuel pc_amount speed mem_mb use_busy
                dry_run load_percent count s n) as [Hstep Hquiet];
      try assumption; try lia.
    { fold ts. rewrite Hlen. destruct dry_run; [left; reflexivity|right].
      destruct Hroom as [?|Hroom]; [discriminate|]. nia. }
    { unfold stop_by. rewrite Ht. apply Nat.leb_gt. simpl in Htick. lia. }
    fold ts in Hstep, Hquiet.
    destruct (IH (count * 2) (wave_end E s ts count n) fuel)
      as (s' & evs & Hrun & Hf' & Hclock & Hlog & Hhead & Hsizes);
      try assumption; try lia.
    { unfold wave_end. simpl. simpl in Htick. lia. }
    { unfold wave_end. simpl. rewrite length_app, length_map, Hlen.
      destruct dry_run; [left; reflexivity|right].
      destruct Hroom as [?|Hroom]; [discriminate|]. nia. }
    exists s', (([EvWave count] ++ start_events (length (table s)) ts
                              ++ repeat EvSleep n) ++ evs).
    split; [rewrite Hstep; exact Hrun|].
    split; [exact Hf'|]. split; [exact Hclock|].
    split; [rewrite Hlog, wave_end_log, <- !app_assoc; reflexivity|].
    split; [reflexivity|].
    rewrite wave_sizes_wave by exact Hhead.
    rewrite Hsizes, Hcpus, Hmems. reflexivity.
Qed.

End RampStopped.

(** X6: a stop that arrives during the wait of some wave ends the ramp
    with that wave.  If every whole wait lasts [n] slices and the flag is
    set from outside during slice [r] of the wait of the wave of count
    [2^j], then [start_ramp] returns normally with the flag set right
    after that slice, having run exactly the waves 1, 2, ..., [2^j], each
    of them in full -- however many more the ceiling would allow. *)
Theorem ramp_stops_after_interrupted_wave (E : env) (fuel : nat)
    (C speed mem_mb : Z) (use_busy dry_run : bool) (load_percent : Z)
    (s : state) (n r t j : nat) :
  terminate_flag s = false ->
  wait_lasts speed 0%float n = true ->
  (1 <= r <= n)%nat ->
  stop_tick E = Some t ->
  t = (clock s + j * n + r)%nat ->
  2 ^ Z.of_nat j <= C ->
  (dry_run = true \/
   Z.of_nat (length (table s)) + 2 * (2 ^ (Z.of_nat j + 1) - 1)
     <= Z.of_nat (proc_limit E)) ->
  (j + n + 2 <= fuel)%nat ->
  exists s',
    start_ramp E fuel C speed mem_mb use_busy dry_run load_percent s = Ok tt s' /\
    terminate_flag s' = true /\
    clock s' = t /\
    wave_sizes (new_events s s')
      = map (fun i => let workers := if dry_run then 0%nat
                                     else Z.to_nat (2 ^ Z.of_nat i) in
                      (2 ^ Z.of_nat i, workers, workers))
            (seq 0 (S j)).
Proof.
  intros Hf Hw Hr Ht Htick HC Hroom Hfuel.
  assert (Hbound : Forall (fun c => c <= C) (doubling 1 (S j))).
  { rewrite doubling_pow. apply Forall_forall. intros c Hc.
    apply list_elem_of_In, in_map_iff in Hc as (i & <- & Hi).
    apply in_seq in Hi.
    assert (2 ^ Z.of_nat i <= 2 ^ Z.of_nat j)
      by (apply Z.pow_le_mono_r; lia).
    lia. }
  destruct (ramp_loop_stopped E (stop_tick_no_signal E t Ht) C speed mem_mb
              use_busy dry_run load_percent n r t j 1 (with_console true s) fuel)
    as (s' & evs & Hrun & Hf' & Hclock & Hlog & _ & Hsizes);
    try assumption; try lia.
  { destruct Hroom as [Hd|Hroom]; [left; exact Hd|right].
    simpl table. rewrite Nat2Z.inj_succ. unfold Z.succ. lia. }
  exists (with_console false s').
  split; [rewrite start_ramp_eq, Hrun; reflexivity|].
  split; [exact Hf'|]. split; [exact Hclock|].
  rewrite (new_events_app s (with_console false s') evs Hlog).
  rewrite Hsizes, doubling_pow, map_map. apply map_ext. intros i.
  rewrite Z.mul_1_l. reflexivity.
Qed.

(** X6 on the default settings: the stop arrives during slice 25, that is
    during the fifth slice of the second wave's wait; the ceiling of 16384
    would allow fifteen waves, and two are run. *)
Lemma ramp_stops_after_interrupted_wave_witness :
  wait_lasts DEFAULT_SPEED 0%float 20 = true /\
  exists s',
    start_ramp (MkEnv 100 (2 ^ 30) (Some (SetsFlag 25)) (fun _ => false)
                      (fun _ _ => false))
               30 DEFAULT_PC_AMOUNT DEFAULT_SPEED DEFAULT_MEM_MB
               DEFAULT_USE_BUSY_LOOP false 98 initial_state = Ok tt s' /\
    terminate_flag s' = true /\
    clock s' = 25%nat /\
    wave_sizes (new_events initial_state s')
      = [(1, 1%nat, 1%nat); (2, 2%nat, 2%nat)].
Proof.
  split; [vm_compute; reflexivity|].
  destruct (ramp_stops_after_interrupted_wave
              (MkEnv 100 (2 ^ 30) (Some (SetsFlag 25)) (fun _ => false)
                     (fun _ _ => false))
              30 DEFAULT_PC_AMOUNT DEFAULT_SPEED DEFAULT_MEM_MB
              DEFAULT_USE_BUSY_LOOP false 98 initial_state 20 5 25 1)
    as (s' & Hrun & Hflag & Hclock & Hwaves).
  - reflexivity.
  - vm_compute. reflexivity.
  - lia.
  - reflexivity.
  - reflexivity.
  - vm_compute. discriminate.
  - right. vm_compute. discriminate.
  - lia.
  - exists s'. split; [exact Hrun|]. split; [exact Hflag|].
    split; [exact Hclock|exact Hwaves].
Defined.

(** ** The busy worker and the idling memory worker *)

Section WorkerLoops.

Context (W : Worker.wenv).

Lemma busy_loop_unseen d : forall fuel i,
  (forall j, (j < d)%nat -> Worker.flag_seen W (i + j) = false) ->
  (fuel <= d)%nat ->
  Worker.cpu_worker_busy_loop W fuel i
  = (replicate fuel (Worker.WCheck false), Worker.Running).
Proof.
  induction d as [|d IH]; intros fuel i Hno Hfuel.
  - replace fuel with 0%nat by lia. reflexivity.
  - destruct fuel as [|fuel]; [reflexivity|]. simpl.
    pose proof (Hno 0%nat ltac:(lia)) as H0. rewrite Nat.add_0_r in H0.
    rewrite H0, (IH fuel (S i)); [reflexivity| |lia].
    intros j Hj. replace (S i + j)%nat with (i + S j)%nat by lia.
    apply Hno. lia.
Qed.

Lemma busy_loop_seen d : forall fuel i,
  Worker.flag_seen W (i + d) = true ->
  (forall j, (j < d)%nat -> Worker.flag_seen W (i + j) = false) ->
  (d < fuel)%nat ->
  Worker.cpu_worker_busy_loop W fuel i
  = (replicate d (Worker.WCheck false) ++ [Worker.WCheck true], Worker.Returned).
Proof.
  induction d as [|d IH]; intros fuel i Hyes Hno Hfuel;
    (destruct fuel as [|fuel]; [lia|]); simpl.
  - rewrite Nat.add_0_r in Hyes. rewrite Hyes. reflexivity.
  - pose proof (Hno 0%nat ltac:(lia)) as H0. rewrite Nat.add_0_r in H0.
    rewrite H0, (IH fuel (S i)); [reflexivity| | |lia].
    + replace (S i + d)%nat with (i + S d)%nat by lia. exact Hyes.
    + intros j Hj. replace (S i + j)%nat with (i + S j)%nat by lia.
      apply Hno. lia.
Qed.

Lemma idle_loop_seen d : forall fuel i,
  Worker.flag_seen W (i + d) = true ->
  (forall j, (j < d)%nat -> Worker.flag_seen W (i + j) = false) ->
  (d < fuel)%nat ->
  Worker.idle_loop W fuel i
  = (concat (replicate d [Worker.WCheck false; Worker.WSleep Worker.half_second])
       ++ [Worker.WCheck true], Worker.Returned).
Proof.
  induction d as [|d IH]; intros fuel i Hyes Hno Hfuel;
    (destruct fuel as [|fuel]; [lia|]); simpl.
  - rewrite Nat.add_0_r in Hyes. rewrite Hyes. reflexivity.
  - pose proof (Hno 0%nat ltac:(lia)) as H0. rewrite Nat.add_0_r in H0.
    rewrite H0, (IH fuel (S i)); [reflexivity| | |lia].
    + replace (S i + d)%nat with (i + S d)%nat by lia. exact Hyes.
    + intros j Hj. replace (S i + j)%nat with (i + S j)%nat by lia.
      apply Hno. lia.
Qed.

End WorkerLoops.

(** X7: [cpu_worker_busy] does nothing but check the flag: it returns at
    the first check that sees the flag set, and until then it is still
    running, every step it made being one more check. *)
Theorem busy_worker_only_checks (W : Worker.wenv) (k : nat) :
  first_seen W k ->
  (forall fuel, (k < fuel)%nat ->
     Worker.cpu_worker_busy W fuel
     = (replicate k (Worker.WCheck false) ++ [Worker.WCheck true],
        Worker.Returned)) /\
  (forall fuel, (fuel <= k)%nat ->
     Worker.cpu_worker_busy W fuel
     = (replicate fuel (Worker.WCheck false), Worker.Running)).
Proof.
  intros [Hyes Hno]. split; intros fuel Hfuel; unfold Worker.cpu_worker_busy.
  - apply busy_loop_seen; [exact Hyes|exact Hno|exact Hfuel].
  - apply (busy_loop_unseen W k); [exact Hno|exact Hfuel].
Qed.

Lemma busy_worker_only_checks_witness :
  Worker.cpu_worker_busy short_run 10
  = ([Worker.WCheck false; Worker.WCheck false; Worker.WCheck true],
     Worker.Returned).
Proof.
  destruct (busy_worker_only_checks short_run 2) as [Hret _].
  - split; [reflexivity|]. intros [|[|j]] Hj; [reflexivity|reflexivity|lia].
  - apply (Hret 10%nat). lia.
Defined.

(** X8: a memory worker whose allocation succeeds does nothing further
    with it: between two checks of the flag it sleeps half a second, it
    returns at the first check that sees the flag set, and [data] is what
    the allocation built. *)
Theorem memory_worker_idles_until_stop (W : Worker.wenv) (limit : Z)
    (size_in_mb : Z) (data : nat) (hp : Worker.heap) (k fuel : nat) :
  Worker.build_data limit size_in_mb = inr (data, hp) ->
  first_seen W k ->
  (k < fuel)%nat ->
  Worker.memory_worker W limit fuel size_in_mb
  = (concat (replicate k [Worker.WCheck false;
                          Worker.WSleep Worker.half_second])
       ++ [Worker.WCheck true],
     Worker.Returned, Some (hp, data)).
Proof.
  intros Hdata [Hyes Hno] Hfuel. unfold Worker.memory_worker.
  rewrite Hdata, (idle_loop_seen W k); [reflexivity|exact Hyes|exact Hno|exact Hfuel].
Qed.

Lemma memory_worker_idles_until_stop_witness :
  Worker.memory_worker short_run (2 ^ 30) 10 DEFAULT_MEM_MB
  = ([Worker.WCheck false; Worker.WSleep Worker.half_second;
      Worker.WCheck false; Worker.WSleep Worker.half_second;
      Worker.WCheck true],
     Worker.Returned,
     Some ([Worker.PyStr 1048576; Worker.PyList (replicate 128 0%nat)], 1%nat)).
Proof.
  apply (memory_worker_idles_until_stop short_run (2 ^ 30) DEFAULT_MEM_MB 1
           [Worker.PyStr 1048576; Worker.PyList (replicate 128 0%nat)] 2 10).
  - vm_compute. reflexivity.
  - split; [reflexivity|]. intros [|[|j]] Hj; [reflexivity|reflexivity|lia].
  - lia.
Defined.

(** ** The menu and the program entry *)

Section MenuProperties.

Context (E : env).
Context (strip_lower : String.string -> String.string).
Context (answers : nat -> exn + String.string).

Local Abbreviation main_menu := (main_menu E strip_lower answers).
Local Abbreviation program := (program E strip_lower answers).
Local Abbreviation prompt := (input E answers).
Local Abbreviation default_ramp ramp_fuel :=
  (start_ramp E ramp_fuel DEFAULT_PC_AMOUNT DEFAULT_SPEED DEFAULT_MEM_MB
              DEFAULT_USE_BUSY_LOOP false 98).

(** The state after [time.sleep(0.4)]. *)
Local Abbreviation paused s :=
  (with_flag (terminate_flag s || stop_by E (clock s + 4))
             (with_clock (clock s + 4) s)).

(** A prompt gives the scripted answer, unless the signal is caught
    there. *)
Lemma input_cases k s :
  prompt k s = match answers k with
               | inl e => Raise e s
               | inr line => Ok line s
               end
  \/ (caught E s
      /\ prompt k s = Raise (SystemExit 0) (after_terminate_all E s)).
Proof.
  unfold input, bind.
  destruct (check_signals_cases E s) as [H|[Hc H]]; rewrite H;
    [left; reflexivity|right; split; [exact Hc|reflexivity]].
Qed.

Lemma input_ok k s line s0 :
  prompt k s = Ok line s0 -> s0 = s /\ answers k = inr line.
Proof.
  destruct (input_cases k s) as [H|[_ H]]; rewrite H; [|discriminate].
  destruct (answers k); [discriminate|]. intros [= <- <-]. auto.
Qed.

Lemma input_raise k s e x :
  prompt k s = Raise e x ->
  (x = s /\ answers k = inl e)
  \/ (e = SystemExit 0 /\ caught E s /\ x = after_terminate_all E s).
Proof.
  destruct (input_cases k s) as [H|[Hc H]]; rewrite H.
  - destruct (answers k); [|discriminate]. intros [= <- <-]. left. auto.
  - intros [= <- <-]. right. auto.
Qed.

Lemma main_menu_unfold fuel ramp_fuel k s :
  main_menu (S fuel) ramp_fuel k s =
  match prompt k s with
  | Ok raw s0 =>
      if String.eqb (strip_lower raw) "s" then
        match default_ramp ramp_fuel s0 with
        | Ok _ s1 =>
            match prompt (S k) s1 with
            | Ok _ s2 => main_menu fuel ramp_fuel (S (S k)) s2
            | Raise e x => Raise e x
            | Diverge => Diverge
            end
        | Raise e s1 => Raise e s1
        | Diverge => Diverge
        end
      else if String.eqb (strip_lower raw) "q" then
        match any_alive E s0 with
        | Ok true s1 =>
            match prompt (S k) s1 with
            | Ok ans s2 =>
                if String.eqb (strip_lower ans) "y" then terminate_all E s2
                else Ok tt s2
            | Raise e x => Raise e x
            | Diverge => Diverge
            end
        | Ok false s1 => Ok tt s1
        | Raise e s1 => Raise e s1
        | Diverge => Diverge
        end
      else main_menu fuel ramp_fuel (S k) (paused s0)
  | Raise e x => Raise e x
  | Diverge => Diverge
  end.
Proof.
  simpl. unfold bind at 1.
  destruct (prompt k s) as [raw s0|e x|]; [|reflexivity|reflexivity].
  destruct (String.eqb (strip_lower raw) "s").
  - unfold bind at 1.
    destruct (default_ramp ramp_fuel s0) as [[] s1|e s1|];
      [|reflexivity|reflexivity].
    unfold bind at 1. destruct (prompt (S k) s1); reflexivity.
  - destruct (String.eqb (strip_lower raw) "q"); [|reflexivity].
    unfold bind at 1.
    destruct (any_alive E s0) as [[|] s1|e s1|]; try reflexivity.
    unfold bind. destruct (prompt (S k) s1) as [ans s2|e x|]; try reflexivity.
    destruct (String.eqb (strip_lower ans) "y"); reflexivity.
Qed.

Lemma any_alive_state s : state_of (any_alive E s) s = s.
Proof. apply (any_alive_in_state E (processes s) s). Qed.

Lemma any_alive_in_raises l : forall s e s',
  any_alive_in E l s = Raise e s' -> e = ValueError \/ e = AssertionError.
Proof.
  induction l as [|h l IH]; intros s e s'; simpl; [discriminate|].
  unfold bind, is_alive.
  destruct (raises E OpIsAlive h); [intros [= <- _]; auto|].
  destruct (table s !! h) as [p|]; [|intros [= <- _]; auto].
  destruct (p_running p); [discriminate|apply IH].
Qed.

(** *** What the menu keeps *)

Lemma grows_by_default_workers s s' ts :
  grows_by E s s' ts ->
  Forall (fun t => t = TargetBusy \/ t = TargetMemory DEFAULT_MEM_MB) ts ->
  default_workers s -> default_workers s'.
Proof.
  intros (_ & Ht & _) Hts Hdef. unfold default_workers in *.
  rewrite Ht. apply Forall_app. split; [exact Hdef|].
  apply Forall_map. exact Hts.
Qed.

Lemma pair_targets_default k :
  Forall (fun t => t = TargetBusy \/ t = TargetMemory DEFAULT_MEM_MB)
         (pair_targets k TargetBusy (TargetMemory DEFAULT_MEM_MB)).
Proof. induction k as [|k IH]; simpl; auto. Qed.

Lemma terminate_all_default_workers s :
  default_workers s -> default_workers (after_terminate_all E s).
Proof.
  unfold default_workers. rewrite !Forall_lookup. intros Hdef i x Hx.
  rewrite terminate_all_table in Hx.
  destruct (table s !! i) as [p|] eqn:Hp; [|discriminate].
  injection Hx as <-. rewrite settle_target. eapply Hdef. exact Hp.
Qed.

Lemma start_ramp_default_workers ramp_fuel s :
  default_workers s ->
  default_workers (state_of (default_ramp ramp_fuel s) s).
Proof.
  intros Hdef.
  assert (Hdef0 : default_workers (with_console false s)) by exact Hdef.
  pose proof (start_ramp_shape E ramp_fuel DEFAULT_PC_AMOUNT DEFAULT_SPEED
                DEFAULT_MEM_MB DEFAULT_USE_BUSY_LOOP false 98 s) as H.
  change (cpu_target DEFAULT_USE_BUSY_LOOP 98) with TargetBusy in H.
  destruct (default_ramp ramp_fuel s) as [[] s'|e s'|]; simpl in *;
    [| |exact Hdef].
  - destruct H as (k & Hg & _).
    eapply grows_by_default_workers;
      [exact Hg|apply pair_targets_default|exact Hdef0].
  - destruct H as (k & extra & Hx & _ & Hcase).
    assert (Hts : Forall (fun t => t = TargetBusy
                                   \/ t = TargetMemory DEFAULT_MEM_MB)
                    (pair_targets k TargetBusy (TargetMemory DEFAULT_MEM_MB)
                       ++ extra)).
    { apply Forall_app. split; [apply pair_targets_default|].
      destruct Hx as [->| ->]; auto. }
    destruct Hcase as [(_ & _ & _ & _ & Hg)|(_ & s1 & _ & -> & [Hg|Hg])].
    + eapply grows_by_default_workers; [exact Hg|exact Hts|exact Hdef0].
    + apply terminate_all_default_workers.
      eapply grows_by_default_workers; [exact Hg|exact Hts|exact Hdef0].
    + apply terminate_all_default_workers.
      destruct Hg as (ts0 & t & s0 & Heq & Hg & ->).
      rewrite Heq in Hts. apply Forall_app in Hts as [Hts0 Ht].
      unfold default_workers, started. simpl.
      apply Forall_app. split.
      * eapply grows_by_default_workers; [exact Hg|exact Hts0|exact Hdef0].
      * inversion Ht as [|t' l' Ht' _]; subst. constructor; [exact Ht'|constructor].
Qed.

(** The result [r] is the signal handler's exit. *)
Local Abbreviation exited r :=
  (exists x, r = Raise (SystemExit 0) x /\ signal_at E <> None).

Lemma start_ramp_menu_invariant ramp_fuel s :
  menu_invariant s ->
  let r := default_ramp ramp_fuel s in
  default_workers (state_of r s) /\
  nearly_tracked (state_of r s) /\
  (tracked (state_of r s) \/ exited r).
Proof.
  intros [Htr Hdef] r.
  split; [apply start_ramp_default_workers, Hdef|].
  destruct (start_ramp_registry E ramp_fuel DEFAULT_PC_AMOUNT DEFAULT_SPEED
              DEFAULT_MEM_MB DEFAULT_USE_BUSY_LOOP false 98 s Htr)
    as (_ & Hnear & Hcase).
  split; [exact Hnear|].
  destruct Hcase as [Ht|[[x Hx] _]]; [left; exact Ht|right].
  exists x. split; [exact Hx|].
  apply start_ramp_raises in Hx as [(Habs & _)|(_ & Hsig & _)];
    [discriminate|exact Hsig].
Qed.

(** A prompt leaves the state as it is, or as the teardown of the signal
    handler leaves it. *)
Lemma input_menu_invariant k s :
  menu_invariant s -> menu_invariant (state_of (prompt k s) s).
Proof.
  intros Hinv. destruct (prompt k s) as [line s0|e x|] eqn:H; simpl.
  - apply input_ok in H as [-> _]. exact Hinv.
  - apply input_raise in H as [[-> _]|(_ & _ & ->)]; [exact Hinv|].
    destruct Hinv as [Htr Hdef].
    split; [apply terminate_all_tracked, Htr
           |apply terminate_all_default_workers, Hdef].
  - exact Hinv.
Qed.

(** The outcomes that leave the state as it was. *)
Local Ltac kept Hkeep s Hinv :=
  first [ apply (Hkeep s Hinv Diverge); left; reflexivity
        | apply (Hkeep s Hinv (Ok tt s)); left; reflexivity
        | apply (Hkeep s Hinv); left; reflexivity ].

Lemma main_menu_leaves fuel ramp_fuel : forall k s,
  menu_invariant s ->
  default_workers (state_of (main_menu fuel ramp_fuel k s) s) /\
  nearly_tracked (state_of (main_menu fuel ramp_fuel k s) s) /\
  (tracked (state_of (main_menu fuel ramp_fuel k s) s)
   \/ exited (main_menu fuel ramp_fuel k s)).
Proof.
  assert (Hkeep : forall s, menu_invariant s ->
            forall r : result unit, state_of r s = s \/ menu_invariant (state_of r s) ->
            default_workers (state_of r s) /\ nearly_tracked (state_of r s) /\
            (tracked (state_of r s) \/ exited r)).
  { intros s Hinv r [->|[Htr Hdef]].
    - destruct Hinv as [Htr Hdef].
      split; [exact Hdef|]. split; [apply tracked_nearly, Htr|left; exact Htr].
    - split; [exact Hdef|]. split; [apply tracked_nearly, Htr|left; exact Htr]. }
  induction fuel as [|fuel IH]; intros k s Hinv.
  { apply (Hkeep s Hinv). left. reflexivity. }
  rewrite main_menu_unfold.
  pose proof (input_menu_invariant k s Hinv) as Hin.
  destruct (prompt k s) as [raw s0|e x|] eqn:Hprompt; simpl in Hin;
    [|apply (Hkeep s Hinv); right; exact Hin|kept Hkeep s Hinv].
  apply input_ok in Hprompt as [-> _].
  destruct (String.eqb (strip_lower raw) "s").
  - pose proof (start_ramp_menu_invariant ramp_fuel s Hinv) as H1.
    cbv zeta in H1.
    destruct (default_ramp ramp_fuel s) as [[] s1|e s1|]; simpl in H1;
      [|exact H1|exact H1].
    assert (Hinv1 : menu_invariant s1).
    { destruct H1 as (Hdef1 & _ & [Ht|(x & Habs & _)]); [|discriminate].
      split; assumption. }
    pose proof (input_menu_invariant (S k) s1 Hinv1) as Hin1.
    destruct (prompt (S k) s1) as [line s2|e x|] eqn:Hprompt1; simpl in Hin1.
    + apply input_ok in Hprompt1 as [-> _].
      specialize (IH (S (S k)) s1 Hinv1).
      destruct (main_menu fuel ramp_fuel (S (S k)) s1); simpl in *;
        [exact IH|exact IH|kept Hkeep s Hinv].
    + apply (Hkeep s Hinv (Raise e x)). right. exact Hin1.
    + apply (Hkeep s Hinv). left. reflexivity.
  - destruct (String.eqb (strip_lower raw) "q").
    + pose proof (any_alive_state s) as Hst.
      destruct (any_alive E s) as [[|] s1|e s1|]; simpl in Hst; subst;
        try (kept Hkeep s Hinv).
      pose proof (input_menu_invariant (S k) s Hinv) as Hin1.
      destruct (prompt (S k) s) as [ans s2|e x|] eqn:Hprompt1; simpl in Hin1.
      * apply input_ok in Hprompt1 as [-> _].
        destruct (String.eqb (strip_lower ans) "y");
          [|kept Hkeep s Hinv].
        rewrite terminate_all_eq. apply (Hkeep s Hinv (Ok tt _)). right.
        destruct Hinv as [Htr Hdef].
        split; [apply terminate_all_tracked, Htr
               |apply terminate_all_default_workers, Hdef].
      * apply (Hkeep s Hinv (Raise e x)). right. exact Hin1.
      * apply (Hkeep s Hinv). left. reflexivity.
    + assert (Hp : menu_invariant (paused s)) by exact Hinv.
      specialize (IH (S k) (paused s) Hp).
      destruct (main_menu fuel ramp_fuel (S k) (paused s)); simpl in *;
        [exact IH|exact IH|kept Hkeep s Hinv].
Qed.

(** *** How the menu ends *)

Lemma main_menu_returns fuel ramp_fuel : forall k s s',
  main_menu fuel ramp_fuel k s = Ok tt s' ->
  exists j line, (k <= j)%nat /\ answers j = inr line
                 /\ strip_lower line = "q"%string.
Proof.
  induction fuel as [|fuel IH]; intros k s s'; [discriminate|].
  rewrite main_menu_unfold.
  destruct (prompt k s) as [raw s0|e x|] eqn:Hprompt;
    [|discriminate|discriminate].
  apply input_ok in Hprompt as [-> Hk].
  destruct (String.eqb (strip_lower raw) "s").
  - destruct (default_ramp ramp_fuel s) as [[] s1|e s1|];
      [|discriminate|discriminate].
    destruct (prompt (S k) s1) as [line s2|e x|]; [|discriminate|discriminate].
    intros H. apply IH in H as (j & l & Hj & Ha & Hq).
    exists j, l. split; [lia|auto].
  - destruct (String.eqb (strip_lower raw) "q") eqn:Hq.
    + intros _. exists k, raw. split; [lia|]. split; [exact Hk|].
      apply String.eqb_eq, Hq.
    + intros H. apply IH in H as (j & l & Hj & Ha & Hq').
      exists j, l. split; [lia|auto].
Qed.

Lemma input_raise_why k s e x :
  prompt k s = Raise e x ->
  (exists j, answers j = inl e)
  \/ (e = SystemExit 0 /\ signal_at E <> None /\ terminate_flag x = true).
Proof.
  intros H. apply input_raise in H as [[_ H]|(-> & Hc & ->)].
  - left. exists k. exact H.
  - right. split; [reflexivity|]. split; [eapply caught_signal, Hc|].
    apply terminate_all_frame.
Qed.

Lemma main_menu_raises fuel ramp_fuel : forall k s e s',
  main_menu fuel ramp_fuel k s = Raise e s' ->
  (exists j, answers j = inl e)
  \/ (e = OSError /\ terminate_flag s' = false
      /\ (proc_limit E <= length (table s'))%nat)
  \/ any_alive E s' = Raise e s'
  \/ (e = SystemExit 0 /\ signal_at E <> None /\ terminate_flag s' = true).
Proof.
  assert (Hprompt_why : forall k s e x, prompt k s = Raise e x ->
            (exists j, answers j = inl e)
            \/ (e = OSError /\ terminate_flag x = false
                /\ (proc_limit E <= length (table x))%nat)
            \/ any_alive E x = Raise e x
            \/ (e = SystemExit 0 /\ signal_at E <> None
                /\ terminate_flag x = true)).
  { intros k s e x H. apply input_raise_why in H as [H|H]; [left; exact H|].
    right. right. right. exact H. }
  induction fuel as [|fuel IH]; intros k s e s'; [discriminate|].
  rewrite main_menu_unfold.
  destruct (prompt k s) as [raw s0|e0 x|] eqn:Hprompt; [| |discriminate].
  2: { intros [= <- <-]. eapply Hprompt_why, Hprompt. }
  apply input_ok in Hprompt as [-> _].
  destruct (String.eqb (strip_lower raw) "s").
  - destruct (default_ramp ramp_fuel s) as [[] s1|e1 s1|] eqn:Hramp;
      [| |discriminate].
    + destruct (prompt (S k) s1) as [line s2|e1 x|] eqn:Hprompt1;
        [| |discriminate].
      * apply input_ok in Hprompt1 as [-> _]. apply IH.
      * intros [= <- <-]. eapply Hprompt_why, Hprompt1.
    + intros [= <- <-].
      apply start_ramp_raises in Hramp
        as [(-> & _ & Hflag & Hfull & _)|(-> & Hsig & Hflag & _)].
      * right. left. auto.
      * right. right. right. auto.
  - destruct (String.eqb (strip_lower raw) "q").
    + pose proof (any_alive_state s) as Hst.
      destruct (any_alive E s) as [[|] s1|e1 s1|] eqn:Halive;
        simpl in Hst; subst; try discriminate.
      * destruct (prompt (S k) s) as [ans s2|e1 x|] eqn:Hprompt1;
          [| |discriminate].
        -- apply input_ok in Hprompt1 as [-> _].
           destruct (String.eqb (strip_lower ans) "y"); [|discriminate].
           rewrite terminate_all_eq. discriminate.
        -- intros [= <- <-]. eapply Hprompt_why, Hprompt1.
      * intros [= <- <-]. right. right. left. exact Halive.
    + apply IH.
Qed.

(** Without a "y" among the answers the menu only ever adds processes
    and ramp events, unless the signal handler ends it. *)
Lemma main_menu_without_consent fuel ramp_fuel :
  (forall j line, answers j = inr line -> strip_lower line <> "y"%string) ->
  forall k s,
    exited (main_menu fuel ramp_fuel k s)
    \/ (table s `prefix_of` table (state_of (main_menu fuel ramp_fuel k s) s) /\
        exists evs,
          log (state_of (main_menu fuel ramp_fuel k s) s) = log s ++ evs
          /\ forallb is_ramp_event evs = true).
Proof.
  intros Hno.
  assert (Hrefl : forall s, table s `prefix_of` table s /\
            exists evs, log s = log s ++ evs /\ forallb is_ramp_event evs = true).
  { intros s. split; [reflexivity|]. exists []. rewrite app_nil_r. auto. }
  assert (Hprompt_end : forall k s e x, prompt k s = Raise e x ->
            exited (Raise e x : result unit) \/ x = s).
  { intros k s e x H. apply input_raise in H as [[-> _]|(-> & Hc & ->)];
      [right; reflexivity|left].
    eexists. split; [reflexivity|eapply caught_signal, Hc]. }
  induction fuel as [|fuel IH]; intros k s; [right; apply Hrefl|].
  rewrite main_menu_unfold.
  destruct (prompt k s) as [raw s0|e x|] eqn:Hprompt.
  2: { destruct (Hprompt_end _ _ _ _ Hprompt) as [H| ->];
         [left; exact H|right; apply Hrefl]. }
  2: { right. apply Hrefl. }
  apply input_ok in Hprompt as [-> _].
  destruct (String.eqb (strip_lower raw) "s").
  - pose proof (start_ramp_shape E ramp_fuel DEFAULT_PC_AMOUNT DEFAULT_SPEED
                  DEFAULT_MEM_MB DEFAULT_USE_BUSY_LOOP false 98 s) as H.
    assert (Hstep : forall s1 ts, grows_by E (with_console false s) s1 ts ->
              table s `prefix_of` table s1 /\
              exists evs, log s1 = log s ++ evs
                          /\ forallb is_ramp_event evs = true).
    { intros s1 ts (_ & Ht & _ & _ & evs & Hl & Hev).
      split; [eexists; exact Ht|]. exists evs. auto. }
    destruct (default_ramp ramp_fuel s) as [[] s1|e s1|]; simpl in H;
      [| |right; apply Hrefl].
    + destruct H as (n & Hg & _). apply Hstep in Hg as [Hpre (evs & Hl & Hev)].
      destruct (prompt (S k) s1) as [line s2|e x|] eqn:Hprompt1.
      * apply input_ok in Hprompt1 as [-> _].
        destruct (IH (S (S k)) s1) as [Hexit|[Hpre2 (evs2 & Hl2 & Hev2)]];
          [left; exact Hexit|right].
        destruct (main_menu fuel ramp_fuel (S (S k)) s1) as [[] s2|e s2|];
          simpl in *; [| |apply Hrefl].
        -- split; [etransitivity; eassumption|].
           exists (evs ++ evs2).
           rewrite Hl2, Hl, <- app_assoc, forallb_app, Hev, Hev2. auto.
        -- split; [etransitivity; eassumption|].
           exists (evs ++ evs2).
           rewrite Hl2, Hl, <- app_assoc, forallb_app, Hev, Hev2. auto.
      * destruct (Hprompt_end _ _ _ _ Hprompt1) as [Hx| ->];
          [left; exact Hx|right].
        simpl. split; [exact Hpre|eauto].
      * right. apply Hrefl.
    + destruct H as (n & extra & _ & _ & [(_ & _ & _ & _ & Hg)
                                         |(-> & s0 & Hc & _)]).
      * right. simpl. apply Hstep in Hg. exact Hg.
      * left. eexists. split; [reflexivity|eapply caught_signal, Hc].
  - destruct (String.eqb (strip_lower raw) "q").
    + pose proof (any_alive_state s) as Hst.
      destruct (any_alive E s) as [[|] s1|e s1|]; simpl in Hst; subst;
        try (right; apply Hrefl).
      destruct (prompt (S k) s) as [ans s2|e x|] eqn:Hprompt1.
      * apply input_ok in Hprompt1 as [-> Hk1].
        destruct (String.eqb (strip_lower ans) "y") eqn:Hy;
          [|right; apply Hrefl].
        exfalso. apply (Hno (S k) ans Hk1). apply String.eqb_eq, Hy.
      * destruct (Hprompt_end _ _ _ _ Hprompt1) as [Hx| ->];
          [left; exact Hx|right; apply Hrefl].
      * right. apply Hrefl.
    + destruct (IH (S k) (paused s)) as [Hexit|Hquiet];
        [left; exact Hexit|right].
      destruct (main_menu fuel ramp_fuel (S k) (paused s)) as [[] s2|e s2|];
        simpl in *; [exact Hquiet|exact Hquiet|apply Hrefl].
Qed.

End MenuProperties.

(** X9: whatever is typed and whatever reaches the controller from
    outside, the menu starts only the workers of its fixed settings:
    every process it leaves is a busy CPU worker or a memory worker of
    128 MB -- never the throttled CPU worker.  The registry holds these
    processes in the order of their creation and misses at most the one
    started last; it misses none unless the signal handler ended the
    menu, so none when no signal arrives. *)
Theorem menu_starts_only_default_workers (E : env)
    (strip_lower : String.string -> String.string)
    (answers : nat -> exn + String.string) (fuel ramp_fuel k : nat) (s : state) :
  tracked s ->
  default_workers s ->
  let r := main_menu E strip_lower answers fuel ramp_fuel k s in
  let s' := state_of r s in
  default_workers s' /\
  (forall h p load_percent,
      table s' !! h = Some p -> p_target p <> TargetThrottle load_percent) /\
  nearly_tracked s' /\
  (tracked s' \/ exists x, r = Raise (SystemExit 0) x /\ signal_at E <> None) /\
  (signal_at E = None -> tracked s').
Proof.
  intros Htr Hdef r s'.
  destruct (main_menu_leaves E strip_lower answers fuel ramp_fuel k s
              (conj Htr Hdef)) as (Hdef' & Hnear & Hcase).
  fold r s' in Hdef', Hnear, Hcase.
  split; [exact Hdef'|]. split.
  { intros h p lp Hp Ht. unfold default_workers in Hdef'.
    rewrite Forall_lookup in Hdef'. destruct (Hdef' h p Hp) as [H|H];
      rewrite H in Ht; discriminate. }
  split; [exact Hnear|]. split; [exact Hcase|].
  intros Hnosig. destruct Hcase as [H|(x & _ & Hsig)]; [exact H|contradiction].
Qed.

Lemma menu_starts_only_default_workers_witness :
  let s' := state_of (main_menu interrupted_env typed_clean session 10 30 0
                                initial_state) initial_state in
  map p_target (table s') = [TargetBusy; TargetMemory 128] /\
  tracked s' /\ default_workers s'.
Proof.
  intros s'.
  destruct (menu_starts_only_default_workers interrupted_env typed_clean
              session 10 30 0 initial_state) as (Hdef & _ & _ & _ & Htr).
  - reflexivity.
  - constructor.
  - split; [vm_compute; reflexivity|].
    split; [apply Htr; reflexivity|exact Hdef].
Defined.

(** X10: the menu loop is left normally only through the quit branch:
    if [main_menu] returns, one of the lines read was "q" once stripped
    and lowered; every other line keeps the loop going, and the end of
    the input ends it with the exception of [input()]. *)
Theorem menu_returns_only_on_quit (E : env)
    (strip_lower : String.string -> String.string)
    (answers : nat -> exn + String.string) (fuel ramp_fuel k : nat)
    (s s' : state) :
  main_menu E strip_lower answers fuel ramp_fuel k s = Ok tt s' ->
  exists j line, (k <= j)%nat /\ answers j = inr line
                 /\ strip_lower line = "q"%string.
Proof. apply main_menu_returns. Qed.

Lemma menu_returns_only_on_quit_witness :
  exists s',
    main_menu interrupted_env typed_clean session 10 30 0 initial_state
      = Ok tt s' /\
    session 2 = inr "q"%string.
Proof.
  eexists. split; [vm_compute; reflexivity|].
  destruct (menu_returns_only_on_quit interrupted_env typed_clean session
              10 30 0 initial_state
              (state_of (main_menu interrupted_env typed_clean session 10 30 0
                                   initial_state) initial_state))
    as (j & line & _).
  - vm_compute. reflexivity.
  - reflexivity.
Defined.

(** X11: the menu itself tears workers down only on consent: as long as
    no line read is "y" once stripped and lowered, whatever else is typed,
    either the signal handler has ended the menu with its [SystemExit(0)]
    -- a signal has arrived -- or no termination request has been sent
    and no handle waited on: the menu has only added processes to the
    table, leaving the earlier ones as they were.  So without a signal
    and without consent nothing is torn down. *)
Theorem menu_never_terminates_without_consent (E : env)
    (strip_lower : String.string -> String.string)
    (answers : nat -> exn + String.string) (fuel ramp_fuel k : nat) (s : state) :
  (forall j line, answers j = inr line -> strip_lower line <> "y"%string) ->
  let r := main_menu E strip_lower answers fuel ramp_fuel k s in
  let s' := state_of r s in
  ((exists x, r = Raise (SystemExit 0) x /\ signal_at E <> None)
   \/ (table s `prefix_of` table s' /\
       forallb is_ramp_event (new_events s s') = true)) /\
  (signal_at E = None ->
   table s `prefix_of` table s' /\
   forallb is_ramp_event (new_events s s') = true).
Proof.
  intros Hno r s'.
  assert (Hcase : (exists x, r = Raise (SystemExit 0) x /\ signal_at E <> None)
                  \/ (table s `prefix_of` table s' /\
                      forallb is_ramp_event (new_events s s') = true)).
  { destruct (main_menu_without_consent E strip_lower answers fuel ramp_fuel Hno
                k s) as [Hexit|[Hpre (evs & Hl & Hev)]];
      [left; exact Hexit|right].
    split; [exact Hpre|].
    subst s' r. rewrite (new_events_app _ _ _ Hl). exact Hev. }
  split; [exact Hcase|].
  intros Hnosig. destruct Hcase as [(x & _ & Hsig)|H]; [contradiction|exact H].
Qed.

Lemma menu_never_terminates_without_consent_witness :
  let s' := state_of (main_menu interrupted_env typed_clean session_no 10 30 0
                                initial_state) initial_state in
  main_menu interrupted_env typed_clean session_no 10 30 0 initial_state
    = Ok tt s' /\
  any_alive interrupted_env s' = Ok true s' /\
  forallb is_ramp_event (new_events initial_state s') = true.
Proof.
  intros s'. split; [vm_compute; reflexivity|].
  split; [vm_compute; reflexivity|].
  destruct (menu_never_terminates_without_consent interrupted_env typed_clean
              session_no 10 30 0 initial_state) as [_ Hquiet].
  - intros j line. unfold session_no, typed_clean.
    do 4 (destruct j as [|j]; [simpl; intros [= <-]; discriminate|]).
    destruct j; discriminate.
  - apply Hquiet. reflexivity.
Defined.

(** X12: how the program ends in an exception.  When a signal has
    arrived, the handler has run the teardown and its [SystemExit(0)]
    ends the program, the flag being set: this is what Ctrl+C does, at a
    prompt or during a ramp.  A [KeyboardInterrupt] raised by [input()]
    -- which a SIGINT cannot cause, the module having replaced its
    handler -- is turned by the program's own handler into the same
    teardown and [SystemExit(0)].  Every other exception leaves the
    program as it was raised, with no teardown: an exception of
    [input()], the [OSError] of a refused start (the flag then still
    unset, the workers started so far left running), or an exception of a
    liveness check in the quit branch. *)
Theorem program_ends_in_exception (E : env)
    (strip_lower : String.string -> String.string)
    (answers : nat -> exn + String.string) (fuel ramp_fuel : nat)
    (s s' : state) (e : exn) :
  program E strip_lower answers fuel ramp_fuel s = Raise e s' ->
  (e = SystemExit 0 /\ signal_at E <> None /\ terminate_flag s' = true)
  \/ (e = SystemExit 0 /\ terminate_flag s' = true
      /\ exists j, answers j = inl KeyboardInterrupt)
  \/ (e <> KeyboardInterrupt /\ exists j, answers j = inl e)
  \/ (e = OSError /\ terminate_flag s' = false
      /\ (proc_limit E <= length (table s'))%nat)
  \/ ((e = ValueError \/ e = AssertionError) /\ any_alive E s' = Raise e s').
Proof.
  unfold program.
  destruct (main_menu E strip_lower answers fuel ramp_fuel 0 s)
    as [[] s1|e1 s1|] eqn:Hmenu; [discriminate| |discriminate].
  pose proof (main_menu_raises E strip_lower answers fuel ramp_fuel 0 s e1 s1
                Hmenu) as Hwhy.
  assert (Halive : any_alive E s1 = Raise e1 s1 ->
                   e1 = ValueError \/ e1 = AssertionError).
  { unfold any_alive. erewrite bind_ok by reflexivity.
    apply any_alive_in_raises. }
  destruct e1;
    try (intros [= <- <-];
         destruct Hwhy as [Hin|[Hos|[Hal|Hexit]]];
         [right; right; left; split; [discriminate|exact Hin]
         |right; right; right; left; exact Hos
         |right; right; right; right; split; [apply Halive, Hal|exact Hal]
         |left; exact Hexit]).
  unfold signal_handler, bind. rewrite terminate_all_eq.
  intros [= <- <-]. right. left. split; [reflexivity|].
  split; [apply terminate_all_frame|].
  destruct Hwhy as [Hin|[(Hos & _)|[Hal|(Habs & _)]]];
    [exact Hin|discriminate| |discriminate].
  destruct (Halive Hal); discriminate.
Qed.

(** X12 on a Ctrl+C right after the first process of the first wave has
    been started. *)
Lemma program_ends_in_exception_witness :
  exists s',
    program signalled_env typed_clean session 10 30 initial_state
      = Raise (SystemExit 0) s' /\
    terminate_flag s' = true /\
    signal_at signalled_env <> None.
Proof.
  eexists. split; [vm_compute; reflexivity|].
  destruct (program_ends_in_exception signalled_env typed_clean session
              10 30 initial_state
              (state_of (program signalled_env typed_clean session
                                 10 30 initial_state) initial_state)
              (SystemExit 0))
    as [(_ & Hsig & Hflag)|[(_ & _ & j & Hj)|[(_ & j & Hj)|[(H & _)|([H|H] & _)]]]].
  - vm_compute. reflexivity.
  - split; [exact Hflag|exact Hsig].
  - exfalso. unfold session in Hj.
    do 4 (destruct j as [|j]; [discriminate Hj|]). destruct j; discriminate Hj.
  - exfalso. unfold session in Hj.
    do 4 (destruct j as [|j]; [discriminate Hj|]). destruct j; discriminate Hj.
  - discriminate H.
  - discriminate H.
  - discriminate H.
Defined.

(** X13: [prompt_int] never lets an exception that [except Exception]
    catches escape, and never touches the controller: it returns what
    [int()] made of the stripped line when that line is not empty and
    parses, and the default in every other case -- an empty line, a line
    that does not parse, an [input()] that fails; only an exception
    outside [Exception] passes through. *)
Theorem prompt_int_falls_back (strip : String.string -> String.string)
    (parse_int : String.string -> exn + Z) (answer : exn + String.string)
    (default : Z) (s : state) :
  match prompt_int strip parse_int answer default s with
  | Ok z s' =>
      s' = s /\
      ((exists raw, answer = inr raw /\ strip raw <> ""%string
                    /\ parse_int (strip raw) = inr z)
       \/ (z = default /\
           ((exists raw, answer = inr raw /\ strip raw = ""%string)
            \/ (exists raw e, answer = inr raw /\ parse_int (strip raw) = inl e
                              /\ is_Exception e = true)
            \/ (exists e, answer = inl e /\ is_Exception e = true))))
  | Raise e s' =>
      s' = s /\ is_Exception e = false /\
      (answer = inl e \/ exists raw, answer = inr raw
                                     /\ parse_int (strip raw) = inl e)
  | Diverge => False
  end.
Proof.
  unfold prompt_int. destruct answer as [e|raw].
  - destruct (is_Exception e) eqn:He.
    + split; [reflexivity|]. right. split; [reflexivity|].
      right. right. exists e. auto.
    + split; [reflexivity|]. split; [exact He|]. left. reflexivity.
  - cbv zeta. destruct (String.eqb (strip raw) "") eqn:Hempty.
    + apply String.eqb_eq in Hempty. split; [reflexivity|].
      right. split; [reflexivity|]. left. exists raw. auto.
    + apply String.eqb_neq in Hempty.
      destruct (parse_int (strip raw)) as [e|z] eqn:Hparse.
      * destruct (is_Exception e) eqn:He.
        -- split; [reflexivity|]. right. split; [reflexivity|].
           right. left. exists raw, e. auto.
        -- split; [reflexivity|]. split; [exact He|]. right. exists raw. auto.
      * split; [reflexivity|]. left. exists raw. auto.
Qed.
